(** * chzzk-streamlink-auto-recorder: the poll loop and the recording supervisor

    A shallow embedding of the three program variants of the repository:

    - [src/chzzk-recorder.py]: the class [ChzzkRecorder], console only
      (variant [Console] below);
    - [src/hosting.py]: the same class extended with [recording_info],
      [get_status] and [stop_recording] for the web dashboard (variant [Web]);
    - [src/callisto.py]: the plain script with module-level globals
      (module [Callisto] below).

    Python code becomes a function in a state, exception and trace monad:
    attribute writes are state updates, [raise] and [try]/[except]/[finally]
    are explicit, and every call that leaves the process (HTTP request,
    [Popen], [terminate], [wait], [kill], [time.sleep], a log record) leaves an
    event in the trace.  What the outside world answers is an argument of the
    function.

    The loop [while not shutdown_flag] does not end by itself; a run is the
    loop over a finite script of iterations, one [iter_env] each, and ends
    [Polling] when the script is used up.

    Two things happen besides the sequential code of the main thread, and
    both are placed by the script:
    - the monitor thread ([monitor_recording]) runs its body when the process
      it waits for has ended; this is taken to happen between two passes of
      the loop;
    - the signal handler runs in the main thread, during one of the calls in
      which that thread blocks (the HTTP request, a sleep, a wait).

    [Thread.start], [Popen.kill], [Popen.poll] and the logger are taken not
    to raise, and a [Popen.wait()] without a timeout is taken to return. *)

From Stdlib Require Import ZArith List String Bool Lia.
From stdpp Require Import base gmap strings.
Import ListNotations.

Local Open Scope string_scope.
Local Open Scope list_scope.
Local Open Scope Z_scope.
Set Warnings "-register-all".

(** ** Values *)

(** A decoded JSON document, which is also the shape of every value that
    [get_live_info] hands to the loop: [JNull] is Python's [None]. *)
Inductive json : Type :=
| JNull
| JBool (b : bool)
| JNum (n : Z)
| JStr (s : string)
| JArr (items : list json)
| JObj (fields : list (string * json)).

(** Identity of a [subprocess.Popen] object. *)
Definition pid := nat.

(** The exception classes the three files raise, catch or let through.
    [ConnectionError], [HTTPError] and [JSONDecodeError] are those of
    [requests] (its [JSONDecodeError], raised by [response.json()] since
    version 2.27, is a [RequestException]). *)
Inductive exn : Type :=
| ConnectionError
| HTTPError
| JSONDecodeError
| AttributeError
| ValueError
| OverflowError
| OSError
| TimeoutExpired
| UnboundLocalError
| KeyboardInterrupt
| SystemExit (code : Z).

(** [isinstance(e, Exception)]: [KeyboardInterrupt] and [SystemExit] derive
    from [BaseException] only. *)
Definition is_Exception (e : exn) : bool :=
  match e with
  | KeyboardInterrupt | SystemExit _ => false
  | _ => true
  end.

(** [isinstance(e, requests.exceptions.RequestException)]. *)
Definition is_RequestException (e : exn) : bool :=
  match e with
  | ConnectionError | HTTPError | JSONDecodeError => true
  | _ => false
  end.

(** ** Events *)

Inductive level : Type := Info | Warning | Error.

(** One constructor per log call of the sources, named after what the
    Korean message says. *)
Inductive message : Type :=
| MsgShutdownSignal
| MsgStoppingRecording
| MsgTerminateError
| MsgNoContent
| MsgApiRequestFailed
| MsgLiveInfoFailed
| MsgRecordingStart
| MsgProcessStarted (p : pid)
| MsgStreamlinkError
| MsgRecordingDone
| MsgRecordingFailed (returncode : Z)
| MsgStderr (text : string)
| MsgMonitorError
| MsgBroadcastStarted (channel_name : json)
| MsgBroadcastTitle (title : json)
| MsgBroadcastUrl
| MsgLaunchFailed (attempt : Z) (total : Z)
| MsgBroadcastEnded
| MsgWaitingForRecording
| MsgProcessDied
| MsgOffline (interval : Z)
| MsgInterrupted
| MsgUnexpectedError (retry : Z) (e : exn)
| MsgFiveErrors
| MsgUserStop
| MsgStopped
| MsgForceKilled
| MsgStopError
| MsgBanner
| MsgDependenciesFailed
| MsgFatal
| MsgProgramEnded.

Inductive event : Type :=
| ELog (l : level) (m : message)
| EHttpGet (timeout : Z)
| EPopen (handle : option pid)
| EThreadStart (p : pid)
| ESleep (seconds : Z)
| EPoll (p : pid)
| EWait (p : pid) (timeout : option Z)
| ETerminate (p : pid)
| EKill (p : pid).

Definition trace := list event.

(** ** The monad: state, exceptions, trace *)

Inductive outcome (A : Type) : Type :=
| Ret (a : A)
| Raise (e : exn).
Arguments Ret {A} a.
Arguments Raise {A} e.

Definition M (St A : Type) : Type := St -> outcome A * St * trace.

Section Monad.
Context {St : Type}.

Definition ret {A} (a : A) : M St A := fun s => (Ret a, s, []).

Definition bind {A B} (m : M St A) (k : A -> M St B) : M St B :=
  fun s =>
    match m s with
    | (Ret a, s1, t1) => let '(r, s2, t2) := k a s1 in (r, s2, t1 ++ t2)
    | (Raise e, s1, t1) => (Raise e, s1, t1)
    end.

Definition raise {A} (e : exn) : M St A := fun s => (Raise e, s, []).

Definition gets {A} (f : St -> A) : M St A := fun s => (Ret (f s), s, []).

Definition modify (f : St -> St) : M St unit := fun s => (Ret tt, f s, []).

Definition emit (e : event) : M St unit := fun s => (Ret tt, s, [e]).

Definition log (l : level) (m : message) : M St unit := emit (ELog l m).

(** [try: m  except ... : h e].  The handler sees every exception; a clause
    list that does not match re-raises it.  Writes made before the
    exception stay. *)
Definition try_except {A} (m : M St A) (h : exn -> M St A) : M St A :=
  fun s =>
    match m s with
    | (Ret a, s1, t1) => (Ret a, s1, t1)
    | (Raise e, s1, t1) => let '(r, s2, t2) := h e s1 in (r, s2, t1 ++ t2)
    end.

(** [try: m  finally: f]. *)
Definition try_finally {A} (m : M St A) (f : M St unit) : M St A :=
  fun s =>
    let '(r, s1, t1) := m s in
    match f s1 with
    | (Ret _, s2, t2) => (r, s2, t1 ++ t2)
    | (Raise e, s2, t2) => (Raise e, s2, t1 ++ t2)
    end.
End Monad.

Declare Scope py_scope.
Delimit Scope py_scope with py.
Notation "x <- m ;; k" := (bind m (fun x => k))
  (at level 100, m at next level, right associativity) : py_scope.
Notation "m ;; k" := (bind m (fun _ => k))
  (at level 100, right associativity) : py_scope.
Local Open Scope py_scope.

(** Projections of a run. *)
Definition result_of {A St} (r : outcome A * St * trace) : outcome A := fst (fst r).
Definition state_of {A St} (r : outcome A * St * trace) : St := snd (fst r).
Definition trace_of {A St} (r : outcome A * St * trace) : trace := snd r.

(** ** The recorder object *)

(** A value stored in [recording_info]. *)
Inductive info : Type :=
| IJson (v : json)
| IStr (s : string)
| ITime (clock : Z)
  (** [datetime.datetime.now().isoformat()] read at [clock] *)
| IPath (clock : Z) (channel_name : json) (title : string).
  (** [os.path.join(record_dir, f"{time}_{channel_name}_{cleaned_title}.mp4")],
      kept symbolic: building the file name is outside the core *)

(** The attributes of [ChzzkRecorder] the core reads or writes.  In
    [callisto.py] the first four are the module globals [CHECK_INTERVAL],
    [RETRY_COUNT], [current_recording_process] and [shutdown_flag]. *)
Record recorder : Type := {
  check_interval : Z;
  retry_count_max : Z;
  current_recording_process : option pid;
  shutdown_flag : bool;
  last_status : json;
  retry_count : Z;
  recording_info : gmap string info
}.

Definition set_current_recording_process (p : option pid) (r : recorder) : recorder :=
  {| check_interval := check_interval r; retry_count_max := retry_count_max r;
     current_recording_process := p; shutdown_flag := shutdown_flag r;
     last_status := last_status r; retry_count := retry_count r;
     recording_info := recording_info r |}.

Definition set_shutdown_flag (b : bool) (r : recorder) : recorder :=
  {| check_interval := check_interval r; retry_count_max := retry_count_max r;
     current_recording_process := current_recording_process r; shutdown_flag := b;
     last_status := last_status r; retry_count := retry_count r;
     recording_info := recording_info r |}.

Definition set_last_status (v : json) (r : recorder) : recorder :=
  {| check_interval := check_interval r; retry_count_max := retry_count_max r;
     current_recording_process := current_recording_process r;
     shutdown_flag := shutdown_flag r;
     last_status := v; retry_count := retry_count r;
     recording_info := recording_info r |}.

Definition set_retry_count (n : Z) (r : recorder) : recorder :=
  {| check_interval := check_interval r; retry_count_max := retry_count_max r;
     current_recording_process := current_recording_process r;
     shutdown_flag := shutdown_flag r;
     last_status := last_status r; retry_count := n;
     recording_info := recording_info r |}.

Definition set_recording_info (i : gmap string info) (r : recorder) : recorder :=
  {| check_interval := check_interval r; retry_count_max := retry_count_max r;
     current_recording_process := current_recording_process r;
     shutdown_flag := shutdown_flag r;
     last_status := last_status r; retry_count := retry_count r;
     recording_info := i |}.

(** [__init__]: the state variables of a fresh recorder, for the two
    settings read from [CHECK_INTERVAL] and [RETRY_COUNT]. *)
Definition init (interval retries : Z) : recorder :=
  {| check_interval := interval; retry_count_max := retries;
     current_recording_process := None; shutdown_flag := false;
     last_status := JNull; retry_count := 0;
     recording_info := ∅ |}.

(** The defaults of [_load_environment_vars]. *)
Definition default_recorder : recorder := init 60 3.

(** [x == 'OPEN']. *)
Definition is_open (v : json) : bool :=
  match v with
  | JStr s => String.eqb s "OPEN"
  | _ => false
  end.

(** ** What the outside world answers *)

(** The HTTP request of [get_live_info]: [requests.get] raises, or a response
    arrives with a status code and a body that decodes as JSON or does not. *)
Inductive query_outcome : Type :=
| RequestFailed
| Response (status_code : Z) (body : option json).

(** [Popen.wait(timeout=10)]. *)
Inductive wait_outcome : Type := WaitReturns | WaitTimesOut | WaitRaises.

(** What the child process does when it is asked to stop. *)
Record stop_env : Type := {
  se_terminate_raises : bool;
  se_wait : wait_outcome
}.

(** One call of [run_streamlink]: the two clock readings and what [Popen]
    does ([None]: it raises). *)
Record launch_env : Type := {
  le_clock_name : Z;
  le_clock_start : Z;
  le_popen : option pid
}.

(** [process.communicate()] in the monitor thread. *)
Inductive communicate_outcome : Type :=
| Exited (returncode : Z) (stderr : string)
| CommunicateRaised (text : string).

Record monitor_report : Type := {
  mr_outcome : communicate_outcome;
  mr_clock : Z
}.

(** The calls of one loop iteration during which the main thread blocks, and
    so the places where a termination signal is delivered. *)
Inductive block_point : Type :=
| InQuery
| InRetrySleep (attempt : nat)
| InWait
| InSleep
| InErrorSleep.

Definition block_point_eqb (a b : block_point) : bool :=
  match a, b with
  | InQuery, InQuery | InWait, InWait | InSleep, InSleep
  | InErrorSleep, InErrorSleep => true
  | InRetrySleep i, InRetrySleep j => Nat.eqb i j
  | _, _ => false
  end.

(** Everything the world contributes to one iteration of the poll loop. *)
Record iter_env : Type := {
  ie_monitor : option monitor_report;
    (** the monitor thread saw the process end since the last iteration *)
  ie_query : query_outcome;
  ie_launch : nat -> launch_env;
    (** by attempt number *)
  ie_poll : option Z;
    (** [Popen.poll()]: [None] while the process runs *)
  ie_signal : option (block_point * stop_env)
    (** SIGINT or SIGTERM arrives during that call *)
}.

Definition signal_at (e : iter_env) (b : block_point) : option stop_env :=
  match ie_signal e with
  | Some (b', se) => if block_point_eqb b b' then Some se else None
  | None => None
  end.

(** ** Dictionaries of the decoded response *)

Fixpoint lookup_field (k : string) (fields : list (string * json)) : option json :=
  match fields with
  | [] => None
  | (k', v) :: rest => if String.eqb k k' then Some v else lookup_field k rest
  end.

(** [d.get(k, default)]; on a value that is not a dict the attribute [get]
    does not exist. *)
Definition dict_get {St} (d : json) (k : string) (default : json) : M St json :=
  match d with
  | JObj fields =>
      ret (match lookup_field k fields with Some v => v | None => default end)
  | _ => raise AttributeError
  end.

(** ** Stopping the child process *)

Definition terminate {St} (p : pid) (se : stop_env) : M St unit :=
  emit (ETerminate p) ;;
  if se_terminate_raises se then raise OSError else ret tt.

Definition wait_timeout {St} (p : pid) (seconds : Z) (se : stop_env) : M St unit :=
  emit (EWait p (Some seconds)) ;;
  match se_wait se with
  | WaitReturns => ret tt
  | WaitTimesOut => raise TimeoutExpired
  | WaitRaises => raise OSError
  end.

Definition kill {St} (p : pid) : M St unit := emit (EKill p).

(** [_signal_handler] of the two classes, [signal_handler] of the script. *)
Definition _signal_handler (se : stop_env) : M recorder unit :=
  log Info MsgShutdownSignal ;;
  modify (set_shutdown_flag true) ;;
  cur <- gets current_recording_process ;;
  match cur with
  | Some p =>
      log Info MsgStoppingRecording ;;
      try_except
        (terminate p se ;; wait_timeout p 10 se)
        (fun e =>
           match e with
           | TimeoutExpired => kill p
           | _ => if is_Exception e then log Error MsgTerminateError else raise e
           end)
  | None => ret tt
  end ;;
  raise (SystemExit 0).

(** A signal handler runs in the main thread at the point the signal finds
    it; what the handler raises surfaces from the interrupted call. *)
Definition interrupt (sig : option stop_env) : M recorder unit :=
  match sig with
  | Some se => _signal_handler se
  | None => ret tt
  end.

(** The longest sleep in seconds: [time.sleep] turns its argument into a
    64-bit count of nanoseconds. *)
Abbreviation max_sleep := 9223372036.

(** [time.sleep(seconds)]: a length that does not fit the count of
    nanoseconds is an [OverflowError], a negative length that fits is a
    [ValueError]. *)
Definition time_sleep (sig : option stop_env) (seconds : Z) : M recorder unit :=
  if (seconds <? - max_sleep) || (max_sleep <? seconds) then raise OverflowError
  else if seconds <? 0 then raise ValueError
  else emit (ESleep seconds) ;; interrupt sig.

(** A length [time.sleep] accepts, and one it refuses. *)
Abbreviation sleepable n := (0 <= n /\ n <= max_sleep).
Abbreviation refused n := (n < 0 \/ max_sleep < n).

(** ** The status query *)

Definition none3 : json * json * json := (JNull, JNull, JNull).

Definition get_live_info (q : query_outcome) (sig : option stop_env)
  : M recorder (json * json * json) :=
  try_except
    (emit (EHttpGet 10) ;;
     interrupt sig ;;
     match q with
     | RequestFailed => raise ConnectionError
     | Response code body =>
         if (400 <=? code) && (code <? 600) then raise HTTPError
         else
           match body with
           | None => raise JSONDecodeError
           | Some data =>
               content <- dict_get data "content" JNull ;;
               match content with
               | JNull => log Info MsgNoContent ;; ret none3
               | _ =>
                   status <- dict_get content "status" JNull ;;
                   title <- dict_get content "liveTitle" (JStr "Unknown Title") ;;
                   channel <- dict_get content "channel" (JObj []) ;;
                   channel_name <- dict_get channel "channelName" (JStr "UnknownChannel") ;;
                   ret (status, title, channel_name)
               end
           end
     end)
    (fun e =>
       if is_RequestException e then log Error MsgApiRequestFailed ;; ret none3
       else if is_Exception e then log Error MsgLiveInfoFailed ;; ret none3
       else raise e).

(** ** The class [ChzzkRecorder] *)

(** [chzzk-recorder.py] and [hosting.py] hold the same class; the second
    one also keeps [recording_info]. *)
Inductive variant : Type := Console | Web.

Definition set_info (k : string) (v : info) (r : recorder) : recorder :=
  set_recording_info (<[k := v]> (recording_info r)) r.

(** How one pass through the loop body ends. *)
Inductive ctl : Type := Continue | Break.

Section Recorder.
Variable v : variant.

(** A statement that only [hosting.py] has. *)
Definition web_only (m : M recorder unit) : M recorder unit :=
  match v with
  | Web => m
  | Console => ret tt
  end.

Definition run_streamlink (le : launch_env) (title channel_name : json)
  : M recorder (option pid) :=
  try_except
    (match title with
     | JStr t =>
         log Info MsgRecordingStart ;;
         web_only
           (modify (set_recording_info
                      (<["title" := IJson title]>
                         (<["channel_name" := IJson channel_name]>
                            (<["output_file" := IPath (le_clock_name le) channel_name t]>
                               (<["start_time" := ITime (le_clock_start le)]>
                                  (<["status" := IStr "recording"]> ∅))))))) ;;
         emit (EPopen (le_popen le)) ;;
         match le_popen le with
         | Some p =>
             modify (set_current_recording_process (Some p)) ;;
             log Info (MsgProcessStarted p) ;;
             ret (Some p)
         | None => raise OSError
         end
     | _ => raise AttributeError
     end)
    (fun e =>
       if is_Exception e then
         log Error MsgStreamlinkError ;;
         modify (set_current_recording_process None) ;;
         ret None
       else raise e).

(** The body of the monitor thread, run when [communicate] returns. *)
Definition monitor_recording (r : monitor_report) : M recorder unit :=
  try_finally
    (try_except
       (match mr_outcome r with
        | CommunicateRaised _ => raise OSError
        | Exited returncode stderr =>
            if returncode =? 0 then
              log Info MsgRecordingDone ;;
              web_only (modify (set_info "status" (IStr "completed")) ;;
                        modify (set_info "end_time" (ITime (mr_clock r))))
            else
              log Error (MsgRecordingFailed returncode) ;;
              web_only (modify (set_info "status" (IStr "failed")) ;;
                        modify (set_info "error" (IStr stderr))) ;;
              if String.eqb stderr "" then ret tt
              else log Error (MsgStderr stderr)
        end)
       (fun e =>
          if is_Exception e then
            log Error MsgMonitorError ;;
            web_only (modify (set_info "status" (IStr "error")) ;;
                      modify (set_info "error"
                                (IStr match mr_outcome r with
                                      | CommunicateRaised text => text
                                      | Exited _ _ => ""
                                      end)))
          else raise e))
    (modify (set_current_recording_process None)).

(** [for attempt in range(self.retry_count_max)], with [n] passes left. *)
Fixpoint launch_attempts (n : nat) (attempt : nat) (e : iter_env)
    (title channel_name : json) : M recorder unit :=
  match n with
  | O => ret tt
  | S n' =>
      recording_process <- run_streamlink (ie_launch e attempt) title channel_name ;;
      match recording_process with
      | Some p => emit (EThreadStart p)
      | None =>
          max <- gets retry_count_max ;;
          log Warning (MsgLaunchFailed (Z.of_nat attempt + 1) max) ;;
          (if Z.of_nat attempt <? max - 1
           then time_sleep (signal_at e (InRetrySleep attempt)) 5
           else ret tt) ;;
          launch_attempts n' (S attempt) e title channel_name
      end
  end.

Definition handle_live_start (e : iter_env) (title channel_name : json)
  : M recorder unit :=
  log Info (MsgBroadcastStarted channel_name) ;;
  log Info (MsgBroadcastTitle title) ;;
  log Info MsgBroadcastUrl ;;
  max <- gets retry_count_max ;;
  launch_attempts (Z.to_nat max) 0 e title channel_name.

Definition handle_live_end (e : iter_env) : M recorder unit :=
  log Info MsgBroadcastEnded ;;
  cur <- gets current_recording_process ;;
  match cur with
  | Some p =>
      log Info MsgWaitingForRecording ;;
      emit (EWait p None) ;;
      interrupt (signal_at e InWait) ;;
      modify (set_current_recording_process None)
  | None => ret tt
  end.

Definition check_recording_status (e : iter_env) : M recorder unit :=
  cur <- gets current_recording_process ;;
  match cur with
  | Some p =>
      emit (EPoll p) ;;
      match ie_poll e with
      | Some _ =>
          log Warning MsgProcessDied ;;
          modify (set_current_recording_process None)
      | None => ret tt
      end
  | None => ret tt
  end.

(** The [try] suite of the loop in [check_stream]. *)
Definition loop_body (e : iter_env) : M recorder unit :=
  live <- get_live_info (ie_query e) (signal_at e InQuery) ;;
  let '(status, title, channel_name) := live in
  (if is_open status then
     last <- gets last_status ;;
     (if negb (is_open last) then handle_live_start e title channel_name
      else ret tt) ;;
     check_recording_status e ;;
     time_sleep (signal_at e InSleep) 10
   else
     last <- gets last_status ;;
     (if is_open last then handle_live_end e else ret tt) ;;
     interval <- gets check_interval ;;
     log Info (MsgOffline interval) ;;
     time_sleep (signal_at e InSleep) interval) ;;
  modify (set_last_status status) ;;
  modify (set_retry_count 0).

(** One pass: the [try] suite with its two [except] clauses. *)
Definition iteration (e : iter_env) : M recorder ctl :=
  try_except
    (loop_body e ;; ret Continue)
    (fun x =>
       match x with
       | KeyboardInterrupt => log Info MsgInterrupted ;; ret Break
       | _ =>
           if is_Exception x then
             modify (fun r => set_retry_count (retry_count r + 1) r) ;;
             n <- gets retry_count ;;
             log Error (MsgUnexpectedError n x) ;;
             if 5 <=? n then log Error MsgFiveErrors ;; ret Break
             else time_sleep (signal_at e InErrorSleep) 30 ;; ret Continue
           else raise x
       end).

(** What happens between two tests of the loop condition: the monitor
    thread, when its process has ended, and one pass of the loop. *)
Definition poll (e : iter_env) : M recorder ctl :=
  match ie_monitor e with
  | Some r => monitor_recording r
  | None => ret tt
  end ;;
  iteration e.

(** How a run of [check_stream] over a finite script of iterations ends:
    the script is used up and the loop is still polling, the loop has been
    left (condition false, or [break]), or an exception leaves the
    function. *)
Inductive loop_end : Type :=
| Polling
| Finished
| Propagated (x : exn).

(** [while not self.shutdown_flag: ...], one trace per iteration. *)
Fixpoint check_stream_loop (envs : list iter_env) (s : recorder)
  : loop_end * recorder * list trace :=
  match envs with
  | [] => (Polling, s, [])
  | e :: rest =>
      if shutdown_flag s then (Finished, s, [])
      else
        match poll e s with
        | (Ret Continue, s1, t1) =>
            let '(r, s2, ts) := check_stream_loop rest s1 in (r, s2, t1 :: ts)
        | (Ret Break, s1, t1) => (Finished, s1, [t1])
        | (Raise x, s1, t1) => (Propagated x, s1, [t1])
        end
  end.

Definition check_stream (envs : list iter_env) (s : recorder)
  : loop_end * recorder * list trace :=
  check_stream_loop envs (set_retry_count 0 s).

(** How the process stands after [start] and the end of [main]: still
    polling, ended with an exit status, or ended by an exception that is
    neither an [Exception] nor a [SystemExit]. *)
Inductive process_end : Type :=
| Running
| ExitCode (code : Z)
| Uncaught (x : exn).

(** [start].  [deps_ok] is what [check_dependencies] returns; the five
    opening log records are one [MsgBanner]. *)
Definition start (deps_ok : bool) (envs : list iter_env) (s : recorder)
  : process_end * recorder * list trace :=
  if negb deps_ok then
    (ExitCode 1, s, [[ELog Info MsgBanner; ELog Error MsgDependenciesFailed]])
  else
    let '(r, s1, ts) := check_stream envs s in
    match r with
    | Polling => (Running, s1, [ELog Info MsgBanner] :: ts)
    | Finished =>
        (ExitCode 0, s1, [ELog Info MsgBanner] :: ts ++ [[ELog Info MsgProgramEnded]])
    | Propagated x =>
        if is_Exception x then
          (ExitCode 1, s1,
           [ELog Info MsgBanner] :: ts
             ++ [[ELog Error MsgFatal; ELog Info MsgProgramEnded]])
        else
          (match x with SystemExit c => ExitCode c | _ => Uncaught x end, s1,
           [ELog Info MsgBanner] :: ts ++ [[ELog Info MsgProgramEnded]])
    end.
End Recorder.

(** ** The dashboard's two entry points ([hosting.py]) *)

Module Status.
(** The dictionary [get_status] returns, key by key. *)
Record t : Type := {
  live_status : json;
  live_title : json;
  channel_name : json;
  recording_status : info;
  recording_info : gmap string info;
  is_recording : bool;
  process_pid : option pid;
  last_status : json;
  retry_count : Z;
  shutdown_flag : bool
}.
End Status.

Definition get_status (q : query_outcome) : M recorder Status.t :=
  live <- get_live_info q None ;;
  let '(status, title, channel_name) := live in
  r <- gets (fun r => r) ;;
  ret {| Status.live_status := status;
         Status.live_title := title;
         Status.channel_name := channel_name;
         Status.recording_status :=
           match recording_info r !! "status" with
           | Some i => i
           | None => IStr "idle"
           end;
         Status.recording_info := recording_info r;
         Status.is_recording :=
           match current_recording_process r with Some _ => true | None => false end;
         Status.process_pid := current_recording_process r;
         Status.last_status := last_status r;
         Status.retry_count := retry_count r;
         Status.shutdown_flag := shutdown_flag r |}.

(** [stop_recording]; [clock] is the reading of [datetime.now()] in the
    [finally] suite. *)
Definition stop_recording (se : stop_env) (clock : Z) : M recorder unit :=
  cur <- gets current_recording_process ;;
  match cur with
  | Some p =>
      log Info MsgUserStop ;;
      try_finally
        (try_except
           (terminate p se ;;
            wait_timeout p 10 se ;;
            log Info MsgStopped)
           (fun e =>
              match e with
              | TimeoutExpired => kill p ;; log Info MsgForceKilled
              | _ => if is_Exception e then log Error MsgStopError else raise e
              end))
        (modify (set_current_recording_process None) ;;
         modify (set_info "status" (IStr "stopped")) ;;
         modify (set_info "end_time" (ITime clock)))
  | None => ret tt
  end.

(** ** The script [callisto.py] *)

Module Callisto.
(** The names [check_stream] assigns and does not declare [global] are
    local to it: [retry_count], [last_status] and, because of the two
    assignments [current_recording_process = None] in its body,
    [current_recording_process] too.  A local is unbound ([None] here)
    until its first assignment. *)
Record locals : Type := {
  l_retry_count : Z;
  l_last_status : json;
  l_current_recording_process : option (option pid)
}.

Definition set_l_retry_count (n : Z) (l : locals) : locals :=
  {| l_retry_count := n; l_last_status := l_last_status l;
     l_current_recording_process := l_current_recording_process l |}.

Definition set_l_last_status (v : json) (l : locals) : locals :=
  {| l_retry_count := l_retry_count l; l_last_status := v;
     l_current_recording_process := l_current_recording_process l |}.

Definition set_l_current_recording_process (p : option pid) (l : locals) : locals :=
  {| l_retry_count := l_retry_count l; l_last_status := l_last_status l;
     l_current_recording_process := Some p |}.

(** The module globals and the frame of [check_stream]. *)
Definition frame : Type := recorder * locals.

(** Code that touches the globals only. *)
Definition global {A} (m : M recorder A) : M frame A :=
  fun s => let '(r, g, t) := m (fst s) in (r, (g, snd s), t).

Definition local {A} (f : locals -> A) : M frame A := gets (fun s => f (snd s)).

Definition assign (f : locals -> locals) : M frame unit :=
  modify (fun s => (fst s, f (snd s))).

(** Reading the local [current_recording_process]. *)
Definition read_current_recording_process : M frame (option pid) :=
  cur <- local l_current_recording_process ;;
  match cur with
  | Some p => ret p
  | None => raise UnboundLocalError
  end.

(** The [try] suite of the loop. *)
Definition loop_body (e : iter_env) : M frame unit :=
  live <- global (get_live_info (ie_query e) (signal_at e InQuery)) ;;
  let '(status, title, channel_name) := live in
  (if is_open status then
     last <- local l_last_status ;;
     (if negb (is_open last) then
        log Info (MsgBroadcastStarted channel_name) ;;
        log Info (MsgBroadcastTitle title) ;;
        log Info MsgBroadcastUrl ;;
        max <- global (gets retry_count_max) ;;
        global (launch_attempts Console (Z.to_nat max) 0 e title channel_name)
      else ret tt) ;;
     cur <- read_current_recording_process ;;
     match cur with
     | Some p =>
         emit (EPoll p) ;;
         match ie_poll e with
         | Some _ =>
             log Warning MsgProcessDied ;;
             assign (set_l_current_recording_process None)
         | None => ret tt
         end
     | None => ret tt
     end ;;
     global (time_sleep (signal_at e InSleep) 10)
   else
     last <- local l_last_status ;;
     (if is_open last then
        log Info MsgBroadcastEnded ;;
        cur <- read_current_recording_process ;;
        match cur with
        | Some p =>
            log Info MsgWaitingForRecording ;;
            emit (EWait p None) ;;
            global (interrupt (signal_at e InWait)) ;;
            assign (set_l_current_recording_process None)
        | None => ret tt
        end
      else ret tt) ;;
     interval <- global (gets check_interval) ;;
     log Info (MsgOffline interval) ;;
     global (time_sleep (signal_at e InSleep) interval)) ;;
  assign (set_l_last_status status) ;;
  assign (set_l_retry_count 0).

Definition iteration (e : iter_env) : M frame ctl :=
  try_except
    (loop_body e ;; ret Continue)
    (fun x =>
       match x with
       | KeyboardInterrupt => log Info MsgInterrupted ;; ret Break
       | _ =>
           if is_Exception x then
             assign (fun l => set_l_retry_count (l_retry_count l + 1) l) ;;
             n <- local l_retry_count ;;
             log Error (MsgUnexpectedError n x) ;;
             if 5 <=? n then log Error MsgFiveErrors ;; ret Break
             else global (time_sleep (signal_at e InErrorSleep) 30) ;; ret Continue
           else raise x
       end).

Definition poll (e : iter_env) : M frame ctl :=
  match ie_monitor e with
  | Some r => global (monitor_recording Console r)
  | None => ret tt
  end ;;
  iteration e.

(** [while not shutdown_flag: ...], one trace per iteration. *)
Fixpoint check_stream_loop (envs : list iter_env) (s : frame)
  : loop_end * frame * list trace :=
  match envs with
  | [] => (Polling, s, [])
  | e :: rest =>
      if shutdown_flag (fst s) then (Finished, s, [])
      else
        match poll e s with
        | (Ret Continue, s1, t1) =>
            let '(r, s2, ts) := check_stream_loop rest s1 in (r, s2, t1 :: ts)
        | (Ret Break, s1, t1) => (Finished, s1, [t1])
        | (Raise x, s1, t1) => (Propagated x, s1, [t1])
        end
  end.

(** [check_stream]: the two initial assignments, then the loop. *)
Definition check_stream (envs : list iter_env) (g : recorder)
  : loop_end * frame * list trace :=
  check_stream_loop envs
    (g, {| l_retry_count := 0; l_last_status := JNull;
           l_current_recording_process := None |}).
End Callisto.

(** ** [check_dependencies] *)

Module Deps.
(** What [check_dependencies] reads: three settings that [os.getenv] leaves
    [None] when the variable is not set, and the recording directory. *)
Record settings : Type := {
  channel_id : option string;
  nid_aut : option string;
  nid_ses : option string;
  record_dir : string
}.

(** [subprocess.run(['streamlink', '--version'], ...)]: it raises (no such
    program, timeout), or the program ends with a return code and an
    output. *)
Inductive run_outcome : Type :=
| RunRaised (x : exn)
| Completed (returncode : Z) (stdout : string).

(** What the machine answers: the run of streamlink, and the exception of
    [Path.mkdir], if it raises one. *)
Record world : Type := {
  w_streamlink : run_outcome;
  w_mkdir : option exn
}.

Inductive message : Type :=
| MsgVersion
| MsgNotInstalled
| MsgRecordDir
| MsgMissingSettings
| MsgCheckError.

Inductive event : Type :=
| ERun (timeout : Z)
| EMkdir (dir : string)
| ELog (l : level) (m : message).

(** Truth value of a setting: [None] and the empty string are false. *)
Definition truthy (o : option string) : bool :=
  match o with
  | Some s => negb (String.eqb s "")
  | None => false
  end.

(** The [except Exception] clause, after the calls [t]. *)
Definition on_error (x : exn) (t : list event) : outcome bool * list event :=
  if is_Exception x then (Ret false, t ++ [ELog Error MsgCheckError])
  else (Raise x, t).

Definition check_dependencies (cfg : settings) (w : world)
  : outcome bool * list event :=
  match w_streamlink w with
  | RunRaised x => on_error x [ERun 10]
  | Completed returncode stdout =>
      if returncode =? 0 then
        match w_mkdir w with
        | Some x =>
            on_error x [ERun 10; ELog Info MsgVersion; EMkdir (record_dir cfg)]
        | None =>
            if truthy (channel_id cfg) && truthy (nid_aut cfg) && truthy (nid_ses cfg)
            then
              (Ret true,
               [ERun 10; ELog Info MsgVersion; EMkdir (record_dir cfg);
                ELog Info MsgRecordDir])
            else
              (Ret false,
               [ERun 10; ELog Info MsgVersion; EMkdir (record_dir cfg);
                ELog Info MsgRecordDir; ELog Error MsgMissingSettings])
        end
      else (Ret false, [ERun 10; ELog Error MsgNotInstalled])
  end.
End Deps.

(** ** The name of the output file *)

Module FileName.
(** A Python string: its code points. *)
Definition char : Type := N.
Definition text : Type := list char.

(** The character class of [special_chars_remover]: backslash, slash,
    colon, asterisk, question mark, double quote, less-than, greater-than
    and vertical bar. *)
Definition special (c : char) : bool :=
  existsb (N.eqb c) [92; 47; 58; 42; 63; 34; 60; 62; 124]%N.

(** [str.isspace] on one character. *)
Definition isspace (c : char) : bool :=
  ((9 <=? c) && (c <=? 13) || (28 <=? c) && (c <=? 32)
   || (c =? 133) || (c =? 160) || (c =? 5760)
   || (8192 <=? c) && (c <=? 8202)
   || (c =? 8232) || (c =? 8233) || (c =? 8239) || (c =? 8287) || (c =? 12288))%N.

Fixpoint lstrip (t : text) : text :=
  match t with
  | c :: rest => if isspace c then lstrip rest else t
  | [] => []
  end.

Definition rstrip (t : text) : text := rev (lstrip (rev t)).

(** [title.strip()]. *)
Definition strip (t : text) : text := rstrip (lstrip t).

(** [special_chars_remover.sub('', t)]. *)
Definition remove_special (t : text) : text :=
  List.filter (fun c => negb (special c)) t.

Definition cleaned_title (title : text) : text := remove_special (strip title).

(** [f"{current_time}_{channel_name}_{cleaned_title}"], for a channel name
    that is a string; 95 is the underscore. *)
Definition file_name (current_time channel_name title : text) : text :=
  current_time ++ [95%N] ++ channel_name ++ [95%N] ++ cleaned_title title.
End FileName.

(** ** The stop button of the dashboard ([hosting.py]) *)

Module Api.
Inductive text : Type :=
| NotInitialised
| RecordingStopped
| ErrorText (x : exn).

(** The JSON object a handler answers with. *)
Record reply : Type := {
  success : bool;
  message : text
}.

(** [api_stop]; the argument is the module global [recorder], [None] until
    a recorder has been made. *)
Definition api_stop (se : stop_env) (clock : Z) : M (option recorder) reply :=
  fun g =>
    match g with
    | None => (Ret {| success := false; message := NotInitialised |}, None, [])
    | Some r =>
        match stop_recording se clock r with
        | (Ret _, r', t) =>
            (Ret {| success := true; message := RecordingStopped |}, Some r', t)
        | (Raise x, r', t) =>
            if is_Exception x
            then (Ret {| success := false; message := ErrorText x |}, Some r', t)
            else (Raise x, Some r', t)
        end
    end.
End Api.

(** * Vocabulary of the properties *)

(** ** Reading traces *)

Definition is_log (ev : event) : bool :=
  match ev with ELog _ _ => true | _ => false end.

(** The calls that leave the process, without the log records. *)
Definition effects (t : trace) : trace := List.filter (fun ev => negb (is_log ev)) t.

Definition is_popen (ev : event) : bool :=
  match ev with EPopen _ => true | _ => false end.

(** The first log record of [handle_live_start] (of the launch block in the
    script): written exactly when a session launch is entered. *)
Definition is_live_start (ev : event) : bool :=
  match ev with ELog Info (MsgBroadcastStarted _) => true | _ => false end.

(** Number of [Popen] calls. *)
Definition popens (t : trace) : nat := length (List.filter is_popen t).

(** Number of session launches entered. *)
Definition live_starts (t : trace) : nat := length (List.filter is_live_start t).

(** What [get_live_info] returns for a query outcome. *)
Definition live_info (q : query_outcome) : json * json * json :=
  match result_of (get_live_info q None default_recorder) with
  | Ret x => x
  | Raise _ => none3
  end.

Definition query_trace (q : query_outcome) : trace :=
  trace_of (get_live_info q None default_recorder).

Definition status_of (e : iter_env) : json := fst (fst (live_info (ie_query e))).
Definition title_of (e : iter_env) : json := snd (fst (live_info (ie_query e))).

(** The poll reports the channel live. *)
Definition is_live (e : iter_env) : bool := is_open (status_of e).

(** The trace of [_signal_handler]. *)
Definition stop_trace (p : pid) (se : stop_env) : trace :=
  ETerminate p ::
  (if se_terminate_raises se then [ELog Error MsgTerminateError]
   else EWait p (Some 10) ::
        match se_wait se with
        | WaitReturns => []
        | WaitTimesOut => [EKill p]
        | WaitRaises => [ELog Error MsgTerminateError]
        end).

Definition handler_trace (se : stop_env) (cur : option pid) : trace :=
  ELog Info MsgShutdownSignal ::
  match cur with
  | Some p => ELog Info MsgStoppingRecording :: stop_trace p se
  | None => []
  end.

(** The two settings and the two variables of the loop. *)
Definition core_eq (s s' : recorder) : Prop :=
  check_interval s' = check_interval s /\
  retry_count_max s' = retry_count_max s /\
  last_status s' = last_status s /\
  retry_count s' = retry_count s.

(** An event of a session launch. *)
Definition is_launch (ev : event) : bool := is_popen ev || is_live_start ev.

(** ** Sample inputs *)

(** A well-formed [live-detail] response. *)
Definition content_of (status title channel_name : string) : json :=
  JObj [("content",
         JObj [("status", JStr status);
               ("liveTitle", JStr title);
               ("channel", JObj [("channelName", JStr channel_name)])])].

Definition live_query : query_outcome := Response 200 (Some (content_of "OPEN" "T1" "Ch1")).
Definition offline_query : query_outcome := Response 200 (Some (content_of "CLOSE" "T1" "Ch1")).

(** A launcher that always succeeds, and one that always fails. *)
Definition launch_ok (attempt : nat) : launch_env :=
  {| le_clock_name := 0; le_clock_start := 0; le_popen := Some (100 + attempt)%nat |}.
Definition launch_fails (attempt : nat) : launch_env :=
  {| le_clock_name := 0; le_clock_start := 0; le_popen := None |}.

(** An iteration in which nothing else happens: the monitor thread is
    silent, the process (if any) runs, no signal arrives. *)
Definition calm (q : query_outcome) (launch : nat -> launch_env) : iter_env :=
  {| ie_monitor := None; ie_query := q; ie_launch := launch;
     ie_poll := None; ie_signal := None |}.

(** A child that exits as soon as it is asked to. *)
Definition obedient : stop_env := {| se_terminate_raises := false; se_wait := WaitReturns |}.
(** A child that ignores [terminate]. *)
Definition stubborn : stop_env := {| se_terminate_raises := false; se_wait := WaitTimesOut |}.

(** ** Kinds of query outcome *)

(** A decoded body that is not shaped like a [live-detail] answer: reading
    it raises [AttributeError]. *)
Definition malformed (data : json) : bool :=
  match data with
  | JObj fields =>
      match lookup_field "content" fields with
      | None | Some JNull => false
      | Some (JObj c) =>
          match lookup_field "channel" c with
          | None | Some (JObj _) => false
          | Some _ => true
          end
      | Some _ => true
      end
  | _ => true
  end.

(** The query failed: network error, error status, or a body that cannot
    be read. *)
Definition transient_failure (q : query_outcome) : bool :=
  match q with
  | RequestFailed => true
  | Response code body =>
      ((400 <=? code) && (code <? 600))
      || match body with
         | None => true
         | Some data => malformed data
         end
  end.

(** The query succeeded and the answer has no [content]. *)
Definition no_content (q : query_outcome) : bool :=
  match q with
  | Response code (Some (JObj fields)) =>
      negb ((400 <=? code) && (code <? 600))
      && match lookup_field "content" fields with
         | None | Some JNull => true
         | Some _ => false
         end
  | _ => false
  end.

(** ** What the properties compare with *)

(** What stopping a process amounts to: [terminate], a wait of at most ten
    seconds, and [kill] when the wait times out. *)
Definition stop_effects (p : pid) (se : stop_env) : trace :=
  ETerminate p ::
  (if se_terminate_raises se then []
   else EWait p (Some 10) ::
        match se_wait se with
        | WaitTimesOut => [EKill p]
        | _ => []
        end).

(** The recorder after [stop_recording], and its trace. *)
Definition stopped (clock : Z) (s : recorder) : recorder :=
  set_info "end_time" (ITime clock)
    (set_info "status" (IStr "stopped") (set_current_recording_process None s)).

Definition stop_recording_trace (p : pid) (se : stop_env) : trace :=
  ELog Info MsgUserStop :: ETerminate p ::
  (if se_terminate_raises se then [ELog Error MsgStopError]
   else EWait p (Some 10) ::
        match se_wait se with
        | WaitReturns => [ELog Info MsgStopped]
        | WaitTimesOut => [EKill p; ELog Info MsgForceKilled]
        | WaitRaises => [ELog Error MsgStopError]
        end).

(** The dictionary [get_status] builds from a query result and the
    recorder. *)
Definition status_dict (live : json * json * json) (r : recorder) : Status.t :=
  {| Status.live_status := fst (fst live);
     Status.live_title := snd (fst live);
     Status.channel_name := snd live;
     Status.recording_status :=
       match recording_info r !! "status" with
       | Some i => i
       | None => IStr "idle"
       end;
     Status.recording_info := recording_info r;
     Status.is_recording :=
       match current_recording_process r with Some _ => true | None => false end;
     Status.process_pid := current_recording_process r;
     Status.last_status := last_status r;
     Status.retry_count := retry_count r;
     Status.shutdown_flag := shutdown_flag r |}.

Definition any_event (ev : event) : bool := true.
Definition not_launch (ev : event) : bool := negb (is_launch ev).

(** Scenario A: offline, offline, live, live, offline, with a launcher that
    always succeeds. *)
Definition scenario_a : list iter_env :=
  [calm offline_query launch_ok; calm offline_query launch_ok;
   calm live_query launch_ok; calm live_query launch_ok;
   calm offline_query launch_ok].

(** Scenario B: live, three failed queries, live. *)
Definition scenario_b : list iter_env :=
  [calm live_query launch_ok;
   calm RequestFailed launch_ok; calm (Response 503 None) launch_ok;
   calm (Response 200 None) launch_ok;
   calm live_query launch_ok].

(** The calls of a launch whose [n] attempts all fail: a [Popen] that
    raises, and a sleep of 5 seconds before each further attempt. *)
Fixpoint exhausted (n : nat) : trace :=
  match n with
  | O => []
  | S n' =>
      EPopen None ::
      match n' with
      | O => []
      | S _ => ESleep 5 :: exhausted n'
      end
  end.

(** A poll during whose status query a signal arrives. *)
Definition interrupted_query : iter_env :=
  {| ie_monitor := None; ie_query := live_query; ie_launch := launch_ok;
     ie_poll := None; ie_signal := Some (InQuery, obedient) |}.

(** A live poll on an edge, with a signal during the 10-second sleep that
    ends the pass. *)
Definition interrupted_sleep : iter_env :=
  {| ie_monitor := None; ie_query := live_query; ie_launch := launch_ok;
     ie_poll := None; ie_signal := Some (InSleep, obedient) |}.

(** ** More to compare with *)

(** A pass that enters no launch. *)
Definition no_launch (t : trace) : Prop := popens t = 0%nat /\ live_starts t = 0%nat.

(** A recording of process 7 during a live broadcast. *)
Definition recording : recorder :=
  set_last_status (JStr "OPEN")
    (set_current_recording_process (Some 7%nat) default_recorder).

(** A live poll that finds the process dead. *)
Definition dead_process_poll : iter_env :=
  {| ie_monitor := None; ie_query := live_query; ie_launch := launch_ok;
     ie_poll := Some 1; ie_signal := None |}.

(** The calls of [k] launch attempts that fail and are retried: a [Popen]
    that raises and a sleep of 5 seconds, [k] times. *)
Fixpoint failed_attempts (k : nat) : trace :=
  match k with
  | O => []
  | S k' => EPopen None :: ESleep 5 :: failed_attempts k'
  end.

(** A launcher whose first two attempts fail and whose third starts
    process 42. *)
Definition launch_third (attempt : nat) : launch_env :=
  {| le_clock_name := 0; le_clock_start := 0;
     le_popen := if Nat.eqb attempt 2 then Some 42%nat else None |}.

(** The dashboard's record agrees with the process handle: while a process
    is current, the session record says ['recording']. *)
Definition in_step (s : recorder) : Prop :=
  current_recording_process s <> None ->
  recording_info s !! "status" = Some (IStr "recording").


(** A [Popen] that returned a process. *)
Definition is_started (ev : event) : bool :=
  match ev with EPopen (Some _) => true | _ => false end.

(** Number of processes started. *)
Definition started (t : trace) : nat := length (List.filter is_started t).


Definition is_query (ev : event) : bool :=
  match ev with EHttpGet _ => true | _ => false end.

(** Number of status queries. *)
Definition queries (t : trace) : nat := length (List.filter is_query t).

(** The sleep that ends a completed pass: 10 seconds after a live poll,
    [check_interval] after any other, 30 seconds when [check_interval] is
    not a length that [time.sleep] accepts. *)
Definition pause (e : iter_env) (s : recorder) : Z :=
  if is_live e then 10
  else if (0 <=? check_interval s) && (check_interval s <=? max_sleep)
       then check_interval s
       else 30.

(** The last call of a trace is a sleep of [d] seconds. *)
Definition ends_with_sleep (d : Z) (t : trace) : Prop :=
  exists before, effects t = before ++ [ESleep d].

(** ** The frame of [check_stream] in [callisto.py] *)

(** The local [current_recording_process] is unbound, the local
    [last_status] is not ['OPEN'] and the local counter is not negative. *)
Definition unbound (f : Callisto.frame) : Prop :=
  Callisto.l_current_recording_process (snd f) = None /\
  is_open (Callisto.l_last_status (snd f)) = false /\
  0 <= Callisto.l_retry_count (snd f).

(** A look at the recording process: [poll()], or a [wait()] without a
    timeout. *)
Definition is_check (ev : event) : bool :=
  match ev with
  | EPoll _ | EWait _ None => true
  | _ => false
  end.

Definition checks (t : trace) : nat := length (List.filter is_check t).

(** ** Outcomes of a call *)

(** [yields m s R X]: run from [s], [m] returns a value, a state and a trace
    that satisfy [R], or raises an exception with a state and a trace that
    satisfy [X]. *)
Definition yields {St A} (m : M St A) (s : St)
    (R : A -> St -> trace -> Prop) (X : exn -> St -> trace -> Prop) : Prop :=
  match m s with
  | (Ret a, s', t) => R a s' t
  | (Raise x, s', t) => X x s' t
  end.

(** A call that keeps the session record in step with the process. *)
Definition keeps_in_step {A} (m : M recorder A) : Prop :=
  forall s, in_step s ->
            yields m s (fun _ s' _ => in_step s') (fun _ s' _ => in_step s').

(** ** The dependency check and the file name *)

(** The call that makes the recording directory. *)
Definition is_mkdir (ev : Deps.event) : bool :=
  match ev with Deps.EMkdir _ => true | _ => false end.

(** The text of an ASCII string. *)
Definition text_of (s : string) : FileName.text :=
  List.map (fun a => N.of_nat (Ascii.nat_of_ascii a)) (list_ascii_of_string s).

(** ** Ending a process *)

Definition is_stop (ev : event) : bool :=
  match ev with
  | ETerminate _ | EKill _ => true
  | _ => false
  end.

(** Number of [terminate] and [kill] calls. *)
Definition stops (t : trace) : nat := length (List.filter is_stop t).

(** The end of a broadcast, as the loop finds it while process 7 records. *)
Definition broadcast_over : iter_env := calm offline_query launch_ok.

(** ** Two launches in a row *)

(** A live poll whose first launch attempt starts process [p], while
    nothing else happens: no signal, and the monitor thread has not seen a
    process end. *)
Definition starts_process (e : iter_env) (p : pid) : Prop :=
  ie_signal e = None /\ ie_monitor e = None /\ is_live e = true /\
  (exists title, title_of e = JStr title) /\
  le_popen (ie_launch e 0) = Some p.

(** A second launcher that always succeeds, with process numbers of its
    own. *)
Definition launch_again (attempt : nat) : launch_env :=
  {| le_clock_name := 10; le_clock_start := 10; le_popen := Some (200 + attempt)%nat |}.

(** * Properties *)

(** ** The signal handler and the status query, call by call *)

Lemma signal_handler_eq (se : stop_env) (s : recorder) :
  _signal_handler se s =
  (Raise (SystemExit 0), set_shutdown_flag true s,
   handler_trace se (current_recording_process s)).
Proof.
  unfold _signal_handler, handler_trace, stop_trace, bind, log, emit, modify, gets.
  destruct s as [ci rm cur fl ls rc ri]; simpl.
  destruct cur as [p|]; simpl; [|reflexivity].
  unfold try_except, terminate, wait_timeout, kill, bind, emit, raise, ret, log; simpl.
  destruct se as [tr w]; simpl.
  destruct tr; simpl; [reflexivity|].
  destruct w; reflexivity.
Qed.

Lemma interrupt_none (s : recorder) : interrupt None s = (Ret tt, s, []).
Proof. reflexivity. Qed.

Lemma interrupt_some (se : stop_env) (s : recorder) :
  interrupt (Some se) s =
  (Raise (SystemExit 0), set_shutdown_flag true s,
   handler_trace se (current_recording_process s)).
Proof. apply signal_handler_eq. Qed.

Lemma time_sleep_accepts (o : option stop_env) (n : Z) (s : recorder) :
  sleepable n -> time_sleep o n s = (emit (ESleep n) ;; interrupt o) s.
Proof.
  intros Hn. unfold time_sleep.
  destruct (n <? - max_sleep) eqn:E1; [apply Z.ltb_lt in E1; lia|].
  destruct (max_sleep <? n) eqn:E2; [apply Z.ltb_lt in E2; lia|].
  destruct (n <? 0) eqn:E3; [apply Z.ltb_lt in E3; lia|]. reflexivity.
Qed.

Lemma time_sleep_none (n : Z) (s : recorder) :
  sleepable n -> time_sleep None n s = (Ret tt, s, [ESleep n]).
Proof. intros Hn. now rewrite time_sleep_accepts. Qed.

(** A length that is refused: the exception is an [Exception], and nothing
    is done. *)
Lemma time_sleep_refused (o : option stop_env) (n : Z) (s : recorder) :
  refused n ->
  exists x, time_sleep o n s = (Raise x, s, []) /\ (x = ValueError \/ x = OverflowError).
Proof.
  intros Hn. unfold time_sleep.
  destruct (n <? - max_sleep) eqn:E1; [exists OverflowError; split; [reflexivity|now right]|].
  destruct (max_sleep <? n) eqn:E2; [exists OverflowError; split; [reflexivity|now right]|].
  apply Z.ltb_ge in E1, E2.
  destruct (n <? 0) eqn:E3; [|apply Z.ltb_ge in E3; lia].
  exists ValueError. split; [reflexivity|now left].
Qed.

Lemma time_sleep_some (se : stop_env) (n : Z) (s : recorder) :
  sleepable n ->
  time_sleep (Some se) n s =
  (Raise (SystemExit 0), set_shutdown_flag true s,
   ESleep n :: handler_trace se (current_recording_process s)).
Proof.
  intros Hn. rewrite time_sleep_accepts by exact Hn.
  unfold bind, emit. rewrite interrupt_some. reflexivity.
Qed.

(** Without a signal, [get_live_info] returns: it reads and writes no
    attribute, and what it returns depends on the query outcome alone. *)
Lemma get_live_info_none (q : query_outcome) (s : recorder) :
  get_live_info q None s = (Ret (live_info q), s, query_trace q).
Proof.
  unfold live_info, query_trace, get_live_info, try_except, bind, emit, log,
    interrupt, ret, raise, dict_get, result_of, trace_of.
  repeat (simpl;
          match goal with
          | |- context [match ?x with _ => _ end] =>
              match x with
              | context [s] => fail 1
              | context [default_recorder] => fail 1
              | _ => destruct x eqn:?
              end
          end); simpl; try reflexivity.
Qed.

Lemma get_live_info_some (q : query_outcome) (se : stop_env) (s : recorder) :
  get_live_info q (Some se) s =
  (Raise (SystemExit 0), set_shutdown_flag true s,
   EHttpGet 10 :: handler_trace se (current_recording_process s)).
Proof.
  unfold get_live_info, try_except, bind, emit. rewrite interrupt_some.
  simpl. unfold raise. now rewrite app_nil_r.
Qed.

(** ** What the calls of the loop leave alone *)

Lemma core_eq_refl (s : recorder) : core_eq s s.
Proof. repeat split. Qed.

Lemma core_eq_trans (a b c : recorder) : core_eq a b -> core_eq b c -> core_eq a c.
Proof.
  intros (H1 & H2 & H3 & H4) (G1 & G2 & G3 & G4).
  repeat split; congruence.
Qed.

Section Conduct.
(** [ok] selects the events a trace may hold; it has to accept at least
    everything that is not part of a launch.  [sig] says whether a
    termination signal may arrive. *)
Variable ok : event -> bool.
Hypothesis ok_other : forall ev, is_launch ev = false -> ok ev = true.
Variable sig : bool.

(** The conduct every call of the loop keeps to: the trace is [ok], the
    core is left as it was, and the call returns with [shutdown_flag]
    untouched (and then [R] holds), or leaves by the signal handler's
    [SystemExit(0)] with the flag set, or raises one of [X] with the flag
    untouched. *)
Definition conduct {A} (X : exn -> Prop) (R : Prop) (m : M recorder A)
    (s : recorder) : Prop :=
  forallb ok (trace_of (m s)) = true /\
  core_eq s (state_of (m s)) /\
  match result_of (m s) with
  | Ret _ => R /\ shutdown_flag (state_of (m s)) = shutdown_flag s
  | Raise x =>
      (sig = true /\ x = SystemExit 0 /\ shutdown_flag (state_of (m s)) = true) \/
      (X x /\ shutdown_flag (state_of (m s)) = shutdown_flag s)
  end.

Lemma conduct_ret {A} X (R : Prop) (a : A) s : R -> conduct X R (ret a) s.
Proof. intros HR. repeat split. exact HR. Qed.

Lemma conduct_gets {A} X (f : recorder -> A) s : conduct X True (gets f) s.
Proof. repeat split. Qed.

Lemma conduct_emit X ev s : is_launch ev = false -> conduct X True (emit ev) s.
Proof.
  intros H. unfold conduct; simpl. rewrite (ok_other _ H). repeat split.
Qed.

Lemma conduct_emit_all X ev s : (forall ev', ok ev' = true) -> conduct X True (emit ev) s.
Proof. intros H. unfold conduct; simpl. rewrite H. repeat split. Qed.

Lemma conduct_log X l m s :
  is_live_start (ELog l m) = false -> conduct X True (log l m) s.
Proof. intros H. apply conduct_emit. unfold is_launch. now rewrite H. Qed.

Lemma conduct_raise {A} (X : exn -> Prop) R x s :
  X x -> conduct X R (raise (A := A) x) s.
Proof. intros H. unfold conduct; simpl. repeat split. right. split; auto. Qed.

Lemma conduct_modify X (f : recorder -> recorder) s :
  core_eq s (f s) -> shutdown_flag (f s) = shutdown_flag s ->
  conduct X True (modify f) s.
Proof.
  intros Hc Hf. unfold conduct; simpl. repeat split; try apply Hc. exact Hf.
Qed.

Lemma conduct_bind {A B} X R' R (m : M recorder A) (k : A -> M recorder B) s :
  conduct X R' m s ->
  (forall a s1 t1,
      m s = (Ret a, s1, t1) -> core_eq s s1 ->
      shutdown_flag s1 = shutdown_flag s -> R' ->
      conduct X R (k a) s1) ->
  conduct X R (bind m k) s.
Proof.
  unfold conduct, bind, result_of, state_of, trace_of.
  intros (Ht & Hc & Hr) Hk.
  destruct (m s) as [[r s1] t1]; simpl in *.
  destruct r as [a|x]; simpl.
  - destruct Hr as [HR' Hfl].
    specialize (Hk a s1 t1 eq_refl Hc Hfl HR').
    destruct (k a s1) as [[r2 s2] t2]; simpl in *.
    destruct Hk as (Ht2 & Hc2 & Hr2).
    split; [rewrite forallb_app, Ht, Ht2; reflexivity|].
    split; [eapply core_eq_trans; eassumption|].
    destruct r2; [destruct Hr2; split; congruence|].
    destruct Hr2 as [Hr2|[Hx Hf]]; [left; assumption|right; split; congruence].
  - split; [exact Ht|]. split; [exact Hc|]. exact Hr.
Qed.

(** A [try] whose handlers let [SystemExit] through. *)
Lemma conduct_try_except {A} X X' R (m : M recorder A) (h : exn -> M recorder A) s :
  conduct X' R m s ->
  h (SystemExit 0) = raise (SystemExit 0) ->
  (forall x s1, X' x -> conduct X R (h x) s1) ->
  conduct X R (try_except m h) s.
Proof.
  unfold conduct, try_except, result_of, state_of, trace_of.
  intros (Ht & Hc & Hr) Hexit Hh.
  destruct (m s) as [[r s1] t1]; simpl in *.
  destruct r as [a|x]; simpl.
  - split; [exact Ht|]. split; [exact Hc|]. exact Hr.
  - destruct Hr as [(Hs & -> & Hf)|[Hx Hf]].
    + rewrite Hexit. simpl. rewrite app_nil_r.
      split; [exact Ht|]. split; [exact Hc|]. left. auto.
    + specialize (Hh x s1 Hx).
      destruct (h x s1) as [[r2 s2] t2]; simpl in *.
      destruct Hh as (Ht2 & Hc2 & Hr2).
      split; [rewrite forallb_app, Ht, Ht2; reflexivity|].
      split; [eapply core_eq_trans; eassumption|].
      destruct r2; [destruct Hr2; split; congruence|].
      destruct Hr2 as [Hr2|[Hx2 Hf2]]; [left; assumption|right; split; congruence].
Qed.

(** A [finally] suite that only assigns. *)
Lemma conduct_try_finally {A} X R (m : M recorder A) (f : recorder -> recorder) s :
  conduct X R m s ->
  (forall s1, core_eq s1 (f s1) /\ shutdown_flag (f s1) = shutdown_flag s1) ->
  conduct X R (try_finally m (modify f)) s.
Proof.
  unfold conduct, try_finally, modify, result_of, state_of, trace_of.
  intros (Ht & Hc & Hr) Hf.
  destruct (m s) as [[r s1] t1]; simpl in *.
  destruct (Hf s1) as [Hc1 Hf1].
  rewrite app_nil_r.
  split; [assumption|].
  split; [eapply core_eq_trans; eassumption|].
  destruct r; [destruct Hr; split; congruence|].
  destruct Hr as [(Hs & Hx & Hfl)|[Hx Hfl]];
    [left; repeat split; congruence|right; split; congruence].
Qed.

Lemma conduct_weaken {A} (X X' : exn -> Prop) (R R' : Prop) (m : M recorder A) s :
  (forall x, X x -> X' x) -> (R -> R') -> conduct X R m s -> conduct X' R' m s.
Proof.
  unfold conduct. intros HX HR (Ht & Hc & Hr).
  split; [exact Ht|]. split; [exact Hc|].
  destruct (result_of (m s)); [destruct Hr; auto|].
  destruct Hr as [Hr|[Hx Hf]]; [left; assumption|right; auto].
Qed.

Lemma handler_trace_ok se cur : forallb ok (handler_trace se cur) = true.
Proof.
  unfold handler_trace, stop_trace; simpl.
  rewrite ok_other by reflexivity.
  destruct cur; simpl; [|reflexivity].
  rewrite !ok_other by reflexivity. simpl.
  destruct (se_terminate_raises se); simpl;
    [rewrite ok_other by reflexivity; reflexivity|].
  rewrite ok_other by reflexivity. simpl.
  destruct (se_wait se); simpl; rewrite ?ok_other by reflexivity; reflexivity.
Qed.

Lemma conduct_interrupt X (o : option stop_env) s :
  (sig = false -> o = None) -> conduct X True (interrupt o) s.
Proof.
  intros Hsig. destruct o as [se|].
  - unfold conduct. rewrite interrupt_some.
    unfold result_of, state_of, trace_of; simpl.
    split; [apply handler_trace_ok|].
    split; [repeat split|]. left. repeat split.
    destruct sig; [reflexivity|]. specialize (Hsig eq_refl). discriminate.
  - now apply conduct_ret.
Qed.

Lemma conduct_time_sleep (X : exn -> Prop) (o : option stop_env) n s :
  (sig = false -> o = None) -> (refused n -> X ValueError /\ X OverflowError) ->
  conduct X (sleepable n) (time_sleep o n) s.
Proof.
  intros Hsig HX. unfold time_sleep.
  destruct ((n <? - max_sleep) || (max_sleep <? n)) eqn:E0.
  { apply conduct_raise. apply HX.
    apply orb_true_iff in E0 as [E|E]; apply Z.ltb_lt in E; lia. }
  apply orb_false_iff in E0 as [E1 E2]. apply Z.ltb_ge in E1, E2.
  destruct (n <? 0) eqn:E.
  - apply conduct_raise. apply HX. apply Z.ltb_lt in E. lia.
  - apply Z.ltb_ge in E.
    apply (conduct_bind X True); [now apply conduct_emit|].
    intros. apply (conduct_weaken X X True); [auto|intros _; lia|].
    now apply conduct_interrupt.
Qed.

Lemma conduct_set_current X p s :
  conduct X True (modify (set_current_recording_process p)) s.
Proof. apply conduct_modify; [repeat split|reflexivity]. Qed.

Lemma conduct_set_info X k i s : conduct X True (modify (set_info k i)) s.
Proof. apply conduct_modify; [repeat split|reflexivity]. Qed.

Lemma conduct_set_recording_info X i s :
  conduct X True (modify (set_recording_info i)) s.
Proof. apply conduct_modify; [repeat split|reflexivity]. Qed.

Lemma conduct_web_only X v (m : M recorder unit) s :
  conduct X True m s -> conduct X True (web_only v m) s.
Proof. intros H. destruct v; [now apply conduct_ret|exact H]. Qed.

Variable v : variant.

Lemma forallb_ok_all t : (forall ev, ok ev = true) -> forallb ok t = true.
Proof. intros H. induction t; simpl; [reflexivity|]. now rewrite H, IHt. Qed.

Lemma signal_at_quiet e b :
  (sig = false -> ie_signal e = None) -> sig = false -> signal_at e b = None.
Proof. intros H Hs. unfold signal_at. now rewrite (H Hs). Qed.

Lemma conduct_sleep X o n s :
  (sig = false -> o = None) -> sleepable n -> conduct X True (time_sleep o n) s.
Proof.
  intros Hsig Hn. apply (conduct_weaken X X (sleepable n)); [auto|auto|].
  apply conduct_time_sleep; [assumption|lia].
Qed.

Lemma query_trace_ok q : forallb ok (query_trace q) = true.
Proof.
  unfold query_trace, get_live_info, try_except, bind, emit, log,
    interrupt, ret, raise, dict_get, result_of, trace_of.
  repeat (simpl;
          match goal with
          | |- context [match ?x with _ => _ end] =>
              match x with
              | context [default_recorder] => fail 1
              | _ => destruct x eqn:?
              end
          end); simpl; rewrite ?ok_other by reflexivity; reflexivity.
Qed.

Lemma conduct_get_live_info X q o s :
  (sig = false -> o = None) -> conduct X True (get_live_info q o) s.
Proof.
  intros Hsig. unfold conduct. destruct o as [se|].
  - rewrite get_live_info_some. unfold result_of, state_of, trace_of.
    cbn [fst snd]. split.
    { cbn [forallb]. rewrite ok_other by reflexivity. apply handler_trace_ok. }
    split; [repeat split|]. left. repeat split.
    destruct sig; [reflexivity|]. specialize (Hsig eq_refl). discriminate.
  - rewrite get_live_info_none. unfold result_of, state_of, trace_of; simpl.
    split; [apply query_trace_ok|]. repeat split.
Qed.

(** [run_streamlink] always returns. *)
Lemma conduct_run_streamlink X le title name s :
  (forall ev, ok ev = true) ->
  conduct X True (run_streamlink v le title name) s.
Proof.
  intros Hall. unfold conduct. split; [now apply forallb_ok_all|].
  unfold run_streamlink, try_except, bind, web_only, modify, emit, log, raise, ret,
    result_of, state_of.
  destruct title; simpl; try (repeat split).
  all: destruct v; simpl; destruct (le_popen le); simpl; repeat split.
Qed.

Lemma conduct_launch_attempts X n attempt e title name s :
  (forall ev, ok ev = true) ->
  (sig = false -> ie_signal e = None) ->
  conduct X True (launch_attempts v n attempt e title name) s.
Proof.
  intros Hall Hsig. revert attempt s.
  induction n as [|n IH]; intros attempt s; simpl.
  - now apply conduct_ret.
  - apply (conduct_bind X True); [now apply conduct_run_streamlink|].
    intros [p|] s1 t1 _ _ _ _.
    + now apply conduct_emit.
    + apply (conduct_bind X True); [apply conduct_gets|].
      intros max s2 t2 _ _ _ _.
      apply (conduct_bind X True); [now apply conduct_log|].
      intros _ s3 t3 _ _ _ _.
      apply (conduct_bind X True).
      * destruct (Z.of_nat attempt <? max - 1).
        -- apply conduct_sleep; [|lia].
           intros Hs. now apply signal_at_quiet.
        -- now apply conduct_ret.
      * intros _ s4 t4 _ _ _ _. apply IH.
Qed.

Lemma conduct_handle_live_start X e title name s :
  (forall ev, ok ev = true) ->
  (sig = false -> ie_signal e = None) ->
  conduct X True (handle_live_start v e title name) s.
Proof.
  intros Hall Hsig. unfold handle_live_start.
  apply (conduct_bind X True); [now apply conduct_emit_all|].
  intros _ s1 t1 _ _ _ _.
  apply (conduct_bind X True); [now apply conduct_log|].
  intros _ s2 t2 _ _ _ _.
  apply (conduct_bind X True); [now apply conduct_log|].
  intros _ s3 t3 _ _ _ _.
  apply (conduct_bind X True); [apply conduct_gets|].
  intros max s4 t4 _ _ _ _.
  now apply conduct_launch_attempts.
Qed.

Lemma conduct_handle_live_end X e s :
  (sig = false -> ie_signal e = None) ->
  conduct X True (handle_live_end e) s.
Proof.
  intros Hsig. unfold handle_live_end.
  apply (conduct_bind X True); [now apply conduct_log|].
  intros _ s1 t1 _ _ _ _.
  apply (conduct_bind X True); [apply conduct_gets|].
  intros [p|] s2 t2 _ _ _ _; [|now apply conduct_ret].
  apply (conduct_bind X True); [now apply conduct_log|].
  intros _ s3 t3 _ _ _ _.
  apply (conduct_bind X True); [now apply conduct_emit|].
  intros _ s4 t4 _ _ _ _.
  apply (conduct_bind X True).
  - apply conduct_interrupt. intros Hs. now apply signal_at_quiet.
  - intros _ s5 t5 _ _ _ _. apply conduct_set_current.
Qed.

Lemma conduct_check_recording_status X e s :
  conduct X True (check_recording_status e) s.
Proof.
  unfold check_recording_status.
  apply (conduct_bind X True); [apply conduct_gets|].
  intros [p|] s1 t1 _ _ _ _; [|now apply conduct_ret].
  apply (conduct_bind X True); [now apply conduct_emit|].
  intros _ s2 t2 _ _ _ _.
  destruct (ie_poll e); [|now apply conduct_ret].
  apply (conduct_bind X True); [now apply conduct_log|].
  intros _ s3 t3 _ _ _ _. apply conduct_set_current.
Qed.

(** The monitor thread always comes to its end. *)
Lemma conduct_monitor_recording X r s :
  conduct X True (monitor_recording v r) s.
Proof.
  unfold monitor_recording.
  apply conduct_try_finally; [|intros s1; split; [repeat split|reflexivity]].
  apply (conduct_try_except X (fun x => x = OSError)).
  - destruct (mr_outcome r) as [returncode stderr|text].
    + destruct (returncode =? 0).
      * apply (conduct_bind _ True); [now apply conduct_log|].
        intros _ s1 t1 _ _ _ _. apply conduct_web_only.
        apply (conduct_bind _ True); [apply conduct_set_info|].
        intros _ s2 t2 _ _ _ _. apply conduct_set_info.
      * apply (conduct_bind _ True); [now apply conduct_log|].
        intros _ s1 t1 _ _ _ _.
        apply (conduct_bind _ True).
        -- apply conduct_web_only.
           apply (conduct_bind _ True); [apply conduct_set_info|].
           intros _ s2 t2 _ _ _ _. apply conduct_set_info.
        -- intros _ s2 t2 _ _ _ _.
           destruct (String.eqb stderr ""); [now apply conduct_ret|].
           now apply conduct_log.
    + now apply conduct_raise.
  - reflexivity.
  - intros x s1 ->. simpl.
    apply (conduct_bind _ True); [now apply conduct_log|].
    intros _ s2 t2 _ _ _ _. apply conduct_web_only.
    apply (conduct_bind _ True); [apply conduct_set_info|].
    intros _ s3 t3 _ _ _ _. apply conduct_set_info.
Qed.

(** The poll finds the channel live and the last recorded status was not:
    the only situation in which the loop enters a launch. *)
Definition edge (e : iter_env) (s : recorder) : bool :=
  is_live e && negb (is_open (last_status s)).

Lemma loop_body_spec e s :
  (sig = false -> ie_signal e = None) ->
  (edge e s = true -> forall ev, ok ev = true) ->
  let r := loop_body v e s in
  forallb ok (trace_of r) = true /\
  check_interval (state_of r) = check_interval s /\
  retry_count_max (state_of r) = retry_count_max s /\
  match result_of r with
  | Ret _ =>
      last_status (state_of r) = status_of e /\
      retry_count (state_of r) = 0 /\
      shutdown_flag (state_of r) = shutdown_flag s /\
      (is_live e = true \/ sleepable (check_interval s))
  | Raise x =>
      last_status (state_of r) = last_status s /\
      retry_count (state_of r) = retry_count s /\
      ((sig = true /\ x = SystemExit 0 /\ shutdown_flag (state_of r) = true) \/
       ((x = ValueError \/ x = OverflowError) /\ is_live e = false /\
        refused (check_interval s) /\
        shutdown_flag (state_of r) = shutdown_flag s))
  end.
Proof.
  intros Hsig Hedge r. subst r.
  pose proof (conduct_get_live_info (fun _ => False) (ie_query e)
                (signal_at e InQuery) s) as Hq.
  destruct (loop_body v e s) as [[r s'] t] eqn:E.
  unfold result_of, state_of, trace_of in *. cbn [fst snd].
  unfold loop_body in E. unfold bind at 1 in E.
  destruct (signal_at e InQuery) as [se|] eqn:Es.
  - destruct Hq as (Ht & Hc & Hr); [intros Hs; rewrite <- Es; now apply signal_at_quiet|].
    rewrite get_live_info_some in *. cbn [fst snd] in *.
    inversion E; subst r s' t; clear E.
    split; [exact Ht|]. split; [reflexivity|]. split; [reflexivity|].
    split; [reflexivity|]. split; [reflexivity|].
    destruct Hr as [Hr|[[] _]]. left. exact Hr.
  - destruct Hq as (Ht & _); [auto|].
    rewrite get_live_info_none in *. cbn [fst snd] in *.
    unfold edge, is_live, status_of in *.
    destruct (live_info (ie_query e)) as [[status title] name] eqn:El.
    cbn [fst snd] in *.
    match type of E with
    | context [bind ?b _ s] => set (blk := b) in E
    end.
    assert (Hb : conduct (fun x => (x = ValueError \/ x = OverflowError)
                                   /\ is_open status = false
                                   /\ refused (check_interval s))
                   (is_open status = true \/ sleepable (check_interval s)) blk s).
    { subst blk. destruct (is_open status) eqn:Eo.
      - apply (conduct_bind _ True); [apply conduct_gets|].
        intros last s1 t1 E1 _ _ _. inversion E1; subst last s1 t1; clear E1.
        apply (conduct_bind _ True).
        { destruct (is_open (last_status s)) eqn:El'; simpl.
          - now apply conduct_ret.
          - apply conduct_handle_live_start; [|assumption].
            apply Hedge. reflexivity. }
        intros _ s2 t2 _ _ _ _.
        apply (conduct_bind _ True); [apply conduct_check_recording_status|].
        intros _ s3 t3 _ _ _ _.
        apply (conduct_weaken (fun _ => False) _ True); [intros x []|auto|].
        apply conduct_sleep; [|lia]. intros Hs. now apply signal_at_quiet.
      - apply (conduct_bind _ True); [apply conduct_gets|].
        intros last s1 t1 E1 _ _ _. inversion E1; subst last s1 t1; clear E1.
        apply (conduct_bind _ True).
        { destruct (is_open (last_status s)).
          - apply conduct_handle_live_end; assumption.
          - now apply conduct_ret. }
        intros _ s2 t2 _ Hc2 _ _.
        apply (conduct_bind _ True); [apply conduct_gets|].
        intros interval s3 t3 E3 _ _ _. inversion E3; subst interval s3 t3; clear E3.
        apply (conduct_bind _ True); [now apply conduct_log|].
        intros _ s4 t4 _ _ _ _.
        destruct Hc2 as (Hci & _). rewrite Hci.
        apply (conduct_weaken (fun x => (x = ValueError \/ x = OverflowError)
                                        /\ false = false
                                        /\ refused (check_interval s))
                 _ (sleepable (check_interval s))); [auto|auto|].
        apply conduct_time_sleep; [|auto].
        intros Hs. now apply signal_at_quiet. }
    unfold bind in E. destruct Hb as (Htb & Hcb & Hrb).
    unfold result_of, state_of, trace_of in *.
    destruct (blk s) as [[rb sb] tb]. cbn [fst snd] in *.
    destruct Hcb as (C1 & C2 & C3 & C4).
    destruct rb as [[]|x]; cbn [fst snd modify] in E;
      inversion E; subst r s' t; clear E.
    + rewrite !forallb_app, Ht, Htb. cbn.
      destruct Hrb as [HR Hfl].
      repeat split; try assumption.
    + rewrite !forallb_app, Ht, Htb. cbn.
      repeat split; try assumption.
      destruct Hrb as [Hr|((Hx & Hs & Hn) & Hfl)]; [left; exact Hr|right].
      split; [exact Hx|]. split; [exact Hs|]. split; [exact Hn|exact Hfl].
Qed.

Lemma monitor_recording_returns r s :
  exists s' t, monitor_recording v r s = (Ret tt, s', t).
Proof.
  unfold monitor_recording, try_finally, try_except, bind, web_only, log, emit,
    modify, raise, ret.
  destruct (mr_outcome r) as [returncode stderr|text]; simpl.
  - destruct (returncode =? 0); simpl.
    + destruct v; simpl; eauto.
    + destruct v; simpl; destruct (String.eqb stderr ""); simpl; eauto.
  - destruct v; simpl; eauto.
Qed.

(** What one pass of the loop can do. *)
Definition pass_spec (e : iter_env) (s : recorder) (r : outcome ctl * recorder * trace)
  : Prop :=
  forallb ok (trace_of r) = true /\
  check_interval (state_of r) = check_interval s /\
  retry_count_max (state_of r) = retry_count_max s /\
  match result_of r with
  | Ret c =>
      shutdown_flag (state_of r) = shutdown_flag s /\
      ((c = Continue /\
        last_status (state_of r) = status_of e /\
        retry_count (state_of r) = 0 /\
        (is_live e = true \/ sleepable (check_interval s))) \/
       (is_live e = false /\ refused (check_interval s) /\
        last_status (state_of r) = last_status s /\
        retry_count (state_of r) = retry_count s + 1 /\
        c = if 5 <=? retry_count s + 1 then Break else Continue))
  | Raise x =>
      sig = true /\ x = SystemExit 0 /\
      shutdown_flag (state_of r) = true /\
      last_status (state_of r) = last_status s
  end.

Lemma iteration_spec e s :
  (sig = false -> ie_signal e = None) ->
  (edge e s = true -> forall ev, ok ev = true) ->
  pass_spec e s (iteration v e s).
Proof.
  intros Hsig Hedge.
  pose proof (loop_body_spec e s Hsig Hedge) as Hb. cbv zeta in Hb.
  unfold pass_spec, iteration, try_except, bind.
  unfold result_of, state_of, trace_of in *.
  destruct (loop_body v e s) as [[rb sb] tb]. cbn [fst snd] in *.
  destruct Hb as (Ht & Hci & Hrm & Hr).
  destruct rb as [[]|x].
  - cbn. rewrite app_nil_r. destruct Hr as (H1 & H2 & H3 & H4).
    repeat split; try assumption. left. repeat split; assumption.
  - destruct Hr as (Hls & Hrc & [(Hs & -> & Hf)|(Hx & Hl & Hn & Hf)]).
    + cbn. rewrite app_nil_r. repeat split; assumption.
    + assert (Hh : forall k1 k2 : M recorder ctl,
                 match x with
                 | KeyboardInterrupt => k1
                 | _ => if is_Exception x then k2 else raise x
                 end = k2) by (intros; destruct Hx as [-> | ->]; reflexivity).
      rewrite Hh. clear Hh.
      cbn [is_Exception modify gets log emit fst snd].
      cbn [retry_count set_retry_count]. rewrite Hrc.
      destruct (5 <=? retry_count s + 1) eqn:E5.
      * cbn. rewrite forallb_app, Ht. cbn. rewrite !ok_other by reflexivity.
        repeat split; try assumption. right. repeat split; assumption.
      * destruct (signal_at e InErrorSleep) as [se|] eqn:Es.
        -- rewrite time_sleep_some by lia. cbn -[handler_trace].
           rewrite forallb_app, Ht. cbn -[handler_trace].
           rewrite !ok_other by reflexivity.
           cbn -[handler_trace]. rewrite handler_trace_ok.
           repeat split; try assumption.
           destruct (Bool.bool_dec sig true) as [|Hns]; [assumption|].
           apply not_true_is_false in Hns.
           rewrite (signal_at_quiet e InErrorSleep Hsig Hns) in Es. discriminate.
        -- rewrite time_sleep_none by lia. cbn.
           rewrite forallb_app, Ht. cbn. rewrite !ok_other by reflexivity.
           repeat split; try assumption. right. repeat split; assumption.
Qed.

Lemma poll_spec e s :
  (sig = false -> ie_signal e = None) ->
  (edge e s = true -> forall ev, ok ev = true) ->
  pass_spec e s (poll v e s).
Proof.
  intros Hsig Hedge. unfold poll.
  assert (Hm : conduct (fun _ => False) True
                 (match ie_monitor e with
                  | Some r => monitor_recording v r
                  | None => ret tt
                  end) s).
  { destruct (ie_monitor e); [apply conduct_monitor_recording|now apply conduct_ret]. }
  destruct Hm as (Ht & (C1 & C2 & C3 & C4) & Hr).
  unfold pass_spec, bind. unfold result_of, state_of, trace_of in *.
  destruct (match ie_monitor e with
            | Some r => monitor_recording v r
            | None => ret tt
            end s) as [[rm sm] tm] eqn:Em. cbn [fst snd] in *.
  assert (Hret : exists a, rm = Ret a).
  { destruct (ie_monitor e) as [r|].
    - destruct (monitor_recording_returns r s) as (s' & t & E).
      rewrite E in Em. inversion Em. eauto.
    - inversion Em. eauto. }
  destruct Hret as [[] ->]. destruct Hr as [_ Hfl].
  assert (Hedge' : edge e sm = true -> forall ev, ok ev = true).
  { unfold edge in *. rewrite C3. exact Hedge. }
  pose proof (iteration_spec e sm Hsig Hedge') as Hi.
  unfold pass_spec in Hi. unfold result_of, state_of, trace_of in *.
  destruct (iteration v e sm) as [[ri si] ti]. cbn [fst snd] in *.
  destruct Hi as (Hti & Hci & Hrm & Hri).
  rewrite forallb_app, Ht, Hti.
  split; [reflexivity|]. split; [congruence|]. split; [congruence|].
  destruct ri as [c|x].
  - destruct Hri as (Hf & Hcase). split; [congruence|].
    destruct Hcase as [(-> & H1 & H2 & H3)|(H1 & H2 & H3 & H4 & H5)].
    + left. repeat split; try assumption. rewrite <- C1. exact H3.
    + right. rewrite <- C1, <- C3, <- C4. repeat split; assumption.
  - destruct Hri as (H1 & H2 & H3 & H4). repeat split; congruence.
Qed.
End Conduct.

(** ** [get_live_info] *)

Lemma live_info_failure (q : query_outcome) :
  transient_failure q = true -> live_info q = none3.
Proof.
  unfold transient_failure, malformed, live_info, get_live_info, try_except, bind,
    emit, log, interrupt, ret, raise, dict_get, result_of.
  repeat (simpl;
          match goal with
          | |- context [match ?x with _ => _ end] =>
              match x with
              | context [default_recorder] => fail 1
              | _ => destruct x eqn:?
              end
          end); simpl; try reflexivity; try discriminate.
Qed.

Lemma live_info_no_content (q : query_outcome) :
  no_content q = true -> live_info q = none3.
Proof.
  unfold no_content, live_info, get_live_info, try_except, bind,
    emit, log, interrupt, ret, raise, dict_get, result_of.
  repeat (simpl;
          match goal with
          | |- context [match ?x with _ => _ end] =>
              match x with
              | context [default_recorder] => fail 1
              | _ => destruct x eqn:?
              end
          end); simpl; try reflexivity; try discriminate.
Qed.

(** C10: [get_live_info] returns for every query outcome and never raises;
    for a network error, an error status or an unreadable body it returns
    [(None, None, None)] and leaves the recorder as it was, which is exactly
    what it returns when the answer has no content. *)
Theorem get_live_info_failure_returns_none (q : query_outcome) (s : recorder) :
  (exists x t, get_live_info q None s = (Ret x, s, t)) /\
  (transient_failure q = true ->
   result_of (get_live_info q None s) = Ret (JNull, JNull, JNull) /\
   state_of (get_live_info q None s) = s /\
   forall q', no_content q' = true ->
              result_of (get_live_info q' None s) = result_of (get_live_info q None s) /\
              state_of (get_live_info q' None s) = state_of (get_live_info q None s)).
Proof.
  split.
  - exists (live_info q), (query_trace q). apply get_live_info_none.
  - intros Hf. rewrite get_live_info_none. unfold result_of, state_of. cbn [fst snd].
    rewrite (live_info_failure q Hf).
    split; [reflexivity|]. split; [reflexivity|].
    intros q' Hn. rewrite get_live_info_none. cbn [fst snd].
    now rewrite (live_info_no_content q' Hn).
Qed.

Lemma get_live_info_failure_returns_none_witness :
  result_of (get_live_info (Response 503 None) None default_recorder)
  = Ret (JNull, JNull, JNull) /\
  result_of (get_live_info (Response 200 (Some (JObj []))) None default_recorder)
  = result_of (get_live_info (Response 503 None) None default_recorder).
Proof.
  pose proof (proj2 (get_live_info_failure_returns_none (Response 503 None)
                       default_recorder) eq_refl) as (H1 & _ & H3).
  split; [exact H1|].
  exact (proj1 (H3 (Response 200 (Some (JObj []))) eq_refl)).
Defined.

(** ** Stopping a recording *)

Lemma handler_trace_effects (se : stop_env) (p : pid) :
  effects (handler_trace se (Some p)) = stop_effects p se.
Proof.
  unfold handler_trace, stop_trace, stop_effects.
  destruct se as [tr w]; destruct tr, w; reflexivity.
Qed.

Lemma stop_recording_some (se : stop_env) (clock : Z) (s : recorder) (p : pid) :
  current_recording_process s = Some p ->
  stop_recording se clock s = (Ret tt, stopped clock s, stop_recording_trace p se).
Proof.
  intros Hp. unfold stop_recording, bind, gets. rewrite Hp.
  unfold stopped, stop_recording_trace, try_finally, try_except, terminate,
    wait_timeout, kill, bind, log, emit, modify, raise, ret.
  destruct se as [tr w]; destruct tr, w; reflexivity.
Qed.

Lemma stop_recording_none (se : stop_env) (clock : Z) (s : recorder) :
  current_recording_process s = None ->
  stop_recording se clock s = (Ret tt, s, []).
Proof. intros Hp. unfold stop_recording, bind, gets. now rewrite Hp. Qed.

(** C8: [stop_recording] is idempotent.  Whatever the first call did, the
    second one finds no current process: it returns at once, calls neither
    [terminate] nor [kill], and leaves every attribute, [recording_info]
    included, as the first call left it. *)
Theorem stop_recording_twice (se1 se2 : stop_env) (clock1 clock2 : Z) (s : recorder) :
  stop_recording se2 clock2 (state_of (stop_recording se1 clock1 s))
  = (Ret tt, state_of (stop_recording se1 clock1 s), []).
Proof.
  apply stop_recording_none.
  destruct (current_recording_process s) as [p|] eqn:Hp.
  - now rewrite (stop_recording_some se1 clock1 s p Hp).
  - now rewrite (stop_recording_none se1 clock1 s Hp).
Qed.

(** C5: with a recording process current, both the signal handler and
    [stop_recording] stop it: [terminate], then a wait of at most 10 seconds,
    then [kill] if the wait timed out.  The handler raises [SystemExit(0)]
    only after that; [stop_recording] returns.  An exception raised by
    [terminate] or by the wait is logged as an error and goes no further. *)
Theorem stop_before_exit (se : stop_env) (clock : Z) (s : recorder) (p : pid) :
  current_recording_process s = Some p ->
  _signal_handler se s
  = (Raise (SystemExit 0), set_shutdown_flag true s, handler_trace se (Some p)) /\
  effects (handler_trace se (Some p)) = stop_effects p se /\
  result_of (stop_recording se clock s) = Ret tt /\
  effects (trace_of (stop_recording se clock s)) = stop_effects p se /\
  current_recording_process (state_of (stop_recording se clock s)) = None /\
  (se_terminate_raises se = true \/ se_wait se = WaitRaises ->
   In (ELog Error MsgTerminateError) (handler_trace se (Some p)) /\
   In (ELog Error MsgStopError) (trace_of (stop_recording se clock s))).
Proof.
  intros Hp. rewrite signal_handler_eq, Hp, (stop_recording_some se clock s p Hp).
  split; [reflexivity|]. split; [apply handler_trace_effects|].
  split; [reflexivity|].
  unfold trace_of, state_of, stop_recording_trace, stop_effects, handler_trace,
    stop_trace. cbn [fst snd].
  destruct se as [tr w]; destruct tr, w; cbn;
    (split; [reflexivity|]); (split; [reflexivity|]);
    intros [H|H]; try discriminate; split; auto 10.
Qed.

Lemma stop_before_exit_witness :
  effects (trace_of (stop_recording stubborn 9
                       (set_current_recording_process (Some 7%nat) default_recorder)))
  = [ETerminate 7%nat; EWait 7%nat (Some 10); EKill 7%nat].
Proof.
  exact (proj1 (proj2 (proj2 (proj2
           (stop_before_exit stubborn 9
              (set_current_recording_process (Some 7%nat) default_recorder)
              7%nat eq_refl))))).
Defined.

(** ** One pass of the loop *)

Lemma not_launch_other (ev : event) : is_launch ev = false -> not_launch ev = true.
Proof. unfold not_launch. now intros ->. Qed.

Lemma live_starts_app (a b : trace) :
  live_starts (a ++ b) = (live_starts a + live_starts b)%nat.
Proof. unfold live_starts. now rewrite List.filter_app, length_app. Qed.

Lemma popens_app (a b : trace) : popens (a ++ b) = (popens a + popens b)%nat.
Proof. unfold popens. now rewrite List.filter_app, length_app. Qed.

Lemma no_launch_counts (t : trace) :
  forallb not_launch t = true -> live_starts t = 0%nat /\ popens t = 0%nat.
Proof.
  unfold live_starts, popens, not_launch, is_launch.
  induction t as [|ev t IH]; simpl; [auto|].
  intros H. apply andb_prop in H as [Hev Ht]. destruct (IH Ht) as [I1 I2].
  apply negb_true_iff, orb_false_iff in Hev as [-> ->]. auto.
Qed.

(** Every pass, whatever the world does. *)
Lemma poll_any (v : variant) (e : iter_env) (s : recorder) :
  pass_spec any_event true e s (poll v e s).
Proof. apply poll_spec; [reflexivity|discriminate|reflexivity]. Qed.

(** A pass without a signal. *)
Lemma poll_calm (v : variant) (e : iter_env) (s : recorder) :
  ie_signal e = None -> pass_spec any_event false e s (poll v e s).
Proof. intros H. apply poll_spec; [reflexivity|auto|reflexivity]. Qed.

(** Off the live edge a pass enters no launch and calls no [Popen]. *)
Lemma poll_off_edge (v : variant) (e : iter_env) (s : recorder) :
  edge e s = false ->
  live_starts (trace_of (poll v e s)) = 0%nat /\ popens (trace_of (poll v e s)) = 0%nat.
Proof.
  intros He. apply no_launch_counts.
  apply (poll_spec not_launch not_launch_other true v e s); [discriminate|].
  rewrite He. discriminate.
Qed.

(** After a pass that lets the loop go on, a live poll is recorded live. *)
Lemma poll_records_live (v : variant) (e : iter_env) (s s1 : recorder) (t1 : trace) :
  poll v e s = (Ret Continue, s1, t1) -> is_live e = true ->
  is_open (last_status s1) = true.
Proof.
  intros E Hl. pose proof (poll_any v e s) as H. unfold pass_spec in H.
  rewrite E in H. unfold result_of, state_of, trace_of in H. cbn [fst snd] in H.
  destruct H as (_ & _ & _ & _ & [(_ & H & _)|(Hn & _)]).
  - rewrite H. exact Hl.
  - congruence.
Qed.

(** ** The edge-triggered launch in the two classes *)

(** In [chzzk-recorder.py] and [hosting.py], the pass of poll [k] enters a
    launch only if poll [k] reports the channel live and the status recorded
    before it is not live: the initial [last_status] for the first poll, the
    status of poll [k - 1] afterwards. *)
Theorem launch_only_on_live_edge (v : variant) (envs : list iter_env) (s : recorder)
    (k : nat) (e : iter_env) (t : trace) :
  nth_error envs k = Some e ->
  nth_error (snd (check_stream_loop v envs s)) k = Some t ->
  live_starts t <> 0%nat ->
  is_live e = true /\
  match k with
  | O => is_open (last_status s) = false
  | S j => exists e', nth_error envs j = Some e' /\ is_live e' = false
  end.
Proof.
  revert s k e t. induction envs as [|e0 rest IH]; intros s k e t He Ht Hn.
  - destruct k; discriminate.
  - simpl in Ht. destruct (shutdown_flag s); [destruct k; discriminate|].
    destruct (poll v e0 s) as [[r s1] t1] eqn:Ep.
    assert (Hhead : k = O -> e = e0 /\ t = t1).
    { intros ->. simpl in He. inversion He; subst e0.
      destruct r as [[]|x]; simpl in Ht;
        [destruct (check_stream_loop v rest s1) as [[? ?] ?]|..];
        simpl in Ht; inversion Ht; auto. }
    destruct k as [|j].
    + destruct (Hhead eq_refl) as [-> ->].
      destruct (edge e0 s) eqn:Eg.
      * unfold edge in Eg. apply andb_prop in Eg as [H1 H2].
        split; [exact H1|]. now apply negb_true_iff in H2.
      * destruct (poll_off_edge v e0 s Eg) as [H0 _].
        rewrite Ep in H0. unfold trace_of in H0. cbn [snd] in H0. congruence.
    + simpl in He.
      destruct r as [[]|x]; simpl in Ht; try (destruct j; discriminate).
      destruct (check_stream_loop v rest s1) as [[r2 s2] ts] eqn:Er.
      simpl in Ht.
      assert (Ht' : nth_error (snd (check_stream_loop v rest s1)) j = Some t)
        by now rewrite Er.
      destruct (IH s1 j e t He Ht' Hn) as [Hl Hprev].
      split; [exact Hl|].
      destruct j as [|i].
      * exists e0. split; [reflexivity|].
        destruct (is_live e0) eqn:El0; [|reflexivity].
        rewrite (poll_records_live v e0 s s1 t1 Ep El0) in Hprev. discriminate.
      * exact Hprev.
Qed.

Lemma launch_only_on_live_edge_witness :
  is_live (calm live_query launch_ok) = true /\
  exists e', nth_error [calm offline_query launch_ok; calm live_query launch_ok] 0
             = Some e' /\ is_live e' = false.
Proof.
  refine (launch_only_on_live_edge Console
            [calm offline_query launch_ok; calm live_query launch_ok]
            default_recorder 1 (calm live_query launch_ok) _ eq_refl eq_refl _).
  vm_compute. discriminate.
Defined.

(** In both classes scenario A launches once: one [Popen] call, in the pass
    of the third poll. *)
Lemma scenario_a_launches_once (v : variant) :
  List.map popens (snd (check_stream v scenario_a default_recorder))
  = [0; 0; 1; 0; 0]%nat /\
  List.map live_starts (snd (check_stream v scenario_a default_recorder))
  = [0; 0; 1; 0; 0]%nat /\
  fst (fst (check_stream v scenario_a default_recorder)) = Polling.
Proof. destruct v; vm_compute; auto. Qed.

(** C1 in [callisto.py]: scenario A launches twice.  [check_stream] there
    assigns [current_recording_process] without declaring it [global], so the
    read after the launch raises [UnboundLocalError]; the pass of a live poll
    never reaches [last_status = status], and the next live poll, although
    the previous poll was live too, enters a launch again. *)
Theorem callisto_launches_again_while_live :
  List.map popens (snd (Callisto.check_stream scenario_a default_recorder))
  = [0; 0; 1; 1; 0]%nat /\
  List.map live_starts (snd (Callisto.check_stream scenario_a default_recorder))
  = [0; 0; 1; 1; 0]%nat /\
  result_of (Callisto.loop_body (calm live_query launch_ok)
               (default_recorder,
                {| Callisto.l_retry_count := 0; Callisto.l_last_status := JNull;
                   Callisto.l_current_recording_process := None |}))
  = Raise UnboundLocalError.
Proof. vm_compute. auto. Qed.

(** ** The error counter *)

(** In both classes a pass whose [try] suite completes leaves
    [retry_count] at 0, live or not. *)
Lemma completed_pass_resets_counter (v : variant) (e : iter_env) (s s' : recorder)
    (t : trace) :
  loop_body v e s = (Ret tt, s', t) ->
  retry_count s' = 0 /\ last_status s' = status_of e.
Proof.
  intros E.
  pose proof (loop_body_spec any_event (fun _ _ => eq_refl) true v e s) as H.
  cbv zeta in H. rewrite E in H. unfold result_of, state_of in H. cbn [fst snd] in H.
  destruct H as (_ & _ & _ & H1 & H2 & _); [discriminate|reflexivity|]. auto.
Qed.

(** C7 in [callisto.py]: after scenario B the counter is 1, not 0.  The pass
    of each live poll ends in the [except Exception] clause (the same
    [UnboundLocalError] as in scenario A), which counts it as an error; the
    counter is reset by the offline passes only, and five live polls in a row
    end the loop. *)
Theorem callisto_counter_after_live_poll :
  Callisto.l_retry_count (snd (snd (fst (Callisto.check_stream scenario_b default_recorder))))
  = 1 /\
  fst (fst (Callisto.check_stream scenario_b default_recorder)) = Polling /\
  fst (fst (Callisto.check_stream (List.repeat (calm live_query launch_ok) 5)
              default_recorder)) = Finished.
Proof. vm_compute. auto. Qed.

(** ** Following a run step by step *)

Lemma bind_ret_eq {St A B} (m : M St A) (k : A -> M St B) s a s1 t1 :
  m s = (Ret a, s1, t1) ->
  bind m k s = (let '(r, s2, t2) := k a s1 in (r, s2, t1 ++ t2)).
Proof. intros E. unfold bind. now rewrite E. Qed.




Lemma signal_at_none (e : iter_env) (b : block_point) :
  ie_signal e = None -> signal_at e b = None.
Proof. intros H. unfold signal_at. now rewrite H. Qed.

(** The monitor thread returns, and touches neither the settings nor the
    variables of the loop nor the flag. *)
Lemma monitor_step (v : variant) (e : iter_env) (s : recorder) :
  exists sm tm,
    (match ie_monitor e with
     | Some r => monitor_recording v r
     | None => ret tt
     end) s = (Ret tt, sm, tm) /\
    core_eq s sm /\ shutdown_flag sm = shutdown_flag s /\
    (current_recording_process s = None -> current_recording_process sm = None) /\
    effects tm = [].
Proof.
  destruct (ie_monitor e) as [r|].
  - unfold monitor_recording, try_finally, try_except, bind, web_only, log, emit,
      modify, raise, ret.
    destruct (mr_outcome r) as [returncode stderr|text]; simpl.
    + destruct (returncode =? 0); simpl.
      * destruct v; simpl; do 2 eexists; repeat split.
      * destruct v; simpl; destruct (String.eqb stderr ""); simpl;
          do 2 eexists; repeat split.
    + destruct v; simpl; do 2 eexists; repeat split.
  - exists s, []. repeat split. auto.
Qed.





(** A live poll without a signal: the pass completes. *)
Lemma poll_calm_live (v : variant) (e : iter_env) (s : recorder) :
  ie_signal e = None -> is_live e = true ->
  exists s1 t1,
    poll v e s = (Ret Continue, s1, t1) /\
    last_status s1 = status_of e /\ retry_count s1 = 0 /\
    shutdown_flag s1 = shutdown_flag s /\
    check_interval s1 = check_interval s /\ retry_count_max s1 = retry_count_max s.
Proof.
  intros Hsig Hl. pose proof (poll_calm v e s Hsig) as H. unfold pass_spec in H.
  destruct (poll v e s) as [[r s1] t1].
  unfold result_of, state_of, trace_of in H. cbn [fst snd] in H.
  destruct H as (_ & Hci & Hrm & Hr).
  destruct r as [c|x]; [|destruct Hr as [Hr _]; discriminate].
  destruct Hr as (Hf & [(-> & H1 & H2 & _)|(Hn & _)]); [|congruence].
  exists s1, t1. repeat split; assumption.
Qed.

(** A poll that is not live, without a signal: the pass completes when the
    interval is a valid sleep length, and is counted as an error when it is
    not. *)
Lemma poll_calm_offline (v : variant) (e : iter_env) (s : recorder) :
  ie_signal e = None -> is_live e = false ->
  exists c s1 t1,
    poll v e s = (Ret c, s1, t1) /\
    shutdown_flag s1 = shutdown_flag s /\
    check_interval s1 = check_interval s /\ retry_count_max s1 = retry_count_max s /\
    popens t1 = 0%nat /\ live_starts t1 = 0%nat /\
    ((sleepable (check_interval s) /\ c = Continue /\
      last_status s1 = status_of e /\ retry_count s1 = 0) \/
     (refused (check_interval s) /\
      c = (if 5 <=? retry_count s + 1 then Break else Continue) /\
      last_status s1 = last_status s /\ retry_count s1 = retry_count s + 1)).
Proof.
  intros Hsig Hl. pose proof (poll_calm v e s Hsig) as H. unfold pass_spec in H.
  assert (He : edge e s = false) by (unfold edge; now rewrite Hl).
  destruct (poll_off_edge v e s He) as [Hs Hp].
  destruct (poll v e s) as [[r s1] t1].
  unfold result_of, state_of, trace_of in *. cbn [fst snd] in *.
  destruct H as (_ & Hci & Hrm & Hr).
  destruct r as [c|x]; [|destruct Hr as [Hr _]; discriminate].
  exists c, s1, t1.
  destruct Hr as (Hf & [(-> & H1 & H2 & [H3|H3])|(_ & H1 & H2 & H3 & H4)]).
  - congruence.
  - repeat split; try assumption. left. auto.
  - repeat split; try assumption. right. auto.
Qed.

(** ** Runs of the loop *)

Lemma loop_continue (v : variant) (e : iter_env) (rest : list iter_env)
    (s s1 : recorder) (t1 : trace) :
  shutdown_flag s = false ->
  poll v e s = (Ret Continue, s1, t1) ->
  check_stream_loop v (e :: rest) s
  = (let '(r, s2, ts) := check_stream_loop v rest s1 in (r, s2, t1 :: ts)).
Proof. intros Hf E. simpl. now rewrite Hf, E. Qed.

Lemma loop_app (v : variant) (a b : list iter_env) (s s1 : recorder) (ts1 : list trace) :
  check_stream_loop v a s = (Polling, s1, ts1) ->
  check_stream_loop v (a ++ b) s
  = (let '(r, s2, ts2) := check_stream_loop v b s1 in (r, s2, ts1 ++ ts2)).
Proof.
  revert s s1 ts1. induction a as [|e a IH]; intros s s1 ts1 E.
  - simpl in E. inversion E; subst. simpl.
    now destruct (check_stream_loop v b s1) as [[r s2] ts2].
  - simpl in *. destruct (shutdown_flag s); [discriminate|].
    destruct (poll v e s) as [[[[]|x] s0] t0]; try discriminate.
    destruct (check_stream_loop v a s0) as [[r' s'] ts'] eqn:Ea.
    inversion E; subst r' s' ts1.
    rewrite (IH s0 s1 ts' Ea).
    now destruct (check_stream_loop v b s1) as [[r s2] ts2].
Qed.


(** ** A failed query re-arms the live edge *)

(** ** The error counter and the end of the loop *)

(** Passes that raise count up as long as the counter stays below 5. *)
Lemma error_run (v : variant) (envs : list iter_env) (s : recorder) :
  shutdown_flag s = false -> refused (check_interval s) ->
  Forall (fun e => ie_signal e = None) envs ->
  Forall (fun e => is_live e = false) envs ->
  retry_count s + Z.of_nat (length envs) < 5 ->
  exists s' ts,
    check_stream_loop v envs s = (Polling, s', ts) /\
    retry_count s' = retry_count s + Z.of_nat (length envs) /\
    shutdown_flag s' = false /\ check_interval s' = check_interval s /\
    Forall (fun t => popens t = 0%nat) ts.
Proof.
  revert s. induction envs as [|e envs IH]; intros s Hf Hci Hsig Hoff Hlt.
  - exists s, []. simpl. repeat split; auto. lia.
  - inversion Hsig as [|? ? Hs1 Hs2]; subst. inversion Hoff as [|? ? Ho1 Ho2]; subst.
    simpl length in Hlt.
    destruct (poll_calm_offline v e s Hs1 Ho1)
      as (c & s1 & t1 & Ep & Hf1 & Hci1 & _ & Hp & _ & Hcase).
    destruct Hcase as [(Hpos & _)|(_ & Hc & _ & Hrc)]; [lia|].
    assert (E5 : (5 <=? retry_count s + 1) = false) by (apply Z.leb_gt; lia).
    rewrite E5 in Hc. subst c.
    destruct (IH s1) as (s' & ts & El & Hrc' & Hf' & Hci' & Hall);
      try assumption; try congruence; try lia.
    exists s', (t1 :: ts). rewrite (loop_continue v e envs s s1 t1 Hf Ep), El.
    repeat split; try congruence.
    + rewrite Hrc', Hrc. simpl length. lia.
    + constructor; assumption.
Qed.

(** The pass that brings the counter to 5 leaves the loop. *)
Lemma error_break (v : variant) (e : iter_env) (s : recorder) :
  shutdown_flag s = false -> refused (check_interval s) ->
  ie_signal e = None -> is_live e = false -> 5 <= retry_count s + 1 ->
  exists s' t,
    check_stream_loop v [e] s = (Finished, s', [t]) /\
    retry_count s' = retry_count s + 1 /\ popens t = 0%nat.
Proof.
  intros Hf Hci Hsig Hoff Hge.
  destruct (poll_calm_offline v e s Hsig Hoff)
    as (c & s1 & t1 & Ep & _ & _ & _ & Hp & _ & Hcase).
  destruct Hcase as [(Hpos & _)|(_ & Hc & _ & Hrc)]; [lia|].
  assert (E5 : (5 <=? retry_count s + 1) = true) by (apply Z.leb_le; lia).
  rewrite E5 in Hc. subst c.
  exists s1, t1. simpl. rewrite Hf, Ep. auto.
Qed.

(** C2, as the code has it.  A failed status query is not an error of the
    pass: [get_live_info] turns it into [(None, None, None)], the pass takes
    the offline branch, launches nothing and, when it completes, sets the
    counter to 0 and the loop goes on.  The counter counts passes that raise
    an exception: such a pass adds one, the loop is left when the counter
    reaches 5, and [check_stream] then returns, so that the process ends
    with exit status 0. *)
Theorem failed_query_is_an_offline_poll (v : variant) :
  (forall e s,
      transient_failure (ie_query e) = true -> ie_signal e = None ->
      sleepable (check_interval s) ->
      exists s1 t1,
        poll v e s = (Ret Continue, s1, t1) /\
        retry_count s1 = 0 /\ last_status s1 = JNull /\
        popens t1 = 0%nat /\ live_starts t1 = 0%nat) /\
  (forall e s c s1 t1,
      poll v e s = (Ret c, s1, t1) ->
      (c = Continue /\ retry_count s1 = 0) \/
      (refused (check_interval s) /\ retry_count s1 = retry_count s + 1 /\
       c = if 5 <=? retry_count s1 then Break else Continue)) /\
  (forall e1 e2 e3 e4 e5 s,
      shutdown_flag s = false -> refused (check_interval s) ->
      Forall (fun e => ie_signal e = None /\ is_live e = false) [e1; e2; e3; e4; e5] ->
      exists s' ts,
        start v true [e1; e2; e3; e4; e5] s = (ExitCode 0, s', ts) /\
        retry_count s' = 5 /\
        Forall (fun t => popens t = 0%nat) ts).
Proof.
  split; [|split].
  - intros e s Hq Hsig Hci.
    assert (Hst : status_of e = JNull).
    { unfold status_of. now rewrite (live_info_failure _ Hq). }
    assert (Hl : is_live e = false) by (unfold is_live; now rewrite Hst).
    destruct (poll_calm_offline v e s Hsig Hl)
      as (c & s1 & t1 & Ep & _ & _ & _ & Hp & Hs & Hcase).
    destruct Hcase as [(_ & -> & Hls & Hrc)|(Hneg & _)]; [|lia].
    exists s1, t1. repeat split; try assumption. congruence.
  - intros e s c s1 t1 Ep. pose proof (poll_any v e s) as H.
    unfold pass_spec in H. rewrite Ep in H.
    unfold result_of, state_of in H. cbn [fst snd] in H.
    destruct H as (_ & _ & _ & _ & [(-> & _ & H & _)|(_ & H1 & _ & H2 & H3)]).
    + left. auto.
    + right. rewrite H2. auto.
  - intros e1 e2 e3 e4 e5 s Hf Hci Hall.
    assert (Hsig : Forall (fun e => ie_signal e = None) [e1; e2; e3; e4; e5]).
    { eapply List.Forall_impl; [|exact Hall]. now intros e [H _]. }
    assert (Hoff : Forall (fun e => is_live e = false) [e1; e2; e3; e4; e5]).
    { eapply List.Forall_impl; [|exact Hall]. now intros e [_ H]. }
    change [e1; e2; e3; e4; e5] with ([e1; e2; e3; e4] ++ [e5]) in Hsig, Hoff.
    apply Forall_app in Hsig as [Hsig4 Hsig5]. apply Forall_app in Hoff as [Hoff4 Hoff5].
    inversion Hsig5 as [|? ? Hs5 _]; subst. inversion Hoff5 as [|? ? Ho5 _]; subst.
    destruct (error_run v [e1; e2; e3; e4] (set_retry_count 0 s) Hf Hci Hsig4 Hoff4)
      as (s4 & ts4 & E4 & Hrc4 & Hf4 & Hci4 & Hall4).
    { simpl. lia. }
    assert (Hci4' : refused (check_interval s4)) by (rewrite Hci4; exact Hci).
    destruct (error_break v e5 s4 Hf4 Hci4' Hs5 Ho5) as (s5 & t5 & E5 & Hrc5 & Hp5).
    { rewrite Hrc4. simpl. lia. }
    unfold start, check_stream. cbn [negb].
    change [e1; e2; e3; e4; e5] with ([e1; e2; e3; e4] ++ [e5]).
    rewrite (loop_app v _ [e5] _ s4 ts4 E4), E5.
    eexists. eexists. split; [reflexivity|].
    split; [rewrite Hrc5, Hrc4; simpl; lia|].
    constructor; [reflexivity|].
    rewrite <- app_assoc. apply Forall_app. split; [exact Hall4|].
    repeat constructor. exact Hp5.
Qed.

Lemma failed_query_is_an_offline_poll_witness :
  exists s1 t1,
    poll Console (calm (Response 503 None) launch_ok) default_recorder
    = (Ret Continue, s1, t1) /\
    retry_count s1 = 0 /\ last_status s1 = JNull /\
    popens t1 = 0%nat /\ live_starts t1 = 0%nat.
Proof.
  refine (proj1 (failed_query_is_an_offline_poll Console)
            (calm (Response 503 None) launch_ok) default_recorder eq_refl eq_refl _).
  cbn. lia.
Defined.

(** C2, as stated, fails: five failed status queries in a row leave the
    counter at 0 and the loop polling; nothing exits, and not with status
    1. *)
Lemma five_failed_queries_keep_polling :
  let r := start Console true (List.repeat (calm RequestFailed launch_ok) 5)
             default_recorder in
  fst (fst r) = Running /\ retry_count (snd (fst r)) = 0 /\
  fst (fst r) <> ExitCode 1 /\
  fst (fst (check_stream Console (List.repeat (calm RequestFailed launch_ok) 5)
              default_recorder)) <> Finished.
Proof. vm_compute. repeat split; discriminate. Qed.

(** ** Launch retries *)

Lemma effects_app (a b : trace) : effects (a ++ b) = effects a ++ effects b.
Proof. unfold effects. apply List.filter_app. Qed.

Lemma popens_effects (t : trace) : popens (effects t) = popens t.
Proof.
  unfold popens, effects. induction t as [|ev t IH]; [reflexivity|].
  destruct ev; simpl; auto.
Qed.

Lemma popens_exhausted (n : nat) : popens (exhausted n) = n.
Proof.
  induction n as [|n IH]; [reflexivity|].
  destruct n as [|n]; [reflexivity|].
  change (popens (EPopen None :: ESleep 5 :: exhausted (S n)) = S (S n)).
  unfold popens in *. simpl List.filter. simpl length. simpl in IH. now rewrite IH.
Qed.

Lemma query_trace_effects (q : query_outcome) : effects (query_trace q) = [EHttpGet 10].
Proof.
  unfold query_trace, get_live_info, try_except, bind, emit, log,
    interrupt, ret, raise, dict_get, trace_of.
  repeat (simpl;
          match goal with
          | |- context [match ?x with _ => _ end] =>
              match x with
              | context [default_recorder] => fail 1
              | _ => destruct x eqn:?
              end
          end); reflexivity.
Qed.

(** [run_streamlink] when [Popen] raises. *)
Lemma run_streamlink_fails (v : variant) (le : launch_env) (title : string)
    (name : json) (s : recorder) :
  le_popen le = None ->
  exists s1 t1,
    run_streamlink v le (JStr title) name s = (Ret None, s1, t1) /\
    effects t1 = [EPopen None] /\
    core_eq s s1 /\ shutdown_flag s1 = shutdown_flag s /\
    current_recording_process s1 = None.
Proof.
  intros Hp. unfold run_streamlink, try_except, bind, web_only, modify, emit, log,
    raise, ret. rewrite Hp.
  destruct v; cbn; do 2 eexists; repeat split.
Qed.

Lemma launch_attempts_fail (v : variant) (n attempt : nat) (e : iter_env)
    (title : string) (name : json) (s : recorder) :
  (forall k, le_popen (ie_launch e k) = None) -> ie_signal e = None ->
  retry_count_max s = Z.of_nat (attempt + n) ->
  exists s' t,
    launch_attempts v n attempt e (JStr title) name s = (Ret tt, s', t) /\
    effects t = exhausted n /\
    core_eq s s' /\ shutdown_flag s' = shutdown_flag s /\
    (current_recording_process s = None -> current_recording_process s' = None).
Proof.
  intros Hfail Hsig. revert attempt s.
  induction n as [|n IH]; intros attempt s Hmax.
  - exists s, []. repeat split; auto.
  - destruct (run_streamlink_fails v (ie_launch e attempt) title name s (Hfail attempt))
      as (s1 & t1 & E1 & Hef1 & Hc1 & Hf1 & Hcur1).
    assert (Hmax1 : retry_count_max s1 = Z.of_nat (attempt + S n)).
    { destruct Hc1 as (_ & H & _). congruence. }
    cbn [launch_attempts]. rewrite (bind_ret_eq _ _ _ _ _ _ E1).
    unfold bind at 1. unfold gets at 1. unfold bind at 1. unfold log at 1, emit at 1.
    rewrite Hmax1, (signal_at_none e _ Hsig).
    destruct (IH (S attempt) s1) as (s2 & t2 & E2 & Hef2 & Hc2 & Hf2 & Hcur2).
    { rewrite Hmax1. f_equal. lia. }
    destruct n as [|n].
    + assert (Elt : (Z.of_nat attempt <? Z.of_nat (attempt + 1) - 1) = false)
        by (apply Z.ltb_ge; lia).
      rewrite Elt. unfold bind at 1. unfold ret at 1.
      rewrite E2. exists s2, (t1 ++ [ELog Warning
                                       (MsgLaunchFailed (Z.of_nat attempt + 1)
                                          (Z.of_nat (attempt + 1)))] ++ [] ++ t2).
      split; [reflexivity|].
      rewrite !effects_app, Hef1, Hef2.
      repeat split; try (eapply core_eq_trans; eassumption); try congruence.
      intros _. apply Hcur2. exact Hcur1.
    + assert (Elt : (Z.of_nat attempt <? Z.of_nat (attempt + S (S n)) - 1) = true)
        by (apply Z.ltb_lt; lia).
      rewrite Elt. unfold bind at 1. rewrite time_sleep_none by lia.
      rewrite E2. eexists. eexists.
      split; [reflexivity|].
      rewrite !effects_app, Hef1, Hef2.
      repeat split; try (eapply core_eq_trans; eassumption); try congruence.
      intros _. apply Hcur2. exact Hcur1.
Qed.

Lemma handle_live_start_fail (v : variant) (e : iter_env) (title : string)
    (name : json) (s : recorder) :
  (forall k, le_popen (ie_launch e k) = None) -> ie_signal e = None ->
  0 <= retry_count_max s ->
  exists s' t,
    handle_live_start v e (JStr title) name s = (Ret tt, s', t) /\
    effects t = exhausted (Z.to_nat (retry_count_max s)) /\
    core_eq s s' /\ shutdown_flag s' = shutdown_flag s /\
    (current_recording_process s = None -> current_recording_process s' = None).
Proof.
  intros Hfail Hsig Hmax.
  destruct (launch_attempts_fail v (Z.to_nat (retry_count_max s)) 0 e title name s
              Hfail Hsig) as (s' & t & E & Hef & Hc & Hf & Hcur).
  { simpl. lia. }
  unfold handle_live_start, bind, log, emit, gets. rewrite E.
  eexists. eexists. split; [reflexivity|].
  rewrite !effects_app, Hef. repeat split; try apply Hc; assumption.
Qed.

(** The pass of a live edge on which every launch attempt fails. *)
Lemma poll_exhausts (v : variant) (e : iter_env) (title : string) (s : recorder) :
  is_open (last_status s) = false -> current_recording_process s = None ->
  0 <= retry_count_max s ->
  is_live e = true -> title_of e = JStr title ->
  (forall k, le_popen (ie_launch e k) = None) -> ie_signal e = None ->
  exists s1 t1,
    poll v e s = (Ret Continue, s1, t1) /\
    effects t1 = EHttpGet 10 :: exhausted (Z.to_nat (retry_count_max s)) ++ [ESleep 10] /\
    current_recording_process s1 = None /\
    last_status s1 = status_of e /\ retry_count s1 = 0 /\
    shutdown_flag s1 = shutdown_flag s.
Proof.
  intros Ho Hcur Hmax Hl Ht Hfail Hsig.
  destruct (monitor_step v e s) as (sm & tm & Em & (C1 & C2 & C3 & C4) & Hfm & Hcm & Hem).
  unfold poll. rewrite (bind_ret_eq _ _ _ _ _ _ Em).
  unfold iteration, try_except. unfold bind at 1. unfold loop_body.
  rewrite (signal_at_none e InQuery Hsig).
  rewrite (bind_ret_eq _ _ _ _ _ _ (get_live_info_none (ie_query e) sm)).
  unfold is_live, status_of, title_of in *.
  destruct (live_info (ie_query e)) as [[status title'] name]. cbn [fst snd] in *.
  subst title'. rewrite Hl.
  destruct (handle_live_start_fail v e title name sm Hfail Hsig)
    as (s2 & t2 & E2 & Hef2 & (D1 & D2 & D3 & D4) & Hf2 & Hcur2); [lia|].
  unfold bind at 1. unfold bind at 1. unfold gets at 1. rewrite C3, Ho. cbn [negb].
  unfold bind at 1. rewrite E2.
  unfold check_recording_status. unfold bind at 1. unfold bind at 1. unfold gets at 1.
  rewrite (Hcur2 (Hcm Hcur)). cbn [ret].
  rewrite (signal_at_none e InSleep Hsig), time_sleep_none by lia.
  cbn [ret modify bind fst snd].
  eexists. eexists. split; [reflexivity|].
  rewrite !effects_app, Hem, Hef2, query_trace_effects, C2.
  cbn. rewrite !app_nil_r. repeat split.
  - exact (Hcur2 (Hcm Hcur)).
  - congruence.
Qed.

(** While the channel stays live the loop goes on and launches nothing
    more. *)
Lemma live_run (v : variant) (more : list iter_env) (s : recorder) :
  shutdown_flag s = false -> is_open (last_status s) = true ->
  Forall (fun e => is_live e = true /\ ie_signal e = None) more ->
  exists s' ts,
    check_stream_loop v more s = (Polling, s', ts) /\
    shutdown_flag s' = false /\
    Forall (fun t => popens t = 0%nat /\ live_starts t = 0%nat) ts.
Proof.
  revert s. induction more as [|e more IH]; intros s Hf Ho Hall.
  - exists s, []. repeat split; auto.
  - inversion Hall as [|? ? [Hl Hs] Hrest]; subst.
    destruct (poll_calm_live v e s Hs Hl) as (s1 & t1 & Ep & L1 & _ & F1 & _).
    assert (He : edge e s = false) by (unfold edge; now rewrite Ho, andb_false_r).
    pose proof (poll_off_edge v e s He) as [Q1 Q2].
    rewrite Ep in Q1, Q2. unfold trace_of in Q1, Q2. cbn [snd] in Q1, Q2.
    destruct (IH s1) as (s' & ts & El & Hf' & Hq); try assumption; try congruence.
    { rewrite L1. exact Hl. }
    exists s', (t1 :: ts). rewrite (loop_continue v e more s s1 t1 Hf Ep), El.
    repeat split; auto.
Qed.

(** In both classes, on a live edge on which every launch attempt fails,
    the pass makes exactly [retry_count_max] [Popen] calls with a sleep of 5
    seconds between two consecutive ones and none after the last (what
    follows is the loop's own 10-second sleep), leaves no current process
    and completes; the loop keeps polling, and as long as the polls stay
    live no further launch is attempted. *)
Theorem launch_retries_exhausted (v : variant) (s : recorder) (e : iter_env)
    (more : list iter_env) (title : string) :
  shutdown_flag s = false ->
  is_open (last_status s) = false -> current_recording_process s = None ->
  0 <= retry_count_max s ->
  is_live e = true -> title_of e = JStr title ->
  (forall k, le_popen (ie_launch e k) = None) -> ie_signal e = None ->
  Forall (fun e' => is_live e' = true /\ ie_signal e' = None) more ->
  exists s1 t1 s' ts,
    poll v e s = (Ret Continue, s1, t1) /\
    effects t1 = EHttpGet 10 :: exhausted (Z.to_nat (retry_count_max s)) ++ [ESleep 10] /\
    popens t1 = Z.to_nat (retry_count_max s) /\
    current_recording_process s1 = None /\
    check_stream_loop v (e :: more) s = (Polling, s', t1 :: ts) /\
    Forall (fun t => popens t = 0%nat /\ live_starts t = 0%nat) ts.
Proof.
  intros Hf Ho Hcur Hmax Hl Ht Hfail Hsig Hmore.
  destruct (poll_exhausts v e title s Ho Hcur Hmax Hl Ht Hfail Hsig)
    as (s1 & t1 & Ep & Hef & Hc1 & L1 & _ & F1).
  destruct (live_run v more s1) as (s' & ts & El & _ & Hq); try assumption.
  { congruence. }
  { rewrite L1. exact Hl. }
  exists s1, t1, s', ts. rewrite (loop_continue v e more s s1 t1 Hf Ep), El.
  repeat split; try assumption.
  rewrite <- popens_effects, Hef.
  change (EHttpGet 10 :: exhausted (Z.to_nat (retry_count_max s)) ++ [ESleep 10])
    with ([EHttpGet 10] ++ exhausted (Z.to_nat (retry_count_max s)) ++ [ESleep 10]).
  rewrite !popens_app, popens_exhausted. cbn. lia.
Qed.

Lemma launch_retries_exhausted_witness :
  exists s1 t1 s' ts,
    poll Console (calm live_query launch_fails) default_recorder = (Ret Continue, s1, t1) /\
    effects t1 = EHttpGet 10 :: exhausted (Z.to_nat 3) ++ [ESleep 10] /\
    popens t1 = Z.to_nat 3 /\
    current_recording_process s1 = None /\
    check_stream_loop Console
      [calm live_query launch_fails; calm live_query launch_fails] default_recorder
    = (Polling, s', t1 :: ts) /\
    Forall (fun t => popens t = 0%nat /\ live_starts t = 0%nat) ts.
Proof.
  refine (launch_retries_exhausted Console default_recorder
            (calm live_query launch_fails) [calm live_query launch_fails] "T1"
            eq_refl eq_refl eq_refl _ eq_refl eq_refl (fun _ => eq_refl) eq_refl _).
  - vm_compute. discriminate.
  - repeat constructor.
Defined.

(** C3 in [hosting.py]: the session of a launch whose attempts all failed
    is not marked failed.  [run_streamlink] writes the status ['recording']
    before it calls [Popen] and its [except] clause does not rewrite it, so
    after the three failed attempts the session record says ['recording']
    while no process is current, and it still says so after further live
    polls and after the poll that reports the broadcast over.  (In
    [chzzk-recorder.py] there is no session record at all.) *)
Lemma failed_launch_is_not_marked_failed :
  let web := snd (fst (check_stream Web [calm live_query launch_fails] default_recorder)) in
  let console :=
    snd (fst (check_stream Console [calm live_query launch_fails] default_recorder)) in
  let later :=
    snd (fst (check_stream Web
                [calm live_query launch_fails; calm live_query launch_fails;
                 calm offline_query launch_fails] default_recorder)) in
  recording_info web !! "status" = Some (IStr "recording") /\
  recording_info web !! "status" <> Some (IStr "failed") /\
  current_recording_process web = None /\
  recording_info console = ∅ /\
  List.map popens
    (snd (check_stream Web [calm live_query launch_fails] default_recorder)) = [3%nat] /\
  recording_info later !! "status" = Some (IStr "recording") /\
  current_recording_process later = None.
Proof. vm_compute. repeat split. discriminate. Qed.

(** ** Termination signals *)

(** A signal that arrives during the status query. *)
Lemma poll_signal_in_query (v : variant) (e : iter_env) (s : recorder) (se : stop_env) :
  ie_signal e = Some (InQuery, se) ->
  exists sm t,
    poll v e s = (Raise (SystemExit 0), set_shutdown_flag true sm, t) /\
    core_eq s sm.
Proof.
  intros Hsig.
  destruct (monitor_step v e s) as (sm & tm & Em & Hc & _).
  assert (Hq : signal_at e InQuery = Some se) by (unfold signal_at; now rewrite Hsig).
  exists sm. unfold poll. rewrite (bind_ret_eq _ _ _ _ _ _ Em).
  unfold iteration, try_except, loop_body. rewrite Hq.
  unfold bind at 1. unfold bind at 1. rewrite get_live_info_some.
  cbn [is_Exception raise]. eexists. split; [reflexivity|exact Hc].
Qed.

(** C4, as the code has it.  A termination request is more than a flag:
    the handler sets [shutdown_flag], stops the current recording process if
    there is one, and raises [SystemExit(0)] at the point the signal found the
    main thread.  No clause of the loop catches it: the pass during which the
    signal arrives is abandoned where it stands ([last_status] is not
    updated), no further pass runs, and the process ends with status 0.  The
    test of the flag at the top of the loop ends the loop only when the flag
    is already set. *)
Theorem signal_handler_exits_at_once :
  (forall se s,
      _signal_handler se s
      = (Raise (SystemExit 0), set_shutdown_flag true s,
         handler_trace se (current_recording_process s))) /\
  (forall v e s x,
      result_of (poll v e s) = Raise x ->
      x = SystemExit 0 /\
      shutdown_flag (state_of (poll v e s)) = true /\
      last_status (state_of (poll v e s)) = last_status s) /\
  (forall v e rest s se,
      shutdown_flag s = false -> ie_signal e = Some (InQuery, se) ->
      exists s' t,
        start v true (e :: rest) s
        = (ExitCode 0, s', [[ELog Info MsgBanner]; t; [ELog Info MsgProgramEnded]]) /\
        shutdown_flag s' = true /\ last_status s' = last_status s) /\
  (forall v e rest s,
      shutdown_flag s = true ->
      check_stream v (e :: rest) s = (Finished, set_retry_count 0 s, [])).
Proof.
  split; [exact signal_handler_eq|]. split; [|split].
  - intros v e s x Hx. pose proof (poll_any v e s) as H. unfold pass_spec in H.
    rewrite Hx in H. destruct H as (_ & _ & _ & _ & H1 & H2 & H3). auto.
  - intros v e rest s se Hf Hsig.
    destruct (poll_signal_in_query v e (set_retry_count 0 s) se Hsig)
      as (sm & t & Ep & (_ & _ & C3 & _)).
    exists (set_shutdown_flag true sm), t.
    unfold start, check_stream. cbn [negb check_stream_loop].
    change (shutdown_flag (set_retry_count 0 s)) with (shutdown_flag s).
    rewrite Hf, Ep. cbn [is_Exception app].
    repeat split. exact C3.
  - intros v e rest s Hf. unfold check_stream. cbn [check_stream_loop].
    change (shutdown_flag (set_retry_count 0 s)) with (shutdown_flag s).
    now rewrite Hf.
Qed.

Lemma signal_handler_exits_at_once_witness :
  exists s' t,
    start Console true [interrupted_query] default_recorder
    = (ExitCode 0, s', [[ELog Info MsgBanner]; t; [ELog Info MsgProgramEnded]]) /\
    shutdown_flag s' = true /\ last_status s' = last_status default_recorder.
Proof.
  exact (proj1 (proj2 (proj2 signal_handler_exits_at_once))
           Console interrupted_query [] default_recorder obedient eq_refl eq_refl).
Defined.

(** C4, as stated, fails: the handler does not just set the flag, and the
    pass is cut short.  The signal arrives in the sleep that follows a
    launch: the recording is terminated, the process exits with status 0 from
    inside the pass, [last_status] still holds [None] although the poll was
    live, and the next scripted poll never happens. *)
Lemma signal_cuts_the_pass_short :
  let r := start Console true [interrupted_sleep; calm offline_query launch_ok]
             default_recorder in
  fst (fst r) = ExitCode 0 /\
  last_status (snd (fst r)) = JNull /\
  List.map effects (snd r)
  = [[]; [EHttpGet 10; EPopen (Some 100%nat); EThreadStart 100%nat; EPoll 100%nat;
          ESleep 10; ETerminate 100%nat; EWait 100%nat (Some 10)]; []] /\
  _signal_handler obedient default_recorder
  <> (Ret tt, set_shutdown_flag true default_recorder, []).
Proof. vm_compute. repeat split. discriminate. Qed.

(** ** Scenario B in the two classes *)

Lemma offline_step_bounded (v : variant) (e : iter_env) (s : recorder) (n : Z) :
  shutdown_flag s = false -> ie_signal e = None -> is_live e = false ->
  retry_count s <= n -> 0 <= n < 4 ->
  exists s1 t1,
    poll v e s = (Ret Continue, s1, t1) /\
    shutdown_flag s1 = false /\ retry_count s1 <= n + 1.
Proof.
  intros Hf Hsig Hl Hn H4.
  destruct (poll_calm_offline v e s Hsig Hl)
    as (c & s1 & t1 & Ep & Hf1 & _ & _ & _ & _ & Hcase).
  exists s1, t1.
  destruct Hcase as [(_ & -> & _ & Hrc)|(_ & Hc & _ & Hrc)].
  - repeat split; [assumption|congruence|lia].
  - assert (E5 : (5 <=? retry_count s + 1) = false) by (apply Z.leb_gt; lia).
    rewrite E5 in Hc. subst c. repeat split; [assumption|congruence|lia].
Qed.

(** In both classes, a live poll, three failed status queries and a live
    poll again leave the loop polling with the counter at 0, whatever the
    settings and whatever else the world does short of a signal. *)
Theorem scenario_b_counter_is_zero (v : variant) (s : recorder)
    (eL f1 f2 f3 eL2 : iter_env) :
  shutdown_flag s = false ->
  Forall (fun e => ie_signal e = None) [eL; f1; f2; f3; eL2] ->
  is_live eL = true ->
  Forall (fun e => transient_failure (ie_query e) = true) [f1; f2; f3] ->
  is_live eL2 = true ->
  exists s' ts,
    check_stream v [eL; f1; f2; f3; eL2] s = (Polling, s', ts) /\
    retry_count s' = 0 /\ length ts = 5%nat.
Proof.
  intros Hf Hsig HL HF HL2.
  assert (Hoff : forall e, transient_failure (ie_query e) = true -> is_live e = false).
  { intros e H. unfold is_live, status_of. now rewrite (live_info_failure _ H). }
  rewrite !List.Forall_cons_iff in Hsig. rewrite !List.Forall_cons_iff in HF.
  destruct Hsig as (S1 & S2 & S3 & S4 & S5 & _). destruct HF as (T1 & T2 & T3 & _).
  unfold check_stream.
  destruct (poll_calm_live v eL (set_retry_count 0 s) S1 HL)
    as (s1 & t1 & E1 & _ & R1 & F1 & _).
  assert (F1' : shutdown_flag s1 = false) by (rewrite F1; exact Hf).
  destruct (offline_step_bounded v f1 s1 0 F1' S2 (Hoff f1 T1))
    as (s2 & t2 & E2 & F2 & R2); [lia|lia|].
  destruct (offline_step_bounded v f2 s2 1 F2 S3 (Hoff f2 T2))
    as (s3 & t3 & E3 & F3 & R3); [lia|lia|].
  destruct (offline_step_bounded v f3 s3 2 F3 S4 (Hoff f3 T3))
    as (s4 & t4 & E4 & F4 & R4); [lia|lia|].
  destruct (poll_calm_live v eL2 s4 S5 HL2) as (s5 & t5 & E5 & _ & R5 & _).
  rewrite (loop_continue v eL _ (set_retry_count 0 s) s1 t1 Hf E1).
  rewrite (loop_continue v f1 _ _ s2 t2 F1' E2).
  rewrite (loop_continue v f2 _ _ s3 t3 F2 E3).
  rewrite (loop_continue v f3 _ _ s4 t4 F3 E4).
  rewrite (loop_continue v eL2 _ _ s5 t5 F4 E5).
  exists s5. eexists. split; [reflexivity|]. split; [exact R5|reflexivity].
Qed.

Lemma scenario_b_counter_is_zero_witness :
  exists s' ts,
    check_stream Console scenario_b default_recorder = (Polling, s', ts) /\
    retry_count s' = 0 /\ length ts = 5%nat.
Proof.
  refine (scenario_b_counter_is_zero Console default_recorder
            (calm live_query launch_ok) (calm RequestFailed launch_ok)
            (calm (Response 503 None) launch_ok) (calm (Response 200 None) launch_ok)
            (calm live_query launch_ok)
            eq_refl _ eq_refl _ eq_refl); repeat constructor.
Defined.

(** * Further properties *)

(** ** While the channel stays live *)

(** Once a live status is recorded, live polls enter no launch, whatever
    the passes do and however the run ends. *)
Lemma live_polls_launch_nothing (v : variant) (more : list iter_env) (s : recorder) :
  is_open (last_status s) = true ->
  Forall (fun e => is_live e = true) more ->
  Forall no_launch (snd (check_stream_loop v more s)).
Proof.
  revert s. induction more as [|e more IH]; intros s Ho Hl; [constructor|].
  inversion Hl as [|? ? Hl1 Hl2]; subst. simpl.
  destruct (shutdown_flag s); [constructor|].
  assert (He : edge e s = false) by (unfold edge; now rewrite Ho, andb_false_r).
  destruct (poll_off_edge v e s He) as [Q1 Q2].
  destruct (poll v e s) as [[[[]|x] s1] t1] eqn:Ep;
    unfold trace_of in Q1, Q2; cbn [snd] in Q1, Q2.
  - pose proof (IH s1 (poll_records_live v e s s1 t1 Ep Hl1) Hl2) as H.
    destruct (check_stream_loop v more s1) as [[r s2] ts]. simpl in *.
    constructor; [split; assumption|exact H].
  - repeat constructor; assumption.
  - repeat constructor; assumption.
Qed.

(** In both classes, no new recording is launched while the channel stays
    live: not when the process dies and [check_recording_status] or the
    monitor thread drops it, and not after a user's [stop_recording].  The
    next launch needs a poll that is not live in between. *)
Theorem no_relaunch_while_live (v : variant) (s : recorder) (more : list iter_env)
    (se : stop_env) (clock : Z) :
  is_open (last_status s) = true ->
  Forall (fun e => is_live e = true) more ->
  Forall no_launch (snd (check_stream_loop v more s)) /\
  Forall no_launch (snd (check_stream_loop v more (state_of (stop_recording se clock s)))).
Proof.
  intros Ho Hl. split; [now apply live_polls_launch_nothing|].
  apply live_polls_launch_nothing; [|exact Hl].
  destruct (current_recording_process s) as [p|] eqn:Hp.
  - rewrite (stop_recording_some se clock s p Hp). exact Ho.
  - rewrite (stop_recording_none se clock s Hp). exact Ho.
Qed.

Lemma no_relaunch_while_live_witness :
  Forall no_launch
    (snd (check_stream_loop Web [dead_process_poll; calm live_query launch_ok] recording)) /\
  Forall no_launch
    (snd (check_stream_loop Web [dead_process_poll; calm live_query launch_ok]
            (state_of (stop_recording obedient 5 recording)))).
Proof.
  refine (no_relaunch_while_live Web recording
            [dead_process_poll; calm live_query launch_ok] obedient 5 eq_refl _).
  repeat constructor.
Defined.

(** ** The first launch attempt that succeeds *)

(** [run_streamlink] when [Popen] returns a process. *)
Lemma run_streamlink_succeeds (v : variant) (le : launch_env) (title : string)
    (name : json) (s : recorder) (p : pid) :
  le_popen le = Some p ->
  exists s1 t1,
    run_streamlink v le (JStr title) name s = (Ret (Some p), s1, t1) /\
    effects t1 = [EPopen (Some p)] /\
    core_eq s s1 /\ shutdown_flag s1 = shutdown_flag s /\
    current_recording_process s1 = Some p /\
    (v = Web ->
     recording_info s1 !! "status" = Some (IStr "recording") /\
     recording_info s1 !! "start_time" = Some (ITime (le_clock_start le))).
Proof.
  intros Hp. unfold run_streamlink, try_except, bind, web_only, modify, emit, log,
    raise, ret. rewrite Hp.
  destruct v; cbn; do 2 eexists; repeat split; discriminate.
Qed.

Lemma launch_attempts_success (v : variant) (d n attempt : nat) (e : iter_env)
    (title : string) (name : json) (s : recorder) (p : pid) :
  ie_signal e = None -> (d < n)%nat ->
  Z.of_nat (attempt + d) < retry_count_max s ->
  le_popen (ie_launch e (attempt + d)) = Some p ->
  (forall j, (attempt <= j < attempt + d)%nat -> le_popen (ie_launch e j) = None) ->
  exists s' t,
    launch_attempts v n attempt e (JStr title) name s = (Ret tt, s', t) /\
    effects t = failed_attempts d ++ [EPopen (Some p); EThreadStart p] /\
    core_eq s s' /\ shutdown_flag s' = shutdown_flag s /\
    current_recording_process s' = Some p /\
    (v = Web ->
     recording_info s' !! "status" = Some (IStr "recording") /\
     recording_info s' !! "start_time"
     = Some (ITime (le_clock_start (ie_launch e (attempt + d))))).
Proof.
  intros Hsig. revert n attempt s.
  induction d as [|d IH]; intros n attempt s Hn Hmax Hok Hfail.
  - destruct n as [|n]; [lia|]. rewrite Nat.add_0_r in *.
    destruct (run_streamlink_succeeds v (ie_launch e attempt) title name s p Hok)
      as (s1 & t1 & E1 & Hef1 & Hc1 & Hf1 & Hcur1 & Hw1).
    cbn [launch_attempts]. rewrite (bind_ret_eq _ _ _ _ _ _ E1).
    unfold emit. exists s1, (t1 ++ [EThreadStart p]). split; [reflexivity|].
    rewrite effects_app, Hef1. repeat split; try apply Hc1; try apply Hw1; assumption.
  - destruct n as [|n]; [lia|].
    assert (Hnone : le_popen (ie_launch e attempt) = None) by (apply Hfail; lia).
    destruct (run_streamlink_fails v (ie_launch e attempt) title name s Hnone)
      as (s1 & t1 & E1 & Hef1 & Hc1 & Hf1 & Hcur1).
    assert (Hmax1 : retry_count_max s1 = retry_count_max s) by apply Hc1.
    replace (attempt + S d)%nat with (S attempt + d)%nat in * by lia.
    destruct (IH n (S attempt) s1) as (s2 & t2 & E2 & Hef2 & Hc2 & Hf2 & Hcur2 & Hw2);
      try assumption; try lia.
    { intros j Hj. apply Hfail. lia. }
    cbn [launch_attempts]. rewrite (bind_ret_eq _ _ _ _ _ _ E1).
    unfold bind at 1. unfold gets at 1. unfold bind at 1. unfold log at 1, emit at 1.
    rewrite Hmax1, (signal_at_none e _ Hsig).
    assert (Elt : (Z.of_nat attempt <? retry_count_max s - 1) = true)
      by (apply Z.ltb_lt; lia).
    rewrite Elt. unfold bind at 1. rewrite time_sleep_none by lia.
    rewrite E2. eexists. eexists. split; [reflexivity|].
    rewrite !effects_app, Hef1, Hef2.
    repeat split; try (eapply core_eq_trans; eassumption); try apply Hw2;
      try congruence.
Qed.

(** In both classes the launch stops at the first attempt that succeeds.
    When the attempts before attempt [k] fail and attempt [k] starts process
    [p], with [k] below [retry_count_max], [handle_live_start] makes exactly
    [k] failed [Popen] calls, each followed by a sleep of 5 seconds, then the
    [Popen] that returns [p], starts the monitor thread for [p] and returns:
    [p] is the current process, no further attempt is made, and in
    [hosting.py] the session record says ['recording'] with the start time
    of that attempt. *)
Theorem launch_stops_at_first_success (v : variant) (e : iter_env) (s : recorder)
    (title : string) (name : json) (k : nat) (p : pid) :
  ie_signal e = None ->
  Z.of_nat k < retry_count_max s ->
  le_popen (ie_launch e k) = Some p ->
  (forall j, (j < k)%nat -> le_popen (ie_launch e j) = None) ->
  exists s' t,
    handle_live_start v e (JStr title) name s = (Ret tt, s', t) /\
    effects t = failed_attempts k ++ [EPopen (Some p); EThreadStart p] /\
    popens t = S k /\
    current_recording_process s' = Some p /\
    core_eq s s' /\ shutdown_flag s' = shutdown_flag s /\
    (v = Web ->
     recording_info s' !! "status" = Some (IStr "recording") /\
     recording_info s' !! "start_time" = Some (ITime (le_clock_start (ie_launch e k)))).
Proof.
  intros Hsig Hk Hok Hfail.
  destruct (launch_attempts_success v k (Z.to_nat (retry_count_max s)) 0 e title name s p)
    as (s' & t & E & Hef & Hc & Hf & Hcur & Hw); try assumption; try lia.
  { intros j Hj. apply Hfail. lia. }
  unfold handle_live_start, bind, log, emit, gets. rewrite E.
  eexists. eexists. split; [reflexivity|].
  match goal with
  | |- effects ?T = _ /\ _ =>
      assert (Heff : effects T = failed_attempts k ++ [EPopen (Some p); EThreadStart p])
  end.
  { rewrite !effects_app, Hef. reflexivity. }
  split; [exact Heff|].
  split.
  { assert (Hfa : forall m, popens (failed_attempts m) = m).
    { induction m as [|m IHm]; [reflexivity|].
      unfold popens in *. simpl. now rewrite IHm. }
    rewrite <- popens_effects, Heff, popens_app, Hfa. cbn. lia. }
  repeat split; try apply Hc; try apply Hw; assumption.
Qed.

Lemma launch_stops_at_first_success_witness :
  exists s' t,
    handle_live_start Web (calm live_query launch_third) (JStr "T1") (JStr "Ch1")
      default_recorder = (Ret tt, s', t) /\
    effects t = failed_attempts 2 ++ [EPopen (Some 42%nat); EThreadStart 42%nat] /\
    popens t = 3%nat /\
    current_recording_process s' = Some 42%nat /\
    core_eq default_recorder s' /\
    shutdown_flag s' = shutdown_flag default_recorder /\
    (Web = Web ->
     recording_info s' !! "status" = Some (IStr "recording") /\
     recording_info s' !! "start_time"
     = Some (ITime (le_clock_start (launch_third 2)))).
Proof.
  refine (launch_stops_at_first_success Web (calm live_query launch_third)
            default_recorder "T1" (JStr "Ch1") 2 42%nat eq_refl _ eq_refl _).
  - vm_compute. reflexivity.
  - intros j Hj. destruct j as [|[|j]]; [reflexivity|reflexivity|lia].
Defined.

(** ** Following a call to its outcome *)

Section Yields.
Context {St : Type}.

Lemma yields_ret {A} (a : A) (s : St) R X : R a s [] -> yields (ret a) s R X.
Proof. intros H; exact H. Qed.

Lemma yields_gets {A} (f : St -> A) (s : St) R X : R (f s) s [] -> yields (gets f) s R X.
Proof. intros H; exact H. Qed.

Lemma yields_emit ev (s : St) R X : R tt s [ev] -> yields (emit ev) s R X.
Proof. intros H; exact H. Qed.

Lemma yields_log l m (s : St) R X : R tt s [ELog l m] -> yields (log l m) s R X.
Proof. intros H; exact H. Qed.

Lemma yields_modify f (s : St) R X : R tt (f s) [] -> yields (modify f) s R X.
Proof. intros H; exact H. Qed.

Lemma yields_raise {A} x (s : St) (R : A -> St -> trace -> Prop) X :
  X x s [] -> yields (raise x) s R X.
Proof. intros H; exact H. Qed.

Lemma yields_bind {A B} (m : M St A) (k : A -> M St B) (s : St) R X :
  yields m s
    (fun a s1 t1 =>
       yields (k a) s1 (fun b s2 t2 => R b s2 (t1 ++ t2)) (fun x s2 t2 => X x s2 (t1 ++ t2)))
    X ->
  yields (bind m k) s R X.
Proof.
  unfold yields, bind. destruct (m s) as [[[a|x] s1] t1]; [|auto].
  destruct (k a s1) as [[[b|x] s2] t2]; auto.
Qed.

Lemma yields_try_except {A} (m : M St A) (h : exn -> M St A) (s : St) R X :
  yields m s R
    (fun x s1 t1 =>
       yields (h x) s1 (fun a s2 t2 => R a s2 (t1 ++ t2)) (fun y s2 t2 => X y s2 (t1 ++ t2))) ->
  yields (try_except m h) s R X.
Proof.
  unfold yields, try_except. destruct (m s) as [[[a|x] s1] t1]; [auto|].
  destruct (h x s1) as [[[b|y] s2] t2]; auto.
Qed.

Lemma yields_try_finally {A} (m : M St A) (f : M St unit) (s : St) R X :
  yields m s
    (fun a s1 t1 =>
       yields f s1 (fun _ s2 t2 => R a s2 (t1 ++ t2)) (fun y s2 t2 => X y s2 (t1 ++ t2)))
    (fun x s1 t1 =>
       yields f s1 (fun _ s2 t2 => X x s2 (t1 ++ t2)) (fun y s2 t2 => X y s2 (t1 ++ t2))) ->
  yields (try_finally m f) s R X.
Proof.
  unfold yields, try_finally. destruct (m s) as [[[a|x] s1] t1];
    destruct (f s1) as [[[b|y] s2] t2]; auto.
Qed.

Lemma yields_weaken {A} (m : M St A) (s : St) (R R' : A -> St -> trace -> Prop)
    (X X' : exn -> St -> trace -> Prop) :
  yields m s R X ->
  (forall a s' t, R a s' t -> R' a s' t) ->
  (forall x s' t, X x s' t -> X' x s' t) ->
  yields m s R' X'.
Proof.
  unfold yields. destruct (m s) as [[[a|x] s1] t1]; auto.
Qed.

End Yields.

Lemma yields_interrupt (o : option stop_env) s R X :
  (o = None -> R tt s []) ->
  (forall se, o = Some se ->
              X (SystemExit 0) (set_shutdown_flag true s)
                (handler_trace se (current_recording_process s))) ->
  yields (interrupt o) s R X.
Proof.
  intros H1 H2. unfold yields. destruct o as [se|].
  - rewrite interrupt_some. now apply H2.
  - rewrite interrupt_none. now apply H1.
Qed.

Lemma yields_time_sleep (o : option stop_env) n s R X :
  (n < - max_sleep \/ max_sleep < n -> X OverflowError s []) ->
  (- max_sleep <= n < 0 -> X ValueError s []) ->
  (sleepable n -> o = None -> R tt s [ESleep n]) ->
  (sleepable n -> forall se, o = Some se ->
                             X (SystemExit 0) (set_shutdown_flag true s)
                               (ESleep n :: handler_trace se (current_recording_process s))) ->
  yields (time_sleep o n) s R X.
Proof.
  intros H0 H1 H2 H3. unfold yields.
  destruct (Z_lt_le_dec n 0) as [Hn|Hn]; [|destruct (Z_le_gt_dec n max_sleep) as [Hm|Hm]].
  - unfold time_sleep.
    destruct (n <? - max_sleep) eqn:E1.
    { apply H0. apply Z.ltb_lt in E1. lia. }
    destruct (max_sleep <? n) eqn:E2; [apply Z.ltb_lt in E2; lia|].
    apply Z.ltb_ge in E1. cbn [orb].
    destruct (n <? 0) eqn:E3; [|apply Z.ltb_ge in E3; lia].
    apply H1. lia.
  - destruct o as [se|].
    + rewrite time_sleep_some by lia. apply H3; [lia|reflexivity].
    + rewrite time_sleep_none by lia. apply H2; [lia|reflexivity].
  - unfold time_sleep.
    destruct (n <? - max_sleep) eqn:E1; [apply H0; lia|].
    destruct (max_sleep <? n) eqn:E2; [apply H0; lia|].
    apply Z.ltb_ge in E2. lia.
Qed.

Lemma yields_get_live_info (q : query_outcome) (o : option stop_env) s R X :
  (o = None -> R (live_info q) s (query_trace q)) ->
  (forall se, o = Some se ->
              X (SystemExit 0) (set_shutdown_flag true s)
                (EHttpGet 10 :: handler_trace se (current_recording_process s))) ->
  yields (get_live_info q o) s R X.
Proof.
  intros H1 H2. unfold yields. destruct o as [se|].
  - rewrite get_live_info_some. now apply H2.
  - rewrite get_live_info_none. now apply H1.
Qed.

(** One step along the code. *)
Ltac step_code :=
  lazymatch goal with
  | |- yields (bind _ _) _ _ _ => apply yields_bind
  | |- yields (ret _) _ _ _ => apply yields_ret
  | |- yields (gets _) _ _ _ => apply yields_gets
  | |- yields (modify _) _ _ _ => apply yields_modify
  | |- yields (log _ _) _ _ _ => apply yields_log
  | |- yields (emit _) _ _ _ => apply yields_emit
  | |- yields (raise _) _ _ _ => apply yields_raise
  | |- yields (try_except _ _) _ _ _ => apply yields_try_except
  | |- yields (try_finally _ _) _ _ _ => apply yields_try_finally
  | |- yields (interrupt _) _ _ _ => apply yields_interrupt; [intros ?|intros ? ?]
  | |- yields (time_sleep _ _) _ _ _ =>
      apply yields_time_sleep; [intros ?|intros ?|intros ? ?|intros ? ? ?]
  | |- yields (get_live_info _ _) _ _ _ =>
      apply yields_get_live_info; [intros ?|intros ? ?]
  | |- yields (web_only ?v _) _ _ _ => unfold web_only; destruct v
  | |- yields (if ?b then _ else _) _ _ _ =>
      first [progress cbn [is_Exception is_RequestException] | destruct b eqn:?]
  | |- yields (match ?x with _ => _ end) _ _ _ => destruct x eqn:?
  end.

Ltac step := first [progress cbv beta iota | step_code].

(** A call whose outcome is known from a lemma. *)
Ltac use L :=
  eapply yields_weaken; [eapply L | cbv beta; intros ? ? ? ? | cbv beta; intros ? ? ? ?].

(** ** The session record of [hosting.py] *)

Ltac in_step_leaf :=
  unfold in_step in *; cbn in *; intros; try congruence; try reflexivity; auto.

Lemma run_streamlink_in_step (le : launch_env) (title name : json) (s : recorder) :
  yields (run_streamlink Web le title name) s
    (fun _ s' _ => in_step s') (fun _ s' _ => in_step s').
Proof. unfold run_streamlink. repeat step. all: in_step_leaf. Qed.

Lemma launch_attempts_in_step (n a : nat) (e : iter_env) (title name : json) :
  keeps_in_step (launch_attempts Web n a e title name).
Proof.
  revert a. induction n as [|n IH]; intros a s Hs; cbn [launch_attempts].
  - step. exact Hs.
  - step. use run_streamlink_in_step; [|assumption].
    repeat step; try (use IH); in_step_leaf.
Qed.

Lemma monitor_recording_in_step (r : monitor_report) :
  keeps_in_step (monitor_recording Web r).
Proof. intros s Hs. unfold monitor_recording. repeat step. all: in_step_leaf. Qed.

Lemma stop_recording_in_step (se : stop_env) (clock : Z) :
  keeps_in_step (stop_recording se clock).
Proof.
  intros s Hs. unfold stop_recording, terminate, wait_timeout, kill.
  repeat step. all: in_step_leaf.
Qed.

Lemma signal_handler_in_step (se : stop_env) : keeps_in_step (_signal_handler se).
Proof.
  intros s Hs. unfold yields. rewrite signal_handler_eq. in_step_leaf.
Qed.

Lemma poll_in_step (e : iter_env) : keeps_in_step (poll Web e).
Proof.
  intros s Hs.
  unfold poll, iteration, loop_body, handle_live_start, handle_live_end,
    check_recording_status.
  repeat (step || (use launch_attempts_in_step) || (use monitor_recording_in_step)).
  all: in_step_leaf.
Qed.

Lemma loop_in_step (envs : list iter_env) (s : recorder) :
  in_step s -> in_step (snd (fst (check_stream_loop Web envs s))).
Proof.
  revert s. induction envs as [|e rest IH]; intros s Hs; [exact Hs|].
  cbn [check_stream_loop]. destruct (shutdown_flag s); [exact Hs|].
  pose proof (poll_in_step e s Hs) as H. unfold yields in H.
  destruct (poll Web e s) as [[[[]|x] s1] t1]; try exact H.
  specialize (IH s1 H).
  destruct (check_stream_loop Web rest s1) as [[r s2] ts]. exact IH.
Qed.

Lemma get_status_result (q : query_outcome) (s : recorder) :
  result_of (get_status q s) = Ret (status_dict (live_info q) s).
Proof.
  unfold get_status, bind. rewrite get_live_info_none.
  destruct (live_info q) as [[status title] name]. reflexivity.
Qed.

Lemma status_in_step (q : query_outcome) (s : recorder) :
  in_step s ->
  exists d,
    result_of (get_status q s) = Ret d /\
    (Status.is_recording d = true -> Status.recording_status d = IStr "recording").
Proof.
  intros Hs. exists (status_dict (live_info q) s).
  split; [apply get_status_result|].
  unfold status_dict, in_step in *. cbn.
  destruct (current_recording_process s); [|discriminate].
  intros _. rewrite Hs; [reflexivity|discriminate].
Qed.

(** In [hosting.py], what [get_status] reports about the recording is
    coherent: whenever it says [is_recording], its [recording_status] is
    ['recording'].  This holds after any number of passes of the loop, the
    monitor thread's writes included, however the run ends, and after a
    [stop_recording] that follows; a fresh recorder starts that way.  (The
    converse fails: after a launch whose attempts all failed the status is
    still ['recording'] with no process.) *)
Theorem dashboard_recording_is_coherent (envs : list iter_env) (s : recorder)
    (se : stop_env) (clock : Z) (q : query_outcome) :
  in_step s ->
  let s1 := snd (fst (check_stream_loop Web envs s)) in
  let s2 := state_of (stop_recording se clock s1) in
  (exists d,
      result_of (get_status q s1) = Ret d /\
      (Status.is_recording d = true -> Status.recording_status d = IStr "recording")) /\
  (exists d,
      result_of (get_status q s2) = Ret d /\
      Status.is_recording d = false) /\
  in_step s1 /\ in_step s2.
Proof.
  intros Hs s1 s2.
  assert (H1 : in_step s1) by now apply loop_in_step.
  assert (H2 : in_step s2).
  { pose proof (stop_recording_in_step se clock s1 H1) as H. unfold yields in H.
    subst s2. unfold state_of.
    destruct (stop_recording se clock s1) as [[[a|x] s'] t]; exact H. }
  split; [now apply status_in_step|]. split; [|split; assumption].
  exists (status_dict (live_info q) s2). split; [apply get_status_result|].
  subst s2. destruct (current_recording_process s1) as [p|] eqn:Hp.
  - rewrite (stop_recording_some se clock s1 p Hp). reflexivity.
  - rewrite (stop_recording_none se clock s1 Hp).
    unfold status_dict, state_of. cbn. now rewrite Hp.
Qed.

Lemma dashboard_recording_is_coherent_witness :
  let s1 := snd (fst (check_stream_loop Web scenario_a default_recorder)) in
  let s2 := state_of (stop_recording obedient 5 s1) in
  (exists d,
      result_of (get_status live_query s1) = Ret d /\
      (Status.is_recording d = true -> Status.recording_status d = IStr "recording")) /\
  (exists d,
      result_of (get_status live_query s2) = Ret d /\
      Status.is_recording d = false) /\
  in_step s1 /\ in_step s2.
Proof.
  apply (dashboard_recording_is_coherent scenario_a default_recorder obedient 5 live_query).
  intros H. contradiction H. reflexivity.
Defined.

(** ** One recording at a time *)

Lemma started_app (a b : trace) : started (a ++ b) = (started a + started b)%nat.
Proof. unfold started. now rewrite List.filter_app, List.length_app. Qed.

Lemma started_cons (ev : event) (t : trace) :
  started (ev :: t) = ((if is_started ev then 1 else 0) + started t)%nat.
Proof. unfold started. simpl. now destruct (is_started ev). Qed.

Lemma started_le_popens (t : trace) : (started t <= popens t)%nat.
Proof.
  unfold started, popens. induction t as [|ev t IH]; [reflexivity|].
  destruct ev as [| |[p|]| | | | | |]; simpl; lia.
Qed.

Lemma started_query_trace (q : query_outcome) : started (query_trace q) = 0%nat.
Proof.
  pose proof (started_le_popens (query_trace q)) as H.
  rewrite <- popens_effects, query_trace_effects in H. cbn in H. lia.
Qed.

Lemma started_handler_trace (se : stop_env) (cur : option pid) :
  started (handler_trace se cur) = 0%nat.
Proof.
  destruct cur as [p|]; [|reflexivity].
  destruct se as [[] []]; reflexivity.
Qed.

Ltac started_leaf :=
  cbv beta; intros;
  repeat match goal with H : _ /\ _ |- _ => destruct H end;
  repeat split; try discriminate; try reflexivity; try assumption;
  rewrite ?started_app, ?started_cons, ?started_query_trace, ?started_handler_trace;
  cbn [is_started started List.filter length]; try lia.


Lemma run_streamlink_starts (v : variant) (le : launch_env) (title name : json)
    (s : recorder) :
  yields (run_streamlink v le title name) s
    (fun r _ t => started t = match r with Some _ => 1%nat | None => 0%nat end)
    (fun _ _ _ => False).
Proof. unfold run_streamlink. repeat step. all: started_leaf. Qed.

(** A launch starts at most one process, and only a signal ends it by an
    exception. *)
Lemma launch_attempts_starts_one (v : variant) (n a : nat) (e : iter_env)
    (title name : json) (s : recorder) :
  yields (launch_attempts v n a e title name) s
    (fun _ _ t => (started t <= 1)%nat)
    (fun x _ t => x = SystemExit 0 /\ started t = 0%nat).
Proof.
  revert a s. induction n as [|n IH]; intros a s; cbn [launch_attempts].
  - step. cbn. lia.
  - step. use run_streamlink_starts; [|contradiction].
    repeat step; try (use IH); started_leaf.
Qed.









(** ** The rhythm of the loop *)

Lemma queries_app (a b : trace) : queries (a ++ b) = (queries a + queries b)%nat.
Proof. unfold queries. now rewrite List.filter_app, List.length_app. Qed.

Lemma queries_cons (ev : event) (t : trace) :
  queries (ev :: t) = ((if is_query ev then 1 else 0) + queries t)%nat.
Proof. unfold queries. simpl. now destruct (is_query ev). Qed.

Lemma queries_effects (t : trace) : queries (effects t) = queries t.
Proof.
  unfold queries, effects. induction t as [|ev t IH]; [reflexivity|].
  destruct ev; simpl; auto.
Qed.

Lemma queries_query_trace (q : query_outcome) : queries (query_trace q) = 1%nat.
Proof. now rewrite <- queries_effects, query_trace_effects. Qed.

Lemma queries_handler_trace (se : stop_env) (cur : option pid) :
  queries (handler_trace se cur) = 0%nat.
Proof.
  destruct cur as [p|]; [|reflexivity].
  destruct se as [[] []]; reflexivity.
Qed.

Ltac queries_leaf :=
  cbv beta; intros;
  repeat match goal with H : _ /\ _ |- _ => destruct H end;
  repeat split; try discriminate; try reflexivity; try assumption;
  rewrite ?queries_app, ?queries_cons, ?queries_query_trace, ?queries_handler_trace;
  cbn [is_query queries List.filter length]; try lia.

Lemma run_streamlink_no_query (v : variant) (le : launch_env) (title name : json)
    (s : recorder) :
  yields (run_streamlink v le title name) s
    (fun _ _ t => queries t = 0%nat) (fun _ _ _ => False).
Proof. unfold run_streamlink. repeat step. all: queries_leaf. Qed.

Lemma launch_attempts_no_query (v : variant) (n a : nat) (e : iter_env)
    (title name : json) (s : recorder) :
  yields (launch_attempts v n a e title name) s
    (fun _ _ t => queries t = 0%nat) (fun _ _ t => queries t = 0%nat).
Proof.
  revert a s. induction n as [|n IH]; intros a s; cbn [launch_attempts].
  - step. reflexivity.
  - step. use run_streamlink_no_query; [|contradiction].
    repeat step; try (use IH); queries_leaf.
Qed.

Lemma monitor_recording_no_query (v : variant) (r : monitor_report) (s : recorder) :
  yields (monitor_recording v r) s
    (fun _ s' t => queries t = 0%nat /\ check_interval s' = check_interval s)
    (fun _ _ _ => False).
Proof.
  unfold monitor_recording. repeat step.
  all: cbn; repeat split; reflexivity.
Qed.

(** Every pass sends exactly one status query, however it ends. *)
Lemma poll_one_query (v : variant) (e : iter_env) (s : recorder) :
  yields (poll v e) s (fun _ _ t => queries t = 1%nat) (fun _ _ t => queries t = 1%nat).
Proof.
  unfold poll, iteration, loop_body, handle_live_start, handle_live_end,
    check_recording_status.
  repeat (step || (use launch_attempts_no_query) || (use monitor_recording_no_query)).
  all: queries_leaf.
Qed.


Lemma sleep_last_app (d : Z) (a b : trace) :
  (exists x, b = x ++ [ESleep d]) -> exists x, a ++ b = x ++ [ESleep d].
Proof. intros [x ->]. exists (a ++ x). now rewrite List.app_assoc. Qed.

Lemma sleep_last_cons (d : Z) (ev : event) (b : trace) :
  (exists x, b = x ++ [ESleep d]) -> exists x, ev :: b = x ++ [ESleep d].
Proof. intros [x ->]. now exists (ev :: x). Qed.

Lemma sleep_last_one (d : Z) : exists x, [ESleep d] = x ++ [ESleep d].
Proof. now exists []. Qed.

Ltac pause_leaf :=
  cbv beta; intros;
  repeat match goal with H : _ /\ _ |- _ => destruct H end;
  try exact I; try contradiction; try discriminate; try lia;
  try (match goal with
       | Hp : live_info _ = (?st, _, _), Hb : is_open ?st = _ |- ends_with_sleep _ _ =>
           unfold ends_with_sleep, pause, is_live, status_of;
           rewrite Hp; cbn [fst snd]; rewrite Hb
       end;
       cbn [check_interval set_current_recording_process set_retry_count
              set_last_status] in *;
       rewrite ?effects_app, ?query_trace_effects;
       cbn [effects List.filter is_log negb app];
       rewrite ?List.app_nil_r;
       repeat match goal with
              | H : check_interval _ = check_interval _ |- _ => rewrite H in *
              end;
       try match goal with
           | |- context [0 <=? check_interval ?s] =>
               destruct (Z.leb_spec 0 (check_interval s));
               destruct (Z.leb_spec (check_interval s) max_sleep);
               cbn [andb]; try lia
           end;
       repeat first [apply sleep_last_one | apply sleep_last_app | apply sleep_last_cons]).

(** A pass that lets the loop go on ends with its sleep. *)
Lemma poll_pause (v : variant) (e : iter_env) (s : recorder) :
  yields (poll v e) s
    (fun c _ t => c = Continue -> ends_with_sleep (pause e s) t)
    (fun _ _ _ => True).
Proof.
  unfold poll, iteration, loop_body, handle_live_start, handle_live_end,
    check_recording_status.
  repeat (step || (use launch_attempts_starts_one; [|destruct_and?; subst])
          || (use monitor_recording_no_query)).
  all: pause_leaf.
Qed.

(** In both classes every pass of the loop sends exactly one status query,
    however it ends, and a pass after which the loop goes on has a sleep as
    its last call: 10 seconds after a live poll; after any other poll
    [check_interval] seconds when [time.sleep] accepts that length, and 30
    seconds when it refuses it and the pass ends in the error clause. *)
Theorem pass_queries_once_then_sleeps (v : variant) (e : iter_env) (s : recorder) :
  queries (trace_of (poll v e s)) = 1%nat /\
  forall s1 t1,
    poll v e s = (Ret Continue, s1, t1) -> ends_with_sleep (pause e s) t1.
Proof.
  pose proof (poll_pause v e s) as Hp.
  pose proof (poll_one_query v e s) as Hq.
  unfold yields in Hp, Hq. unfold trace_of.
  destruct (poll v e s) as [[[c|x] s1] t1]; (split; [exact Hq|]).
  - intros s1' t1' [= -> -> ->]. now apply Hp.
  - discriminate.
Qed.

Lemma pass_queries_once_then_sleeps_witness :
  exists s1 t1,
    poll Console (calm offline_query launch_ok) default_recorder = (Ret Continue, s1, t1) /\
    queries t1 = 1%nat /\
    ends_with_sleep (pause (calm offline_query launch_ok) default_recorder) t1.
Proof.
  pose proof (pass_queries_once_then_sleeps Console (calm offline_query launch_ok)
                default_recorder) as [Hq Hs].
  exists (state_of (poll Console (calm offline_query launch_ok) default_recorder)),
    (trace_of (poll Console (calm offline_query launch_ok) default_recorder)).
  split; [vm_compute; reflexivity|]. split; [exact Hq|].
  apply (Hs (state_of (poll Console (calm offline_query launch_ok) default_recorder))).
  vm_compute. reflexivity.
Defined.

(** ** How [start] ends *)

Lemma loop_propagates_exit_only (v : variant) (envs : list iter_env) (s : recorder)
    (x : exn) :
  fst (fst (check_stream_loop v envs s)) = Propagated x -> x = SystemExit 0.
Proof.
  revert s. induction envs as [|e rest IH]; intros s; cbn [check_stream_loop].
  - discriminate.
  - destruct (shutdown_flag s); [discriminate|].
    pose proof (poll_any v e s) as Hp.
    destruct (poll v e s) as [[[[]|y] s1] t1] eqn:Ep.
    + specialize (IH s1). destruct (check_stream_loop v rest s1) as [[r s2] ts].
      exact IH.
    + discriminate.
    + cbn. intros [= <-].
      destruct Hp as (_ & _ & _ & Hr). unfold result_of in Hr. cbn in Hr.
      apply Hr.
Qed.

(** In both classes [start] ends the process with exit status 1 exactly when
    [check_dependencies] has failed, and then without a single pass of the
    loop.  Once the loop runs, no exception other than the signal handler's
    [SystemExit(0)] leaves [check_stream]: the process is still polling or
    ends with exit status 0, and the clause of [start] that logs a fatal
    error and exits with status 1 is never entered. *)
Theorem start_exits_1_only_on_dependencies (v : variant) (deps_ok : bool)
    (envs : list iter_env) (s : recorder) :
  (fst (fst (start v deps_ok envs s)) = ExitCode 1 <-> deps_ok = false) /\
  (deps_ok = false ->
   snd (fst (start v deps_ok envs s)) = s /\
   Forall (fun t => effects t = []) (snd (start v deps_ok envs s))) /\
  (deps_ok = true ->
   fst (fst (start v deps_ok envs s)) = Running \/
   fst (fst (start v deps_ok envs s)) = ExitCode 0).
Proof.
  assert (Hok : fst (fst (start v true envs s)) = Running \/
                fst (fst (start v true envs s)) = ExitCode 0).
  { unfold start, check_stream. cbn [negb].
    pose proof (loop_propagates_exit_only v envs (set_retry_count 0 s)) as Hx.
    destruct (check_stream_loop v envs (set_retry_count 0 s)) as [[r s1] ts].
    cbn [fst] in Hx. destruct r as [| |x]; [left; reflexivity|right; reflexivity|].
    rewrite (Hx x eq_refl). right. reflexivity. }
  destruct deps_ok.
  - split; [|split].
    + split; [|discriminate]. intros H. destruct Hok as [Hr|Hr]; congruence.
    + discriminate.
    + intros _. exact Hok.
  - split; [|split].
    + split; reflexivity.
    + intros _. split; [reflexivity|]. repeat constructor.
    + discriminate.
Qed.

(** ** The script [callisto.py], whatever the polls answer *)

Lemma yields_global {A} (m : M recorder A) (f : Callisto.frame) R X :
  yields m (fst f) (fun a g t => R a (g, snd f) t) (fun x g t => X x (g, snd f) t) ->
  yields (Callisto.global m) f R X.
Proof.
  unfold yields, Callisto.global. destruct (m (fst f)) as [[[a|x] g] t]; auto.
Qed.

Lemma yields_local {A} (h : Callisto.locals -> A) (f : Callisto.frame) R X :
  R (h (snd f)) f [] -> yields (Callisto.local h) f R X.
Proof. intros H; exact H. Qed.

Lemma yields_assign (h : Callisto.locals -> Callisto.locals) (f : Callisto.frame) R X :
  R tt (fst f, h (snd f)) [] -> yields (Callisto.assign h) f R X.
Proof. intros H; exact H. Qed.

Ltac step_frame :=
  lazymatch goal with
  | |- yields (Callisto.global _) _ _ _ => apply yields_global; cbn [fst snd]
  | |- yields (Callisto.local _) _ _ _ => apply yields_local; cbn [fst snd]
  | |- yields (Callisto.assign _) _ _ _ => apply yields_assign; cbn [fst snd]
  | |- yields Callisto.read_current_recording_process _ _ _ =>
      unfold Callisto.read_current_recording_process
  end.

Lemma checks_app (a b : trace) : checks (a ++ b) = (checks a + checks b)%nat.
Proof. unfold checks. now rewrite List.filter_app, List.length_app. Qed.

Lemma checks_cons (ev : event) (t : trace) :
  checks (ev :: t) = ((if is_check ev then 1 else 0) + checks t)%nat.
Proof. unfold checks. simpl. now destruct (is_check ev). Qed.

Lemma checks_effects (t : trace) : checks (effects t) = checks t.
Proof.
  unfold checks, effects. induction t as [|ev t IH]; [reflexivity|].
  destruct ev as [| | | | | |p [z|]| |]; simpl; auto.
Qed.

Lemma checks_query_trace (q : query_outcome) : checks (query_trace q) = 0%nat.
Proof. now rewrite <- checks_effects, query_trace_effects. Qed.

Lemma checks_handler_trace (se : stop_env) (cur : option pid) :
  checks (handler_trace se cur) = 0%nat.
Proof.
  destruct cur as [p|]; [|reflexivity].
  destruct se as [[] []]; reflexivity.
Qed.

Lemma live_starts_cons (ev : event) (t : trace) :
  live_starts (ev :: t) = ((if is_live_start ev then 1 else 0) + live_starts t)%nat.
Proof. unfold live_starts. simpl. now destruct (is_live_start ev). Qed.

Lemma live_starts_query_trace (q : query_outcome) : live_starts (query_trace q) = 0%nat.
Proof.
  destruct (no_launch_counts (query_trace q)) as [H _]; [|exact H].
  apply (query_trace_ok not_launch not_launch_other).
Qed.

Lemma live_starts_handler_trace (se : stop_env) (cur : option pid) :
  live_starts (handler_trace se cur) = 0%nat.
Proof.
  destruct cur as [p|]; [|reflexivity].
  destruct se as [[] []]; reflexivity.
Qed.

Ltac count_leaf :=
  cbv beta; intros;
  repeat match goal with H : _ /\ _ |- _ => destruct H end;
  try contradiction; try discriminate;
  repeat split; try reflexivity; try assumption;
  rewrite ?checks_app, ?checks_cons, ?checks_query_trace, ?checks_handler_trace,
    ?live_starts_app, ?live_starts_cons, ?live_starts_query_trace,
    ?live_starts_handler_trace;
  cbn [is_check is_live_start checks live_starts List.filter length]; try lia.

Lemma run_streamlink_quiet (v : variant) (le : launch_env) (title name : json)
    (s : recorder) :
  yields (run_streamlink v le title name) s
    (fun _ s' t =>
       checks t = 0%nat /\ live_starts t = 0%nat /\ shutdown_flag s' = shutdown_flag s)
    (fun _ _ _ => False).
Proof. unfold run_streamlink. repeat step. all: count_leaf. Qed.

Lemma launch_attempts_quiet (v : variant) (n a : nat) (e : iter_env)
    (title name : json) (s : recorder) :
  yields (launch_attempts v n a e title name) s
    (fun _ s' t =>
       checks t = 0%nat /\ live_starts t = 0%nat /\ shutdown_flag s' = shutdown_flag s)
    (fun _ _ t =>
       checks t = 0%nat /\ live_starts t = 0%nat /\ ie_signal e <> None).
Proof.
  revert a s. induction n as [|n IH]; intros a s; cbn [launch_attempts].
  - step. count_leaf.
  - step. use run_streamlink_quiet; [|contradiction].
    repeat step; try (use IH); count_leaf.
    all: try (cbn in *; congruence).
    all: intros Hn; rewrite (signal_at_none _ _ Hn) in *; discriminate.
Qed.

Lemma monitor_recording_quiet (v : variant) (r : monitor_report) (s : recorder) :
  yields (monitor_recording v r) s
    (fun _ s' t =>
       checks t = 0%nat /\ live_starts t = 0%nat /\ shutdown_flag s' = shutdown_flag s)
    (fun _ _ _ => False).
Proof. unfold monitor_recording. repeat step. all: count_leaf. Qed.

Ltac walk_frame v :=
  unfold Callisto.poll, Callisto.iteration, Callisto.loop_body;
  repeat (step || step_frame || (use (launch_attempts_quiet v))
          || (use (monitor_recording_quiet v))).

Ltac frame_leaf :=
  cbv beta; intros; unfold unbound in *;
  cbn [fst snd Callisto.l_current_recording_process Callisto.l_last_status
         Callisto.l_retry_count Callisto.set_l_retry_count Callisto.set_l_last_status
         Callisto.set_l_current_recording_process] in *;
  repeat match goal with H : _ /\ _ |- _ => destruct H end;
  try contradiction; try congruence; try lia;
  repeat split; try assumption; try congruence; try lia;
  rewrite ?checks_app, ?checks_cons, ?checks_query_trace, ?checks_handler_trace,
    ?live_starts_app, ?live_starts_cons, ?live_starts_query_trace,
    ?live_starts_handler_trace;
  cbn [is_check is_live_start checks live_starts List.filter length]; try lia.

(** Every pass of the script leaves the local [current_recording_process]
    unbound and the local [last_status] not ['OPEN'], and looks at no
    recording process. *)
Lemma callisto_poll_unbound (e : iter_env) (f : Callisto.frame) :
  unbound f ->
  yields (Callisto.poll e) f
    (fun _ f' t => unbound f' /\ checks t = 0%nat)
    (fun _ f' t => unbound f' /\ checks t = 0%nat).
Proof.
  destruct f as [g l]. intros (Hc & Ho & Hr). cbn [fst snd] in *. walk_frame Console.
  all: frame_leaf.
Qed.

Ltac live_leaf Hsig :=
  cbv beta; intros;
  cbn [fst snd Callisto.l_current_recording_process Callisto.l_last_status
         Callisto.l_retry_count Callisto.set_l_retry_count Callisto.set_l_last_status
         Callisto.set_l_current_recording_process] in *;
  repeat match goal with H : _ /\ _ |- _ => destruct H end;
  try contradiction; try congruence; try lia;
  try (rewrite (signal_at_none _ _ Hsig) in *; discriminate);
  try match goal with
      | H1 : is_open ?x = false, H2 : negb (is_open ?x) = false |- _ =>
          rewrite H1 in H2; discriminate
      end;
  repeat match goal with H : (_ <=? _) = _ |- _ => rewrite H end;
  repeat split; try assumption; try congruence; try lia;
  rewrite ?live_starts_app, ?live_starts_cons, ?live_starts_query_trace,
    ?live_starts_handler_trace;
  cbn [is_live_start live_starts List.filter length]; try lia.

(** A live poll of the script, without a signal: the launch block is
    entered, the read of the unbound local raises, and the pass is counted
    as an error. *)
Lemma callisto_live_poll (e : iter_env) (f : Callisto.frame) :
  ie_signal e = None -> is_live e = true -> unbound f ->
  yields (Callisto.poll e) f
    (fun c f' t =>
       Callisto.l_retry_count (snd f') = Callisto.l_retry_count (snd f) + 1 /\
       c = (if 5 <=? Callisto.l_retry_count (snd f) + 1 then Break else Continue) /\
       live_starts t = 1%nat /\
       shutdown_flag (fst f') = shutdown_flag (fst f))
    (fun _ _ _ => False).
Proof.
  destruct f as [g l]. intros Hsig Hl (Hc & Ho & Hr). cbn [fst snd] in *.
  unfold is_live, status_of in Hl.
  walk_frame Console.
  all: live_leaf Hsig.
Qed.

(** A pass after which the loop goes on leaves the counter below 5. *)
Lemma callisto_poll_counter (e : iter_env) (f : Callisto.frame) :
  yields (Callisto.poll e) f
    (fun c f' _ => c = Continue -> Callisto.l_retry_count (snd f') < 5)
    (fun _ _ _ => True).
Proof.
  destruct f as [g l]. walk_frame Console.
  all: cbv beta; intros; try exact I; try discriminate;
    cbn [fst snd Callisto.l_retry_count Callisto.set_l_retry_count
           Callisto.set_l_last_status Callisto.set_l_current_recording_process] in *;
    try lia.
Qed.

(** Pass [k] of a run of the script, and the frame it starts from. *)
Lemma callisto_loop_pass (envs : list iter_env) (f : Callisto.frame) (k : nat)
    (t : trace) :
  unbound f ->
  nth_error (snd (Callisto.check_stream_loop envs f)) k = Some t ->
  exists e fk,
    nth_error envs k = Some e /\ unbound fk /\ t = trace_of (Callisto.poll e fk).
Proof.
  revert f k. induction envs as [|e rest IH]; intros f k Hf Hk.
  - destruct k; discriminate.
  - cbn [Callisto.check_stream_loop] in Hk.
    destruct (shutdown_flag (fst f)); [destruct k; discriminate|].
    pose proof (callisto_poll_unbound e f Hf) as Hu. unfold yields in Hu.
    destruct k as [|k].
    + exists e, f. split; [reflexivity|]. split; [exact Hf|]. unfold trace_of.
      destruct (Callisto.poll e f) as [[[[]|x] f1] t1]; cbn [snd] in *.
      * destruct (Callisto.check_stream_loop rest f1) as [[r f2] ts].
        cbn [snd nth_error] in Hk. congruence.
      * cbn [nth_error] in Hk. congruence.
      * cbn [nth_error] in Hk. congruence.
    + destruct (Callisto.poll e f) as [[[[]|x] f1] t1].
      * destruct Hu as [Hu _].
        destruct (Callisto.check_stream_loop rest f1) as [[r f2] ts] eqn:El.
        cbn [snd nth_error] in Hk.
        destruct (IH f1 k Hu) as (e' & fk & He' & Hfk & Ht).
        { rewrite El. exact Hk. }
        exists e', fk. split; [exact He'|]. split; assumption.
      * cbn in Hk. destruct k; discriminate.
      * cbn in Hk. destruct k; discriminate.
Qed.

(** In [callisto.py] the local [current_recording_process] of
    [check_stream] is never bound, so for every sequence of polls: no pass
    ever calls [poll()] on the recording process or waits for it to finish,
    and every live poll that no signal interrupts enters a launch, whether
    the poll before it was live or not.  (In the two classes a launch is
    entered on a live edge only.) *)
Theorem callisto_relaunches_on_every_live_poll (envs : list iter_env) (g : recorder)
    (k : nat) (e : iter_env) (t : trace) :
  nth_error envs k = Some e ->
  nth_error (snd (Callisto.check_stream envs g)) k = Some t ->
  is_live e = true -> ie_signal e = None ->
  live_starts t = 1%nat /\
  Forall (fun t' => checks t' = 0%nat) (snd (Callisto.check_stream envs g)).
Proof.
  intros He Hk Hl Hsig. unfold Callisto.check_stream in *.
  match type of Hk with
  | nth_error (snd (Callisto.check_stream_loop _ ?f0)) _ = _ => set (f := f0) in *
  end.
  assert (Hf : unbound f).
  { split; [reflexivity|]. split; [reflexivity|]. cbn. lia. }
  split.
  - destruct (callisto_loop_pass envs f k t Hf Hk) as (e' & fk & He' & Hfk & Ht).
    assert (e' = e) by congruence. subst e' t.
    pose proof (callisto_live_poll e fk Hsig Hl Hfk) as Hu. unfold yields in Hu.
    unfold trace_of. destruct (Callisto.poll e fk) as [[[c|x] f1] t1];
      [apply Hu|contradiction].
  - apply List.Forall_forall. intros t' Hin.
    destruct (List.In_nth_error _ _ Hin) as [k' Hk'].
    destruct (callisto_loop_pass envs f k' t' Hf Hk') as (e' & fk & _ & Hfk & ->).
    pose proof (callisto_poll_unbound e' fk Hfk) as Hu. unfold yields in Hu.
    unfold trace_of. destruct (Callisto.poll e' fk) as [[[c|x] f1] t1]; apply Hu.
Qed.

Lemma callisto_relaunches_on_every_live_poll_witness :
  live_starts (nth 3 (snd (Callisto.check_stream scenario_a default_recorder)) [])
  = 1%nat /\
  Forall (fun t' => checks t' = 0%nat)
    (snd (Callisto.check_stream scenario_a default_recorder)).
Proof.
  exact (callisto_relaunches_on_every_live_poll scenario_a default_recorder 3
           (calm live_query launch_ok)
           (nth 3 (snd (Callisto.check_stream scenario_a default_recorder)) [])
           eq_refl eq_refl eq_refl eq_refl).
Defined.

Lemma callisto_loop_split (a b : list iter_env) (f : Callisto.frame) :
  fst (fst (Callisto.check_stream_loop (a ++ b) f))
  = match fst (fst (Callisto.check_stream_loop a f)) with
    | Polling =>
        fst (fst (Callisto.check_stream_loop b
                    (snd (fst (Callisto.check_stream_loop a f)))))
    | r => r
    end.
Proof.
  revert f. induction a as [|e a IH]; intros f; [reflexivity|].
  cbn [app Callisto.check_stream_loop].
  destruct (shutdown_flag (fst f)); [reflexivity|].
  destruct (Callisto.poll e f) as [[[[]|x] f1] t1]; try reflexivity.
  specialize (IH f1).
  destruct (Callisto.check_stream_loop (a ++ b) f1) as [[r2 f2] ts2].
  destruct (Callisto.check_stream_loop a f1) as [[r3 f3] ts3].
  exact IH.
Qed.

(** A frame the loop is still polling with: the locals as every pass leaves
    them, and a counter below 5. *)
Lemma callisto_loop_polling (envs : list iter_env) (f : Callisto.frame) :
  unbound f -> Callisto.l_retry_count (snd f) < 5 ->
  fst (fst (Callisto.check_stream_loop envs f)) = Polling ->
  unbound (snd (fst (Callisto.check_stream_loop envs f))) /\
  Callisto.l_retry_count (snd (snd (fst (Callisto.check_stream_loop envs f)))) < 5.
Proof.
  revert f. induction envs as [|e rest IH]; intros f Hf Hr Hp; [split; assumption|].
  cbn [Callisto.check_stream_loop] in *.
  destruct (shutdown_flag (fst f)); [discriminate|].
  pose proof (callisto_poll_unbound e f Hf) as Hu.
  pose proof (callisto_poll_counter e f) as Hc. unfold yields in Hu, Hc.
  destruct (Callisto.poll e f) as [[[[]|x] f1] t1]; try discriminate.
  destruct Hu as [Hu _]. specialize (IH f1 Hu (Hc eq_refl)).
  destruct (Callisto.check_stream_loop rest f1) as [[r2 f2] ts2].
  apply IH. exact Hp.
Qed.

Lemma callisto_live_polls_end (lives : list iter_env) (f : Callisto.frame) :
  unbound f ->
  Forall (fun e => is_live e = true /\ ie_signal e = None) lives ->
  5 - Callisto.l_retry_count (snd f) <= Z.of_nat (length lives) ->
  Callisto.l_retry_count (snd f) < 5 ->
  fst (fst (Callisto.check_stream_loop lives f)) = Finished.
Proof.
  revert f. induction lives as [|e rest IH]; intros f Hf Hall Hlen Hr.
  - cbn in Hlen. lia.
  - inversion Hall as [|? ? [Hl Hsig] Hrest]; subst.
    cbn [Callisto.check_stream_loop].
    destruct (shutdown_flag (fst f)); [reflexivity|].
    pose proof (callisto_live_poll e f Hsig Hl Hf) as Hu.
    pose proof (callisto_poll_unbound e f Hf) as Hv. unfold yields in Hu, Hv.
    destruct (Callisto.poll e f) as [[[c|x] f1] t1]; [|contradiction].
    destruct Hu as (Hr1 & Hc & _ & _). destruct Hv as [Hv _].
    destruct (5 <=? Callisto.l_retry_count (snd f) + 1) eqn:E; subst c; [reflexivity|].
    apply Z.leb_gt in E.
    specialize (IH f1 Hv Hrest).
    destruct (Callisto.check_stream_loop rest f1) as [[r2 f2] ts2].
    apply IH; [|lia]. rewrite Hr1. cbn [length] in Hlen. lia.
Qed.

(** [callisto.py] cannot follow a broadcast: five live polls in a row, no
    signal arriving, always end its loop, whatever came before them and
    whatever the launches do.  Each of these polls is counted as an error
    by the read of the unbound local, and the fifth one leaves the loop by
    [break]; what is left of the run is not polling any more. *)
Theorem callisto_stops_within_five_live_polls (before lives : list iter_env)
    (g : recorder) :
  Forall (fun e => is_live e = true /\ ie_signal e = None) lives ->
  (5 <= length lives)%nat ->
  fst (fst (Callisto.check_stream (before ++ lives) g)) <> Polling.
Proof.
  intros Hall Hlen. unfold Callisto.check_stream.
  match goal with
  | |- fst (fst (Callisto.check_stream_loop _ ?f0)) <> _ => set (f := f0)
  end.
  assert (Hf : unbound f).
  { split; [reflexivity|]. split; [reflexivity|]. cbn. lia. }
  assert (Hr : Callisto.l_retry_count (snd f) < 5) by (cbn; lia).
  rewrite callisto_loop_split.
  destruct (fst (fst (Callisto.check_stream_loop before f))) eqn:E; try discriminate.
  destruct (callisto_loop_polling before f Hf Hr E) as [Hf1 Hr1].
  rewrite (callisto_live_polls_end lives _ Hf1 Hall); [discriminate| |exact Hr1].
  destruct Hf1 as (_ & _ & H0). lia.
Qed.

Lemma callisto_stops_within_five_live_polls_witness :
  fst (fst (Callisto.check_stream
              ([calm offline_query launch_ok]
                 ++ List.repeat (calm live_query launch_ok) 5) default_recorder))
  <> Polling.
Proof.
  refine (callisto_stops_within_five_live_polls [calm offline_query launch_ok]
            (List.repeat (calm live_query launch_ok) 5) default_recorder _ _).
  - repeat constructor.
  - cbn. lia.
Defined.

(** ** The dependency check *)

(** [check_dependencies] returns [True] exactly when streamlink answers
    [--version] with return code 0, the recording directory can be made and
    the three settings [CHANNEL_ID], [NID_AUT] and [NID_SES] are set and not
    empty.  It lets no [Exception] through: a streamlink that is missing or
    hangs, and a directory that cannot be made, give [False].  The directory
    is made exactly when streamlink has answered with return code 0, before
    the settings are looked at, so also when they are missing. *)
Theorem check_dependencies_passes_iff (cfg : Deps.settings) (w : Deps.world) :
  (fst (Deps.check_dependencies cfg w) = Ret true <->
   (exists out, Deps.w_streamlink w = Deps.Completed 0 out) /\
   Deps.w_mkdir w = None /\
   Deps.truthy (Deps.channel_id cfg) = true /\
   Deps.truthy (Deps.nid_aut cfg) = true /\
   Deps.truthy (Deps.nid_ses cfg) = true) /\
  (forall x, fst (Deps.check_dependencies cfg w) = Raise x -> is_Exception x = false) /\
  (existsb is_mkdir (snd (Deps.check_dependencies cfg w)) = true <->
   exists out, Deps.w_streamlink w = Deps.Completed 0 out).
Proof.
  unfold Deps.check_dependencies, Deps.on_error.
  destruct w as [[x|rc out] mk]; cbn [Deps.w_streamlink Deps.w_mkdir].
  - split; [|split].
    + split.
      * destruct (is_Exception x); discriminate.
      * intros ([out H] & _). discriminate.
    + intros y. destruct (is_Exception x) eqn:E; [discriminate|].
      cbn. intros [= <-]. exact E.
    + split.
      * destruct (is_Exception x); discriminate.
      * intros [out H]. discriminate.
  - destruct (Z.eqb_spec rc 0) as [->|Hrc].
    + destruct mk as [x|].
      * split; [|split].
        -- split.
           ++ destruct (is_Exception x); discriminate.
           ++ intros (_ & H & _). discriminate.
        -- intros y. destruct (is_Exception x) eqn:E; [discriminate|].
           cbn. intros [= <-]. exact E.
        -- split; [intros _; now exists out|].
           intros _. destruct (is_Exception x); reflexivity.
      * destruct (Deps.truthy (Deps.channel_id cfg)),
          (Deps.truthy (Deps.nid_aut cfg)), (Deps.truthy (Deps.nid_ses cfg));
          cbn [andb fst snd]; (split; [|split]);
          try (intros ?; discriminate);
          try (split; [intros _; now exists out | reflexivity]);
          try (split; [reflexivity | intros _; reflexivity]);
          split;
          try discriminate;
          try (intros _; repeat split; try reflexivity; now exists out);
          try (intros (_ & _ & H1 & H2 & H3); discriminate).
    + split; [|split].
      * split; [discriminate|]. intros ([out' H] & _). congruence.
      * discriminate.
      * split; [discriminate|]. intros [out' H]. congruence.
Qed.

(** ** The name of the output file *)

Lemma lstrip_spaces (ws t : FileName.text) :
  forallb FileName.isspace ws = true ->
  FileName.lstrip (ws ++ t) = FileName.lstrip t.
Proof.
  induction ws as [|c ws IH]; intros H; [reflexivity|].
  cbn [forallb] in H. apply andb_true_iff in H as [Hc Hws].
  cbn [app FileName.lstrip]. rewrite Hc. now apply IH.
Qed.

Lemma lstrip_all_spaces (ws : FileName.text) :
  forallb FileName.isspace ws = true -> FileName.lstrip ws = [].
Proof.
  intros H. rewrite <- (List.app_nil_r ws). now rewrite lstrip_spaces.
Qed.

Lemma lstrip_app (t ws : FileName.text) :
  forallb FileName.isspace ws = true ->
  FileName.lstrip (t ++ ws)
  = if forallb FileName.isspace t then [] else FileName.lstrip t ++ ws.
Proof.
  intros Hws. induction t as [|c t IH].
  - cbn [app forallb]. now apply lstrip_all_spaces.
  - cbn [app FileName.lstrip forallb].
    destruct (FileName.isspace c); [exact IH|reflexivity].
Qed.

Lemma rstrip_spaces (t ws : FileName.text) :
  forallb FileName.isspace ws = true ->
  FileName.rstrip (t ++ ws) = FileName.rstrip t.
Proof.
  intros H. unfold FileName.rstrip. rewrite List.rev_app_distr, lstrip_spaces; [reflexivity|].
  rewrite List.forallb_forall in *. intros c Hc. apply H. now apply List.in_rev.
Qed.

Lemma strip_spaces (ws1 t ws2 : FileName.text) :
  forallb FileName.isspace ws1 = true -> forallb FileName.isspace ws2 = true ->
  FileName.strip (ws1 ++ t ++ ws2) = FileName.strip t.
Proof.
  intros H1 H2. unfold FileName.strip.
  rewrite lstrip_spaces by assumption. rewrite lstrip_app by assumption.
  destruct (forallb FileName.isspace t) eqn:E.
  - now rewrite lstrip_all_spaces.
  - now apply rstrip_spaces.
Qed.

Lemma in_remove_special (c : FileName.char) (t : FileName.text) :
  In c (FileName.remove_special t) <-> In c t /\ FileName.special c = false.
Proof.
  unfold FileName.remove_special. rewrite List.filter_In.
  now rewrite negb_true_iff.
Qed.

(** Only the title is cleaned.  The title as it enters the file name holds
    none of the nine characters of [special_chars_remover]; the channel name
    enters the file name as it is.  So, the time stamp holding no such
    character, the file name holds one of them, a slash for instance,
    exactly when the channel name does. *)
Theorem file_name_cleans_the_title_only (current_time channel_name title : FileName.text)
    (c : FileName.char) :
  FileName.special c = true ->
  ~ In c current_time ->
  ~ In c (FileName.cleaned_title title) /\
  (In c (FileName.file_name current_time channel_name title) <-> In c channel_name).
Proof.
  intros Hc Ht.
  assert (Hclean : ~ In c (FileName.cleaned_title title)).
  { unfold FileName.cleaned_title. rewrite in_remove_special. intros [_ H]. congruence. }
  split; [exact Hclean|].
  unfold FileName.file_name. rewrite !List.in_app_iff. cbn [In].
  split.
  - intros [H|[[H|[]]|[H|[[H|[]]|H]]]]; try contradiction; try exact H;
      subst c; discriminate.
  - intros H. right. right. now left.
Qed.

Lemma file_name_cleans_the_title_only_witness :
  ~ In 47%N (FileName.cleaned_title (text_of "a/b")) /\
  (In 47%N (FileName.file_name (text_of "20240101-120000") (text_of "ch/1") (text_of "a/b"))
   <-> In 47%N (text_of "ch/1")).
Proof.
  apply (file_name_cleans_the_title_only (text_of "20240101-120000") (text_of "ch/1")
           (text_of "a/b") 47%N).
  - reflexivity.
  - vm_compute. intuition discriminate.
Defined.

(** White space around the title does not reach the file name: a title and
    the same title between two runs of white space give the same file. *)
Theorem title_whitespace_is_stripped (current_time channel_name title ws1 ws2 : FileName.text) :
  forallb FileName.isspace ws1 = true ->
  forallb FileName.isspace ws2 = true ->
  FileName.file_name current_time channel_name (ws1 ++ title ++ ws2)
  = FileName.file_name current_time channel_name title.
Proof.
  intros H1 H2. unfold FileName.file_name, FileName.cleaned_title.
  now rewrite strip_spaces.
Qed.

Lemma title_whitespace_is_stripped_witness :
  FileName.file_name (text_of "20240101-120000") (text_of "ch")
    (text_of "  " ++ text_of "a b" ++ [12288%N; 10%N])
  = FileName.file_name (text_of "20240101-120000") (text_of "ch") (text_of "a b").
Proof.
  apply (title_whitespace_is_stripped (text_of "20240101-120000") (text_of "ch")
           (text_of "a b") (text_of "  ") [12288%N; 10%N]); reflexivity.
Defined.

(** ** How many launches, and who ends a recording *)

Lemma popens_cons (ev : event) (t : trace) :
  popens (ev :: t) = ((if is_popen ev then 1 else 0) + popens t)%nat.
Proof. unfold popens. simpl. now destruct (is_popen ev). Qed.

Lemma popens_query_trace (q : query_outcome) : popens (query_trace q) = 0%nat.
Proof. now rewrite <- popens_effects, query_trace_effects. Qed.

Lemma popens_handler_trace (se : stop_env) (cur : option pid) :
  popens (handler_trace se cur) = 0%nat.
Proof.
  destruct cur as [p|]; [|reflexivity].
  destruct se as [[] []]; reflexivity.
Qed.

Lemma stops_app (a b : trace) : stops (a ++ b) = (stops a + stops b)%nat.
Proof. unfold stops. now rewrite List.filter_app, List.length_app. Qed.

Lemma stops_cons (ev : event) (t : trace) :
  stops (ev :: t) = ((if is_stop ev then 1 else 0) + stops t)%nat.
Proof. unfold stops. simpl. now destruct (is_stop ev). Qed.

Lemma stops_effects (t : trace) : stops (effects t) = stops t.
Proof.
  unfold stops, effects. induction t as [|ev t IH]; [reflexivity|].
  destruct ev; simpl; auto.
Qed.

Lemma stops_query_trace (q : query_outcome) : stops (query_trace q) = 0%nat.
Proof. now rewrite <- stops_effects, query_trace_effects. Qed.

Ltac tally_leaf :=
  cbv beta; intros;
  repeat match goal with H : _ /\ _ |- _ => destruct H end;
  try contradiction; try discriminate;
  cbn [retry_count_max set_current_recording_process set_retry_count set_last_status
         set_shutdown_flag set_recording_info set_info] in *;
  repeat split; try reflexivity; try assumption;
  rewrite ?popens_app, ?popens_cons, ?popens_query_trace, ?popens_handler_trace,
    ?stops_app, ?stops_cons, ?stops_query_trace;
  cbn [is_popen is_stop popens stops List.filter length]; try lia.

Lemma run_streamlink_tally (v : variant) (le : launch_env) (title name : json)
    (s : recorder) :
  yields (run_streamlink v le title name) s
    (fun _ _ t => (popens t <= 1)%nat /\ stops t = 0%nat)
    (fun _ _ _ => False).
Proof. unfold run_streamlink. repeat step. all: tally_leaf. Qed.

Lemma launch_attempts_tally (v : variant) (n a : nat) (e : iter_env)
    (title name : json) (s : recorder) :
  yields (launch_attempts v n a e title name) s
    (fun _ _ t => (popens t <= n)%nat /\ stops t = 0%nat)
    (fun _ _ t => (popens t <= n)%nat /\ ie_signal e <> None).
Proof.
  revert a s. induction n as [|n IH]; intros a s; cbn [launch_attempts].
  - step. tally_leaf.
  - step. use run_streamlink_tally; [|contradiction].
    repeat step; try (use IH); tally_leaf.
    all: intros Hn; rewrite (signal_at_none _ _ Hn) in *; discriminate.
Qed.

Lemma monitor_recording_tally (v : variant) (r : monitor_report) (s : recorder) :
  yields (monitor_recording v r) s
    (fun _ s' t =>
       popens t = 0%nat /\ stops t = 0%nat /\ retry_count_max s' = retry_count_max s)
    (fun _ _ _ => False).
Proof. unfold monitor_recording. repeat step. all: tally_leaf. Qed.

Lemma poll_popens_bounded (v : variant) (e : iter_env) (s : recorder) :
  yields (poll v e) s
    (fun _ _ t => (popens t <= Z.to_nat (retry_count_max s))%nat)
    (fun _ _ t => (popens t <= Z.to_nat (retry_count_max s))%nat).
Proof.
  unfold poll, iteration, loop_body, handle_live_start, handle_live_end,
    check_recording_status.
  repeat (step || (use launch_attempts_tally) || (use monitor_recording_tally)).
  all: tally_leaf.
Qed.

(** In both classes a pass never makes more [Popen] calls than
    [retry_count_max], on any pass of any run, whatever the launches answer;
    with a [RETRY_COUNT] of 0 or less no recording is ever started. *)
Theorem launches_are_bounded_by_retry_count (v : variant) (envs : list iter_env)
    (s : recorder) :
  Forall (fun t => (popens t <= Z.to_nat (retry_count_max s))%nat)
    (snd (check_stream_loop v envs s)) /\
  (retry_count_max s <= 0 ->
   Forall (fun t => popens t = 0%nat) (snd (check_stream_loop v envs s))).
Proof.
  assert (H : Forall (fun t => (popens t <= Z.to_nat (retry_count_max s))%nat)
                (snd (check_stream_loop v envs s))).
  { revert s. induction envs as [|e rest IH]; intros s; [constructor|].
    cbn [check_stream_loop]. destruct (shutdown_flag s); [constructor|].
    pose proof (poll_popens_bounded v e s) as Hb. unfold yields in Hb.
    pose proof (poll_any v e s) as (_ & _ & Hm & _).
    destruct (poll v e s) as [[[[]|x] s1] t1]; unfold state_of in Hm; cbn [fst snd] in Hm.
    - specialize (IH s1). rewrite Hm in IH.
      destruct (check_stream_loop v rest s1) as [[r s2] ts]. cbn [snd] in *.
      constructor; assumption.
    - repeat constructor. exact Hb.
    - repeat constructor. exact Hb. }
  split; [exact H|]. intros Hmax.
  eapply List.Forall_impl; [|exact H]. cbv beta. intros t Ht. lia.
Qed.

Ltac calm_leaf Hsig :=
  cbv beta; intros;
  repeat match goal with H : _ /\ _ |- _ => destruct H end;
  try contradiction; try discriminate; try congruence;
  try (rewrite (signal_at_none _ _ Hsig) in *; discriminate);
  repeat split; try reflexivity; try assumption;
  rewrite ?stops_app, ?stops_cons, ?stops_query_trace;
  cbn [is_stop stops List.filter length]; try lia.

(** Without a signal, a pass ends no process. *)
Lemma poll_never_stops (v : variant) (e : iter_env) (s : recorder) :
  ie_signal e = None ->
  yields (poll v e) s (fun _ _ t => stops t = 0%nat) (fun _ _ _ => False).
Proof.
  intros Hsig.
  unfold poll, iteration, loop_body, handle_live_start, handle_live_end,
    check_recording_status.
  repeat (step || (use launch_attempts_tally) || (use monitor_recording_tally)).
  all: calm_leaf Hsig.
Qed.

Ltac path_leaf Hsig :=
  cbv beta; intros;
  repeat match goal with H : _ /\ _ |- _ => destruct H end;
  try contradiction; try discriminate; try congruence; try lia;
  try (rewrite (signal_at_none _ _ Hsig) in *; discriminate);
  try match goal with
      | Hp : live_info _ = (?st, _, _), Hl : is_live _ = _ |- _ =>
          unfold is_live, status_of in *; rewrite Hp in *; cbn [fst snd] in *
      end;
  try congruence;
  repeat match goal with
         | H1 : ?a = Some ?x, H2 : ?a = Some ?y |- _ =>
             assert (x = y) by congruence; subst x; clear H1
         end;
  cbn [check_interval current_recording_process last_status
         set_current_recording_process set_retry_count set_last_status] in *;
  rewrite ?effects_app, ?query_trace_effects;
  cbn [effects List.filter is_log negb app];
  repeat split; try reflexivity; try congruence; try lia.

Lemma poll_broadcast_end (v : variant) (e : iter_env) (s : recorder) (p : pid) :
  ie_signal e = None -> ie_monitor e = None -> is_live e = false ->
  is_open (last_status s) = true -> current_recording_process s = Some p ->
  sleepable (check_interval s) ->
  yields (poll v e) s
    (fun c s1 t =>
       c = Continue /\
       effects t = [EHttpGet 10; EWait p None; ESleep (check_interval s)] /\
       current_recording_process s1 = None /\ last_status s1 = status_of e)
    (fun _ _ _ => False).
Proof.
  intros Hsig Hmon Hl Ho Hcur Hci.
  unfold poll, iteration, loop_body, handle_live_start, handle_live_end,
    check_recording_status.
  repeat (step || (use launch_attempts_tally) || (use monitor_recording_tally)).
  all: path_leaf Hsig.
Qed.

(** In both classes the loop ends no recording by itself: a pass during
    which no signal arrives calls neither [terminate] nor [kill].  When a
    poll reports the broadcast over while a process is current, the pass
    waits for that process, without a timeout, before its offline sleep: a
    pass that completes, the wait having returned, has made the status
    query, the wait and the sleep and nothing else, holds no process and
    has recorded the polled status. *)
Theorem loop_waits_for_the_recording (v : variant) (e : iter_env) (s : recorder)
    (p : pid) :
  ie_signal e = None -> ie_monitor e = None -> is_live e = false ->
  is_open (last_status s) = true -> current_recording_process s = Some p ->
  sleepable (check_interval s) ->
  (forall e' s', ie_signal e' = None -> stops (trace_of (poll v e' s')) = 0%nat) /\
  In (EWait p None) (trace_of (poll v e s)) /\
  forall c s1 t1,
    poll v e s = (Ret c, s1, t1) ->
    c = Continue /\
    effects t1 = [EHttpGet 10; EWait p None; ESleep (check_interval s)] /\
    current_recording_process s1 = None /\ last_status s1 = status_of e.
Proof.
  intros Hsig Hmon Hl Ho Hcur Hci. split; [|split].
  - intros e' s' Hsig'.
    pose proof (poll_never_stops v e' s' Hsig') as H. unfold yields in H.
    unfold trace_of. destruct (poll v e' s') as [[[c|x] s1] t1]; [exact H|contradiction].
  - pose proof (poll_broadcast_end v e s p Hsig Hmon Hl Ho Hcur Hci) as H.
    unfold yields in H. unfold trace_of.
    destruct (poll v e s) as [[[c|x] s1] t1]; [|contradiction]. cbn [snd].
    destruct H as (_ & H1 & _).
    assert (Hin : In (EWait p None) (effects t1)) by (rewrite H1; cbn; auto).
    unfold effects in Hin. now apply List.filter_In in Hin.
  - intros c s1 t1 Ep.
    pose proof (poll_broadcast_end v e s p Hsig Hmon Hl Ho Hcur Hci) as H.
    unfold yields in H. rewrite Ep in H. exact H.
Qed.

Lemma loop_waits_for_the_recording_witness :
  exists s1 t1,
    poll Web broadcast_over recording = (Ret Continue, s1, t1) /\
    stops t1 = 0%nat /\
    In (EWait 7%nat None) t1 /\
    effects t1 = [EHttpGet 10; EWait 7%nat None; ESleep (check_interval recording)] /\
    current_recording_process s1 = None /\ last_status s1 = status_of broadcast_over.
Proof.
  assert (Hci : sleepable (check_interval recording)) by (cbn; lia).
  pose proof (loop_waits_for_the_recording Web broadcast_over recording 7%nat
                eq_refl eq_refl eq_refl eq_refl eq_refl Hci) as (Hs & Hw & Hr).
  exists (state_of (poll Web broadcast_over recording)),
    (trace_of (poll Web broadcast_over recording)).
  assert (Ep : poll Web broadcast_over recording
               = (Ret Continue, state_of (poll Web broadcast_over recording),
                  trace_of (poll Web broadcast_over recording)))
    by (vm_compute; reflexivity).
  split; [exact Ep|]. split; [apply Hs; reflexivity|]. split; [exact Hw|].
  apply (Hr _ _ _ Ep).
Defined.

(** ** The stop button *)

(** In [hosting.py], once a recorder exists [api_stop] always answers
    [success: True]: when a recording was stopped, when there was nothing to
    stop (the recorder is then left as it is and nothing is done), and when
    stopping went wrong, [terminate] or [wait] raising, which
    [stop_recording] logs and keeps to itself.  Its [except] clause is never
    entered.  Afterwards the recorder holds no process. *)
Theorem api_stop_always_reports_success (se : stop_env) (clock : Z) (r : recorder) :
  exists r' t,
    Api.api_stop se clock (Some r)
    = (Ret {| Api.success := true; Api.message := Api.RecordingStopped |}, Some r', t) /\
    current_recording_process r' = None /\
    (current_recording_process r = None -> r' = r /\ t = []) /\
    (forall p, current_recording_process r = Some p ->
               se_terminate_raises se = true \/ se_wait se = WaitRaises ->
               In (ELog Error MsgStopError) t).
Proof.
  unfold Api.api_stop.
  destruct (current_recording_process r) as [p|] eqn:Hp.
  - rewrite (stop_recording_some se clock r p Hp).
    eexists. eexists. split; [reflexivity|]. split; [reflexivity|].
    split; [discriminate|].
    intros p' [= <-] H. unfold stop_recording_trace.
    destruct se as [tr w]; cbn [se_terminate_raises se_wait] in *.
    destruct tr; [cbn; auto|].
    destruct H as [H|H]; [discriminate|]. subst w. cbn. auto 6.
  - rewrite (stop_recording_none se clock r Hp).
    exists r, []. split; [reflexivity|]. split; [exact Hp|].
    split; [auto|]. intros p' H. discriminate.
Qed.

(** ** Two recordings at once in [callisto.py] *)

Lemma launch_first_attempt (v : variant) (e : iter_env) (title : string) (name : json)
    (s : recorder) (p : pid) :
  ie_signal e = None -> 0 < retry_count_max s ->
  le_popen (ie_launch e 0) = Some p ->
  yields (launch_attempts v (Z.to_nat (retry_count_max s)) 0 e (JStr title) name) s
    (fun _ s' t =>
       effects t = [EPopen (Some p); EThreadStart p] /\
       current_recording_process s' = Some p /\
       shutdown_flag s' = shutdown_flag s /\
       retry_count_max s' = retry_count_max s)
    (fun _ _ _ => False).
Proof.
  intros Hsig Hmax Hp.
  destruct (launch_attempts_success v 0 (Z.to_nat (retry_count_max s)) 0 e title name s p)
    as (s' & t & E & Hef & Hc & Hf & Hcur & _); try assumption; try lia.
  unfold yields. rewrite E. repeat split; try assumption. apply Hc.
Qed.

Ltac twice_leaf Hsig :=
  cbv beta; intros;
  cbn [fst snd Callisto.l_current_recording_process Callisto.l_last_status
         Callisto.l_retry_count Callisto.set_l_retry_count Callisto.set_l_last_status
         Callisto.set_l_current_recording_process] in *;
  repeat match goal with H : _ /\ _ |- _ => destruct H end;
  try contradiction; try congruence; try lia;
  try (rewrite (signal_at_none _ _ Hsig) in *; discriminate);
  try match goal with
      | H1 : is_open ?x = false, H2 : negb (is_open ?x) = false |- _ =>
          rewrite H1 in H2; discriminate
      end;
  try match goal with
      | H : (5 <=? _) = true |- _ => apply Z.leb_le in H; lia
      end;
  unfold unbound; repeat split;
  cbn [fst snd Callisto.l_current_recording_process Callisto.l_last_status
         Callisto.l_retry_count Callisto.set_l_retry_count Callisto.set_l_last_status
         Callisto.set_l_current_recording_process] in *;
  try assumption; try congruence; try lia;
  rewrite ?effects_app, ?query_trace_effects;
  repeat match goal with H : effects _ = _ |- _ => rewrite H end;
  cbn [effects List.filter is_log negb app]; try reflexivity.

(** A live poll of the script whose first launch attempt succeeds. *)
Lemma callisto_live_launch (e : iter_env) (f : Callisto.frame) (title : string)
    (p : pid) :
  ie_signal e = None -> ie_monitor e = None ->
  is_live e = true -> title_of e = JStr title ->
  le_popen (ie_launch e 0) = Some p ->
  0 < retry_count_max (fst f) -> unbound f ->
  Callisto.l_retry_count (snd f) + 1 < 5 ->
  yields (Callisto.poll e) f
    (fun c f' t =>
       c = Continue /\
       effects t = [EHttpGet 10; EPopen (Some p); EThreadStart p; ESleep 30] /\
       current_recording_process (fst f') = Some p /\
       shutdown_flag (fst f') = shutdown_flag (fst f) /\
       retry_count_max (fst f') = retry_count_max (fst f) /\
       Callisto.l_retry_count (snd f') = Callisto.l_retry_count (snd f) + 1 /\
       unbound f')
    (fun _ _ _ => False).
Proof.
  destruct f as [g l]. intros Hsig Hmon Hl Ht Hp Hmax (Hc & Ho & Hr) Hr5.
  cbn [fst snd] in *. unfold is_live, status_of, title_of in *.
  destruct (live_info (ie_query e)) as [[st ti] nm] eqn:Hli. cbn [fst snd] in *. subst ti.
  unfold Callisto.poll, Callisto.iteration, Callisto.loop_body. rewrite Hmon.
  repeat (step || step_frame
          || (match goal with
              | H : (_, _, _) = (_, JStr _, _) |- _ => injection H as ? ? ?; subst
              end)
          || (use (launch_first_attempt Console e title); [exact Hsig|exact Hmax|exact Hp| |])).
  all: twice_leaf Hsig.
Qed.

(** [callisto.py] records twice at once.  Two live polls in a row, each
    with a launch that succeeds at once, start two streamlink processes: the
    second [Popen] is made while the first process is still running (the
    script has neither waited for it nor asked it to end, and the monitor
    thread has not seen it end), and the global
    [current_recording_process] then names the second process only, so a
    termination signal stops that one and leaves the first running.  (In the
    two classes the second poll starts nothing.) *)
Theorem callisto_records_twice_at_once (e1 e2 : iter_env) (g : recorder) (p1 p2 : pid) :
  shutdown_flag g = false -> 0 < retry_count_max g ->
  starts_process e1 p1 -> starts_process e2 p2 ->
  exists f t1 t2,
    Callisto.check_stream [e1; e2] g = (Polling, f, [t1; t2]) /\
    effects t1 = [EHttpGet 10; EPopen (Some p1); EThreadStart p1; ESleep 30] /\
    effects t2 = [EHttpGet 10; EPopen (Some p2); EThreadStart p2; ESleep 30] /\
    current_recording_process (fst f) = Some p2 /\
    forall se, effects (trace_of (_signal_handler se (fst f))) = stop_effects p2 se.
Proof.
  intros Hf Hmax (Hs1 & Hm1 & Hl1 & [ti1 Ht1] & Hp1) (Hs2 & Hm2 & Hl2 & [ti2 Ht2] & Hp2).
  unfold Callisto.check_stream.
  match goal with
  | |- context [Callisto.check_stream_loop _ ?f0] => set (f := f0)
  end.
  assert (Hu : unbound f).
  { split; [reflexivity|]. split; [reflexivity|]. cbn. lia. }
  assert (Hf0 : shutdown_flag (fst f) = false) by exact Hf.
  assert (Hr0 : Callisto.l_retry_count (snd f) + 1 < 5) by (cbn; lia).
  pose proof (callisto_live_launch e1 f ti1 p1 Hs1 Hm1 Hl1 Ht1 Hp1 Hmax Hu Hr0) as H1.
  unfold yields in H1. cbn [Callisto.check_stream_loop]. rewrite Hf0.
  destruct (Callisto.poll e1 f) as [[[c1|x1] f1] t1]; [|contradiction].
  destruct H1 as (-> & He1 & Hc1 & Hf1 & Hm1' & Hr1 & Hu1).
  assert (Hmax1 : 0 < retry_count_max (fst f1)) by (rewrite Hm1'; exact Hmax).
  assert (Hr1' : Callisto.l_retry_count (snd f1) + 1 < 5) by (rewrite Hr1; cbn; lia).
  pose proof (callisto_live_launch e2 f1 ti2 p2 Hs2 Hm2 Hl2 Ht2 Hp2 Hmax1 Hu1 Hr1') as H2.
  unfold yields in H2. rewrite Hf1, Hf0.
  destruct (Callisto.poll e2 f1) as [[[c2|x2] f2] t2]; [|contradiction].
  destruct H2 as (-> & He2 & Hc2 & Hf2 & _).
  exists f2, t1, t2. split; [reflexivity|]. split; [exact He1|]. split; [exact He2|].
  split; [exact Hc2|]. intros se. rewrite signal_handler_eq. unfold trace_of.
  cbn [snd]. rewrite Hc2. apply handler_trace_effects.
Qed.

Lemma callisto_records_twice_at_once_witness :
  exists f t1 t2,
    Callisto.check_stream [calm live_query launch_ok; calm live_query launch_again]
      default_recorder = (Polling, f, [t1; t2]) /\
    effects t1 = [EHttpGet 10; EPopen (Some 100%nat); EThreadStart 100%nat; ESleep 30] /\
    effects t2 = [EHttpGet 10; EPopen (Some 200%nat); EThreadStart 200%nat; ESleep 30] /\
    current_recording_process (fst f) = Some 200%nat /\
    forall se, effects (trace_of (_signal_handler se (fst f))) = stop_effects 200%nat se.
Proof.
  refine (callisto_records_twice_at_once (calm live_query launch_ok)
            (calm live_query launch_again) default_recorder 100%nat 200%nat
            eq_refl _ _ _).
  - reflexivity.
  - repeat split. now exists "T1".
  - repeat split. now exists "T1".
Defined.

(** ** A failed query re-arms the live edge *)









(** ** [get_status] and the loop *)

Lemma get_status_eq (q : query_outcome) (s : recorder) :
  get_status q s = (Ret (status_dict (live_info q) s), s, query_trace q ++ [] ++ []).
Proof.
  unfold get_status, bind. rewrite get_live_info_none.
  destruct (live_info q) as [[status title] name]. reflexivity.
Qed.

(** C6, as the code has it.  [get_status] changes no attribute of the
    recorder and does not hold up the loop: it returns, the one call it
    makes outside the process is its own status query, an HTTP request with a
    timeout of 10 seconds (no sleep, no wait for the recording process), and
    the loop runs the same from the recorder it leaves as from the one it
    found.  But it is not a read of the recorder alone: it reports the answer
    of that query next to the recorder's [recording_info], process,
    [last_status], [retry_count] and [shutdown_flag]. *)
Theorem get_status_reads_and_queries (q : query_outcome) (s : recorder) :
  state_of (get_status q s) = s /\
  result_of (get_status q s) = Ret (status_dict (live_info q) s) /\
  effects (trace_of (get_status q s)) = [EHttpGet 10] /\
  In (EHttpGet 10) (trace_of (get_status q s)) /\
  forall v envs,
    check_stream_loop v envs (state_of (get_status q s)) = check_stream_loop v envs s.
Proof.
  rewrite get_status_eq. unfold state_of, result_of, trace_of. cbn [fst snd].
  split; [reflexivity|]. split; [reflexivity|].
  assert (He : effects (query_trace q ++ [] ++ []) = [EHttpGet 10]).
  { rewrite !effects_app, query_trace_effects. reflexivity. }
  split; [exact He|]. split; [|reflexivity].
  assert (Hin : In (EHttpGet 10) (effects (query_trace q ++ [] ++ [])))
    by (rewrite He; now left).
  unfold effects in Hin. now apply List.filter_In in Hin.
Qed.

(** C6, as stated, fails: the same recorder gives two different
    dictionaries when the channel's answer differs. *)
Lemma get_status_depends_on_query :
  result_of (get_status live_query default_recorder)
  <> result_of (get_status offline_query default_recorder).
Proof. vm_compute. discriminate. Qed.
